(** * TradeSense-AI: the challenge risk-evaluation engine

    A shallow embedding of [backend/flask_trading.py] (the handlers
    [create_challenge], [execute_trade] and [close_trade], and the table
    [TIER_CONFIG]) together with the columns of [backend/flask_models.py]
    they read and write.

    - The database session is an explicit [Store]: the three tables are
      finite maps keyed by primary key, and every handler maps a store to a
      store and a response.  A handler that returns an error response before
      [db.session.commit()], or whose exception is caught by its
      [except Exception] clause ([db.session.rollback()], status 500), hands
      back the store it was given.
    - Python's [float] arithmetic is kept abstract behind the class [Num], so
      the handlers are written once, with the operators and the comparisons
      of the source in the order of the source.  The arithmetic of the
      program is the instance IEEE-754 binary64 ([PrimFloat.float]), which is
      what CPython's [float] is; exact rationals ([Q]) are a second
      instance, for reference.  Statements that only depend on the control
      flow of the handlers are proved for every instance.  Statements that
      depend on the arithmetic are proved from laws that binary64 has
      ([NumOrder], [NumCompare]), or for binary64 through the specification
      of its operations, infinities and NaN included; what is proved over
      [Q] comes on top of that and never alone.
    - The numeric fields of a request ([quantity], [entry_price],
      [exit_price]) are the values [float(...)] returns; a body that
      [float] rejects never reaches the code modelled here.
    - Strings are [string], read as UTF-8.  [str.upper] is the method of the
      class [Unicode], of which only the value on ASCII strings is fixed;
      [str.lower] is modelled on the ASCII range, which decides the
      comparisons the handlers make with it.  The string fields of a request
      are strings; a body with another JSON type in their place never
      reaches the code modelled here.
    - The columns [String(20)] that take a string of the request
      ([payment_method], [symbol]) are modelled with the database: an INSERT
      the column rejects fails at [db.session.commit()].
    - The timestamp columns [created_date] and [updated_date] play no part in
      the engine and are left out. *)

From Stdlib Require Import ZArith QArith Lqa Bool String Ascii List.
From Stdlib Require Import DecimalString Floats Uint63.
From stdpp Require Import gmap strings sorting.

Local Open Scope string_scope.
Local Open Scope Z_scope.

(** ** Python helpers *)

Module Py.

(** [str.lower] on one byte of a UTF-8 string: 'A'..'Z' move to 'a'..'z'.
    The handlers only compare a lower-cased string with the ASCII words
    'starter', 'pro', 'elite', 'buy' and 'sell', and store it when it is one
    of them.  No character outside ASCII is lower-cased to a letter of these
    words (the only one lower-cased to an ASCII letter at all is the Kelvin
    sign, to 'k'), so the comparison has the outcome it has in Python. *)
Definition lower_char (c : ascii) : ascii :=
  let n := nat_of_ascii c in
  if ((65 <=? n) && (n <=? 90))%nat then ascii_of_nat (n + 32) else c.

(** Upper-casing of one ASCII character: 'a'..'z' move to 'A'..'Z'. *)
Definition upper_char (c : ascii) : ascii :=
  let n := nat_of_ascii c in
  if ((97 <=? n) && (n <=? 122))%nat then ascii_of_nat (n - 32) else c.

Fixpoint map_chars (f : ascii -> ascii) (s : string) : string :=
  match s with
  | EmptyString => EmptyString
  | String c r => String (f c) (map_chars f r)
  end.

(** [s.lower()] *)
Definition lower (s : string) : string := map_chars lower_char s.

(** [s.upper()] for a string [s] of ASCII characters. *)
Definition ascii_upper (s : string) : string := map_chars upper_char s.

(** [s.isascii()] *)
Fixpoint isascii (s : string) : bool :=
  match s with
  | EmptyString => true
  | String c r => (nat_of_ascii c <? 128)%nat && isascii r
  end.

(** [str(n)] for an [int], as an f-string prints it. *)
Definition str_int (n : Z) : string := NilZero.string_of_int (Z.to_int n).

(** [x in l] for a list of strings. *)
Definition in_list (x : string) (l : list string) : bool :=
  existsb (String.eqb x) l.

End Py.

(** [str.upper] maps every cased character of Unicode and can change the
    length of a string ('ß' becomes 'SS').  The handlers are written against
    the method; what is known of it here is its value on ASCII strings. *)
Class Unicode : Type := {
  str_upper : string -> string;
  str_upper_ascii :
    forall s, Py.isascii s = true -> str_upper s = Py.ascii_upper s
}.

(** Python's [str.upper] is one instance of [Unicode].  This one is
    another: it agrees with it on ASCII strings, as every instance does by
    the law of the class, and serves to evaluate the scenarios, whose
    strings are ASCII.  Nothing but the statements on the scenarios is
    stated at this instance. *)
#[export] Instance ascii_Unicode : Unicode := {|
  str_upper := Py.ascii_upper;
  str_upper_ascii := fun _ _ => eq_refl
|}.

(** ** The string columns

    Every configuration of [flask_config.py] and [flask_app.py] names a
    PostgreSQL database.  A [db.String(n)] column is [character varying(n)]:
    an INSERT of a longer value fails unless the characters in excess are all
    spaces, in which case the value is cut to [n] characters; a value with a
    NUL character is refused by the driver.  Strings are UTF-8, and a
    character is counted once, whatever the number of its bytes. *)
Module Db.

(** A byte that continues a UTF-8 character. *)
Definition continues (c : ascii) : bool :=
  let n := nat_of_ascii c in ((128 <=? n) && (n <? 192))%nat.

(** The first [n] characters of a string, and what follows them. *)
Fixpoint split_chars (n : nat) (s : string) : string * string :=
  match s with
  | EmptyString => (EmptyString, EmptyString)
  | String c r =>
    if continues c then
      let (kept, rest) := split_chars n r in (String c kept, rest)
    else
      match n with
      | O => (EmptyString, s)
      | S m => let (kept, rest) := split_chars m r in (String c kept, rest)
      end
  end.

Fixpoint all_chars (f : ascii -> bool) (s : string) : bool :=
  match s with
  | EmptyString => true
  | String c r => f c && all_chars f r
  end.

(** The value a [character varying(n)] column holds after the INSERT of
    [s]; [None] when the INSERT fails. *)
Definition varchar (n : nat) (s : string) : option string :=
  if all_chars (fun c => negb (Ascii.eqb c "000")) s then
    let (kept, rest) := split_chars n s in
    if all_chars (fun c => Ascii.eqb c " ") rest then Some kept else None
  else None.

(** The same for a nullable column and a value that may be [None]. *)
Definition nullable_varchar (n : nat) (v : option string)
  : option (option string) :=
  match v with
  | None => Some None
  | Some s => option_map Some (varchar n s)
  end.

End Db.

(** ** Arithmetic of the handlers *)

(** The operations the handlers apply to [float] values.  [of_int] is the
    implicit conversion of a Python [int] meeting a [float]. *)
Class Num (F : Type) : Type := {
  of_int : Z -> F;
  num_add : F -> F -> F;
  num_sub : F -> F -> F;
  num_mul : F -> F -> F;
  num_div : F -> F -> F;
  num_eqb : F -> F -> bool;
  num_leb : F -> F -> bool;
  num_ltb : F -> F -> bool
}.

Declare Scope num_scope.
Delimit Scope num_scope with num.
Notation "x + y" := (num_add x y) : num_scope.
Notation "x - y" := (num_sub x y) : num_scope.
Notation "x * y" := (num_mul x y) : num_scope.
Notation "x == y" := (num_eqb x y) (at level 70, no associativity) : num_scope.
Notation "x <= y" := (num_leb x y) : num_scope.
Notation "x < y" := (num_ltb x y) : num_scope.
Notation "x >= y" := (num_leb y x) : num_scope.
Notation "x > y" := (num_ltb y x) : num_scope.

(** Exact rational arithmetic, for reference: no rounding, no overflow, no
    infinity and no NaN.  It is not the arithmetic of the program, and no
    claim is settled over it alone. *)
#[export] Instance Q_Num : Num Q := {|
  of_int := inject_Z;
  num_add := Qplus;
  num_sub := Qminus;
  num_mul := Qmult;
  num_div := Qdiv;
  num_eqb := Qeq_bool;
  num_leb := Qle_bool;
  num_ltb := fun x y => negb (Qle_bool y x)
|}.

(** [float(n)] for the integers of [TIER_CONFIG] and the literals of the
    handlers (all far below 2^63 in absolute value). *)
Definition float_of_int (n : Z) : float :=
  if n <? 0 then PrimFloat.opp (PrimFloat.of_uint63 (Uint63.of_Z (- n)))
  else PrimFloat.of_uint63 (Uint63.of_Z n).

(** IEEE-754 binary64, round to nearest even: CPython's [float]. *)
#[export] Instance binary64_Num : Num float := {|
  of_int := float_of_int;
  num_add := PrimFloat.add;
  num_sub := PrimFloat.sub;
  num_mul := PrimFloat.mul;
  num_div := PrimFloat.div;
  num_eqb := PrimFloat.eqb;
  num_leb := PrimFloat.leb;
  num_ltb := PrimFloat.ltb
|}.

(** The two laws of [<] that the order of the balances rests on.  They hold
    over [Q], and in binary64 for every value, infinities and NaN
    included. *)
Class NumOrder (F : Type) {num : Num F} : Prop := {
  num_ltb_irrefl : forall a : F, (a < a)%num = false;
  num_ltb_asym : forall a b : F, (a < b)%num = true -> (b < a)%num = false
}.

(** ** Tier configurations *)

Module TierConfig.
Record t : Type := mk {
  initial_balance : Z;
  price : Z;
  max_daily_loss_percent : Z;
  max_total_loss_percent : Z;
  profit_target_percent : Z
}.
End TierConfig.

Definition TIER_CONFIG : gmap string TierConfig.t :=
  {[ "starter" := TierConfig.mk 10000 99 5 10 10;
     "pro" := TierConfig.mk 50000 299 5 10 10;
     "elite" := TierConfig.mk 100000 599 5 10 10 ]}.

(** A value that is a number: [x == x], which in Python fails for NaN
    alone. *)
Definition is_number {F : Type} {num : Num F} (x : F) : Prop :=
  (x == x)%num = true.

(** The laws of the comparisons that statements over several balances rest
    on.  A comparison that holds has numbers on both sides; on numbers [<]
    and [<=] are the strict and the weak side of one total order.  The
    initial balances of [TIER_CONFIG] are numbers.  All of it holds over [Q],
    where every value is a number, and in binary64. *)
Class NumCompare (F : Type) {num : Num F} : Prop := {
  num_ltb_trans :
    forall a b c : F,
      (a < b)%num = true -> (b < c)%num = true -> (a < c)%num = true;
  num_leb_trans :
    forall a b c : F,
      (a <= b)%num = true -> (b <= c)%num = true -> (a <= c)%num = true;
  num_ltb_number :
    forall a b : F, (a < b)%num = true -> is_number a /\ is_number b;
  num_leb_number :
    forall a b : F, (a <= b)%num = true -> is_number a /\ is_number b;
  num_leb_of_not_ltb :
    forall a b : F,
      is_number a -> is_number b -> (a < b)%num = false ->
      (b <= a)%num = true;
  num_tier_number :
    forall name config,
      TIER_CONFIG !! name = Some config ->
      is_number (of_int (TierConfig.initial_balance config) : F)
}.

(** ** Rows of the tables *)

(** A row of [challenges]. *)
Module Challenge.
Section Row.
Context {F : Type}.
Record t : Type := mk {
  id : Z;
  user_id : Z;
  tier : string;
  initial_balance : F;
  current_balance : F;
  highest_balance : F;
  daily_start_balance : F;
  status : string;
  fail_reason : option string;
  profit_percent : F;
  payment_method : option string;
  amount_paid : option F
}.

(** [challenge.current_balance = v] and the like. *)
Definition set_current_balance (v : F) (c : t) : t :=
  mk (id c) (user_id c) (tier c) (initial_balance c) v (highest_balance c)
     (daily_start_balance c) (status c) (fail_reason c) (profit_percent c)
     (payment_method c) (amount_paid c).
Definition set_highest_balance (v : F) (c : t) : t :=
  mk (id c) (user_id c) (tier c) (initial_balance c) (current_balance c) v
     (daily_start_balance c) (status c) (fail_reason c) (profit_percent c)
     (payment_method c) (amount_paid c).
Definition set_profit_percent (v : F) (c : t) : t :=
  mk (id c) (user_id c) (tier c) (initial_balance c) (current_balance c)
     (highest_balance c) (daily_start_balance c) (status c) (fail_reason c) v
     (payment_method c) (amount_paid c).
Definition set_status (v : string) (c : t) : t :=
  mk (id c) (user_id c) (tier c) (initial_balance c) (current_balance c)
     (highest_balance c) (daily_start_balance c) v (fail_reason c)
     (profit_percent c) (payment_method c) (amount_paid c).
Definition set_fail_reason (v : option string) (c : t) : t :=
  mk (id c) (user_id c) (tier c) (initial_balance c) (current_balance c)
     (highest_balance c) (daily_start_balance c) (status c) v
     (profit_percent c) (payment_method c) (amount_paid c).
End Row.
Arguments t : clear implicits.
End Challenge.

(** A row of [trades]. *)
Module Trade.
Section Row.
Context {F : Type}.
Record t : Type := mk {
  id : Z;
  challenge_id : Z;
  user_id : Z;
  symbol : string;
  type : string;
  quantity : F;
  entry_price : F;
  exit_price : option F;
  profit_loss : option F;
  status : string
}.

(** The three assignments of [close_trade] to the trade. *)
Definition close (exit pl : F) (t0 : t) : t :=
  mk (id t0) (challenge_id t0) (user_id t0) (symbol t0) (type t0)
     (quantity t0) (entry_price t0) (Some exit) (Some pl) "closed".
End Row.
Arguments t : clear implicits.
End Trade.

(** ** The store and the responses *)

(** The tables [users] (primary keys only), [challenges] and [trades]. *)
Record Store {F : Type} : Type := mkStore {
  users : gset Z;
  challenges : gmap Z (Challenge.t F);
  trades : gmap Z (Trade.t F)
}.
Arguments Store : clear implicits.

(** The error responses of the three handlers. *)
Inductive ApiError : Type :=
| InvalidTier
| InvalidTradeType
| InvalidQuantityOrPrice
| ChallengeNotFound
| ChallengeNotActive
| InsufficientBalance
| InvalidExitPrice
| TradeNotFound
| TradeAlreadyClosed
| ServerError.

(** The ['error'] text and the HTTP status of each error response; the text
    of a 500 is [str(e)] of the exception caught and is not modelled. *)
Definition error_body (e : ApiError) : string * Z :=
  match e with
  | InvalidTier => ("Invalid tier. Must be starter, pro, or elite", 400)
  | InvalidTradeType => ("Trade type must be buy or sell", 400)
  | InvalidQuantityOrPrice => ("Invalid quantity or price", 400)
  | ChallengeNotFound => ("Challenge not found", 404)
  | ChallengeNotActive => ("Challenge is not active", 400)
  | InsufficientBalance => ("Insufficient balance", 400)
  | InvalidExitPrice => ("Invalid exit price", 400)
  | TradeNotFound => ("Trade not found", 404)
  | TradeAlreadyClosed => ("Trade is already closed", 400)
  | ServerError => ("", 500)
  end.

Inductive Response {F : Type} : Type :=
| ChallengeCreated (challenge : Challenge.t F)
| TradeExecuted (trade : Trade.t F)
| TradeClosed (trade : Trade.t F) (challenge : Challenge.t F)
| Error (e : ApiError).
Arguments Response : clear implicits.

(** ** The handlers *)

Section Engine.
Context {F : Type} {num : Num F} {uni : Unicode}.

(** [max(a, b)]: the first argument stays unless the second is greater. *)
Definition py_max (a b : F) : F := if (b > a)%num then b else a.

(** [a / b], which raises [ZeroDivisionError] when [b == 0]. *)
Definition py_div (a b : F) : option F :=
  if (b == of_int 0)%num then None else Some (num_div a b).

(** [percent / 100]: two [int]s, a [float] quotient, a divisor that is the
    literal 100. *)
Definition percent (p : Z) : F := num_div (of_int p) (of_int 100).

(** [Challenge.query.filter_by(id=challenge_id, user_id=user_id).first()] *)
Definition find_challenge (s : Store F) (challenge_id user_id : Z)
  : option (Challenge.t F) :=
  match challenges s !! challenge_id with
  | Some c => if Challenge.user_id c =? user_id then Some c else None
  | None => None
  end.

(** [Trade.query.filter_by(id=trade_id, user_id=user_id).first()] *)
Definition find_trade (s : Store F) (trade_id user_id : Z)
  : option (Trade.t F) :=
  match trades s !! trade_id with
  | Some t => if Trade.user_id t =? user_id then Some t else None
  | None => None
  end.

(** [create_challenge], with [user_id] the JWT identity and [tier],
    [payment_method] the fields of the request body. *)
Definition create_challenge (s : Store F) (user_id : Z) (tier : string)
    (payment_method : option string) : Store F * Response F :=
  let tier := Py.lower tier in
  match TIER_CONFIG !! tier with
  | None => (s, Error InvalidTier)
  | Some config =>
    let initial_balance := of_int (TierConfig.initial_balance config) in
    (* [user.id] on a missing user raises, and the handler answers 500 *)
    if bool_decide (user_id ∈ users s) then
      let new_id := fresh (dom (challenges s)) in
      (* [db.session.commit()]: the INSERT raises on a [payment_method] the
         column [String(20)] rejects, and the handler answers 500 *)
      match Db.nullable_varchar 20 payment_method with
      | None => (s, Error ServerError)
      | Some payment_method =>
        let challenge :=
          Challenge.mk new_id user_id tier initial_balance initial_balance
            initial_balance initial_balance "active" None (of_int 0)
            payment_method (Some (of_int (TierConfig.price config))) in
        (mkStore F (users s) (<[new_id := challenge]> (challenges s))
           (trades s),
         ChallengeCreated challenge)
      end
    else (s, Error ServerError)
  end.

(** [execute_trade], with [user_id] the JWT identity and the other
    arguments the fields of the request body. *)
Definition execute_trade (s : Store F) (user_id challenge_id : Z)
    (symbol type : string) (quantity entry_price : F)
  : Store F * Response F :=
  let symbol := str_upper symbol in
  let trade_type := Py.lower type in
  if negb (Py.in_list trade_type ["buy"; "sell"]) then
    (s, Error InvalidTradeType)
  else if (quantity <= of_int 0)%num || (entry_price <= of_int 0)%num then
    (s, Error InvalidQuantityOrPrice)
  else
    match find_challenge s challenge_id user_id with
    | None => (s, Error ChallengeNotFound)
    | Some challenge =>
      if negb (Challenge.status challenge =? "active")%string then
        (s, Error ChallengeNotActive)
      else
        let trade_value := (quantity * entry_price)%num in
        if (trade_value > Challenge.current_balance challenge)%num then
          (s, Error InsufficientBalance)
        else
          let new_id := fresh (dom (trades s)) in
          (* [db.session.commit()]: the INSERT raises on a [symbol] the
             column [String(20)] rejects, and the handler answers 500 *)
          match Db.varchar 20 symbol with
          | None => (s, Error ServerError)
          | Some symbol =>
            let trade :=
              Trade.mk new_id challenge_id user_id symbol trade_type quantity
                entry_price None None "open" in
            (mkStore F (users s) (challenges s)
               (<[new_id := trade]> (trades s)),
             TradeExecuted trade)
          end
    end.

(** The profit or loss of closing [trade] at [exit_price]. *)
Definition profit_loss_of (trade : Trade.t F) (exit_price : F) : F :=
  if (Trade.type trade =? "buy")%string then
    ((exit_price - Trade.entry_price trade) * Trade.quantity trade)%num
  else
    ((Trade.entry_price trade - exit_price) * Trade.quantity trade)%num.

(** "Update challenge balance" and "Calculate profit percentage"; [None]
    is the [ZeroDivisionError] of a zero [initial_balance]. *)
Definition update_balance (profit_loss : F) (challenge : Challenge.t F)
  : option (Challenge.t F) :=
  let challenge :=
    Challenge.set_current_balance
      (Challenge.current_balance challenge + profit_loss)%num challenge in
  let challenge :=
    Challenge.set_highest_balance
      (py_max (Challenge.highest_balance challenge)
              (Challenge.current_balance challenge)) challenge in
  match py_div (Challenge.current_balance challenge
                - Challenge.initial_balance challenge)%num
               (Challenge.initial_balance challenge) with
  | None => None
  | Some q => Some (Challenge.set_profit_percent (q * of_int 100)%num challenge)
  end.

(** "Check daily loss limit" *)
Definition check_daily_loss (config : TierConfig.t) (challenge : Challenge.t F)
  : Challenge.t F :=
  let daily_loss :=
    (Challenge.daily_start_balance challenge
     - Challenge.current_balance challenge)%num in
  let max_daily_loss :=
    (Challenge.daily_start_balance challenge
     * percent (TierConfig.max_daily_loss_percent config))%num in
  if (daily_loss >= max_daily_loss)%num then
    Challenge.set_fail_reason
      (Some ("Exceeded "
             ++ Py.str_int (TierConfig.max_daily_loss_percent config)
             ++ "% daily loss limit"))
      (Challenge.set_status "failed" challenge)
  else challenge.

(** "Check total loss limit" *)
Definition check_total_loss (config : TierConfig.t) (challenge : Challenge.t F)
  : Challenge.t F :=
  let total_loss :=
    (Challenge.initial_balance challenge
     - Challenge.current_balance challenge)%num in
  let max_total_loss :=
    (Challenge.initial_balance challenge
     * percent (TierConfig.max_total_loss_percent config))%num in
  if (total_loss >= max_total_loss)%num then
    Challenge.set_fail_reason
      (Some ("Exceeded "
             ++ Py.str_int (TierConfig.max_total_loss_percent config)
             ++ "% total loss limit"))
      (Challenge.set_status "failed" challenge)
  else challenge.

(** "Check profit target" *)
Definition check_profit_target (config : TierConfig.t)
    (challenge : Challenge.t F) : Challenge.t F :=
  if (Challenge.profit_percent challenge
      >= of_int (TierConfig.profit_target_percent config))%num then
    Challenge.set_status "passed" challenge
  else challenge.

(** "Check challenge rules": the three checks, in the order of the source. *)
Definition check_rules (config : TierConfig.t) (challenge : Challenge.t F)
  : Challenge.t F :=
  check_profit_target config
    (check_total_loss config (check_daily_loss config challenge)).

(** [close_trade], with [user_id] the JWT identity, [trade_id] the id of the
    route and [exit_price] the field of the request body. *)
Definition close_trade (s : Store F) (user_id trade_id : Z) (exit_price : F)
  : Store F * Response F :=
  if (exit_price <= of_int 0)%num then (s, Error InvalidExitPrice)
  else
    match find_trade s trade_id user_id with
    | None => (s, Error TradeNotFound)
    | Some trade =>
      if negb (Trade.status trade =? "open")%string then
        (s, Error TradeAlreadyClosed)
      else
        let profit_loss := profit_loss_of trade exit_price in
        let trade := Trade.close exit_price profit_loss trade in
        (* [trade.challenge]; the later steps raise on a missing row, a zero
           [initial_balance] or a tier that is not configured *)
        match challenges s !! Trade.challenge_id trade with
        | None => (s, Error ServerError)
        | Some challenge =>
          match update_balance profit_loss challenge with
          | None => (s, Error ServerError)
          | Some challenge =>
            match TIER_CONFIG !! Challenge.tier challenge with
            | None => (s, Error ServerError)
            | Some config =>
              let challenge := check_rules config challenge in
              (mkStore F (users s)
                 (<[Trade.challenge_id trade := challenge]> (challenges s))
                 (<[trade_id := trade]> (trades s)),
               TradeClosed trade challenge)
            end
          end
        end
    end.

(** A request to the trading API, and the handler it is routed to. *)
Inductive Request : Type :=
| CreateChallenge (user_id : Z) (tier : string) (payment_method : option string)
| ExecuteTrade (user_id challenge_id : Z) (symbol type : string)
    (quantity entry_price : F)
| CloseTrade (user_id trade_id : Z) (exit_price : F).

Definition handle (s : Store F) (r : Request) : Store F * Response F :=
  match r with
  | CreateChallenge u tier pm => create_challenge s u tier pm
  | ExecuteTrade u c sym ty q p => execute_trade s u c sym ty q p
  | CloseTrade u t x => close_trade s u t x
  end.

(** The store after a sequence of requests, served one after the other. *)
Definition run (s : Store F) (rs : list Request) : Store F :=
  fold_left (fun s r => fst (handle s r)) rs s.

End Engine.
Arguments Request : clear implicits.

(** ** Scenarios

    Concrete stores on which the statements below are exercised.  They are
    built for any arithmetic and evaluated over [Q] or over binary64. *)

Section Scenarios.
Context {F : Type} {num : Num F} {uni : Unicode}.

(** One registered user (id 1) and empty tables. *)
Definition one_user : Store F := mkStore F {[ 1 ]} ∅ ∅.

(** User 1 buys a starter challenge (it gets id 0) and opens two long
    positions on it: 50 units at 100 (trade 0) and 10 units at 100
    (trade 1). *)
Definition two_positions : Store F :=
  run one_user
    [ CreateChallenge 1 "starter" (Some "paypal");
      ExecuteTrade 1 0 "btc" "buy" (of_int 50) (of_int 100);
      ExecuteTrade 1 0 "eth" "buy" (of_int 10) (of_int 100) ].

(** Trade 0 is closed at 80: a loss of 1000 on a balance of 10000. *)
Definition after_loss : Store F :=
  fst (close_trade two_positions 1 0 (of_int 80)).

(** A starter challenge that reached 12000 and whose day started there
    ([daily_start_balance] is written by the daily reset, which lives
    outside these handlers), with one long position of 10 units at 100
    still open. *)
Definition after_reset : Store F :=
  mkStore F {[ 1 ]}
    {[ 0 := Challenge.mk 0 1 "starter" (of_int 10000) (of_int 12000)
              (of_int 12000) (of_int 12000) "passed" None (of_int 20)
              (Some "paypal") (Some (of_int 99)) ]}
    {[ 0 := Trade.mk 0 0 1 "BTC" "buy" (of_int 10) (of_int 100) None None
              "open" ]}.

(** Two registered users (ids 1 and 2) and empty tables. *)
Definition two_users : Store F := mkStore F {[ 1; 2 ]} ∅ ∅.

(** User 1 buys a starter challenge (id 0) and user 2 a pro challenge
    (id 1); user 1 opens a long position of 10 units at 100 (trade 0), user 2
    a short position of 20 units at 100 (trade 1), which user 2 closes at 95:
    a profit of 100. *)
Definition two_traders : Store F :=
  run two_users
    [ CreateChallenge 1 "starter" (Some "paypal");
      CreateChallenge 2 "pro" (Some "crypto");
      ExecuteTrade 1 0 "btc" "buy" (of_int 10) (of_int 100);
      ExecuteTrade 2 1 "eth" "sell" (of_int 20) (of_int 100);
      CloseTrade 2 1 (of_int 95) ].

End Scenarios.

(** A starter challenge with a long and a short position of 2^1000 units
    at 2^-1000, each of value 1. *)
Definition large_positions : Store float :=
  run one_user
    [ CreateChallenge 1 "starter" None;
      ExecuteTrade 1 0 "btc" "buy" 0x1p+1000%float 0x1p-1000%float;
      ExecuteTrade 1 0 "btc" "sell" 0x1p+1000%float 0x1p-1000%float ].

(** ** The read-only handlers

    [get_challenge], [get_challenges], [get_trades] and [get_leaderboard]
    read the tables and answer with rows.  What they use beyond the rows
    modelled above is taken as given: the [created_date] of a row, as a
    time stamp; the reading the database makes of a query-string value that
    is compared with an integer column ([None] when it rejects the value,
    which the handler answers with a 500); the [full_name] column of [users];
    and [round(x, 2)]. *)

(** An entry of the list [get_leaderboard] answers with. *)
Module LeaderboardEntry.
Section Row.
Context {F : Type}.
Record t : Type := mk {
  rank : Z;
  trader : string;
  profit_percent : F;
  balance : F;
  tier : string
}.
End Row.
Arguments t : clear implicits.
End LeaderboardEntry.

(** The value of [request.args.get(name)] when [if value:] takes it: a
    query-string value that is present and not empty. *)
Definition py_nonempty (v : option string) : option string :=
  match v with
  | Some (String a r) => Some (String a r)
  | _ => None
  end.

Section Queries.
Context {F : Type} {num : Num F}.
Variable challenge_created_date : Challenge.t F -> Z.
Variable trade_created_date : Trade.t F -> Z.
Variable int_of_param : string -> option Z.
Variable full_name : Z -> option string.
Variable round2 : F -> F.

(** [order_by(Challenge.created_date.desc())] *)
Definition newest_challenge_first : relation (Challenge.t F) :=
  fun a b => (challenge_created_date b <= challenge_created_date a)%Z.

#[local] Instance newest_challenge_first_dec :
  RelDecision newest_challenge_first :=
  fun a b => decide (challenge_created_date b <= challenge_created_date a)%Z.

(** [order_by(Trade.created_date.desc())] *)
Definition newest_trade_first : relation (Trade.t F) :=
  fun a b => (trade_created_date b <= trade_created_date a)%Z.

#[local] Instance newest_trade_first_dec : RelDecision newest_trade_first :=
  fun a b => decide (trade_created_date b <= trade_created_date a)%Z.

(** The comparison [x <= y] of two [float8] values in PostgreSQL, which
    [ORDER BY] sorts with: NaN is equal to NaN and greater than every
    number, and numbers compare as in the arithmetic. *)
Definition float8_le (x y : F) : bool :=
  if (y == y)%num then
    if (x == x)%num then (x <= y)%num else false
  else true.

(** [order_by(Challenge.profit_percent.desc())] *)
Definition best_first : relation (Challenge.t F) :=
  fun a b =>
    float8_le (Challenge.profit_percent b) (Challenge.profit_percent a) = true.

#[local] Instance best_first_dec : RelDecision best_first :=
  fun a b =>
    decide (float8_le (Challenge.profit_percent b) (Challenge.profit_percent a)
            = true).

(** [get_challenge]: the row (status 200) or 'Challenge not found' (404). *)
Definition get_challenge (s : Store F) (user_id challenge_id : Z)
  : Challenge.t F + ApiError :=
  match find_challenge s challenge_id user_id with
  | None => inr ChallengeNotFound
  | Some challenge => inl challenge
  end.

(** [get_challenges], with [status] the query-string value. *)
Definition get_challenges (s : Store F) (user_id : Z) (status : option string)
  : list (Challenge.t F) :=
  let query :=
    filter (fun c => Challenge.user_id c = user_id)
           (map_to_list (challenges s)).*2 in
  let query :=
    match py_nonempty status with
    | Some status => filter (fun c => Challenge.status c = status) query
    | None => query
    end in
  merge_sort newest_challenge_first query.

(** [get_trades], with [challenge_id] and [status] the query-string values. *)
Definition get_trades (s : Store F) (user_id : Z)
    (challenge_id status : option string) : list (Trade.t F) + ApiError :=
  let query :=
    filter (fun t => Trade.user_id t = user_id) (map_to_list (trades s)).*2 in
  let by_status query :=
    match py_nonempty status with
    | Some status => filter (fun t => Trade.status t = status) query
    | None => query
    end in
  let newest_first query :=
    merge_sort newest_trade_first query in
  match py_nonempty challenge_id with
  | Some challenge_id =>
    match int_of_param challenge_id with
    | Some cid =>
      inl (newest_first
             (by_status (filter (fun t => Trade.challenge_id t = cid) query)))
    | None => inr ServerError
    end
  | None => inl (newest_first (by_status query))
  end.

(** [challenge.user.full_name or 'Anonymous'] *)
Definition trader_name (user_id : Z) : string :=
  match py_nonempty (full_name user_id) with
  | Some name => name
  | None => "Anonymous"
  end.

(** [get_leaderboard]: the active challenges by descending profit
    percentage, the first 100 of them, ranked from 1. *)
Definition get_leaderboard (s : Store F) : list (LeaderboardEntry.t F) :=
  let challenges :=
    take 100
      (merge_sort best_first
         (filter (fun c => Challenge.status c = "active")
                 (map_to_list (challenges s)).*2)) in
  imap
    (fun idx challenge =>
       LeaderboardEntry.mk (Z.of_nat idx + 1)
         (trader_name (Challenge.user_id challenge))
         (round2 (Challenge.profit_percent challenge))
         (Challenge.current_balance challenge)
         (Challenge.tier challenge))
    challenges.

End Queries.

(** ** Properties of the tables *)

Section Invariants.
Context {F : Type} {num : Num F} {uni : Unicode}.

(** The caller of a request: its JWT identity. *)
Definition request_user (r : Request F) : Z :=
  match r with
  | CreateChallenge u _ _ => u
  | ExecuteTrade u _ _ _ _ _ => u
  | CloseTrade u _ _ => u
  end.

(** The columns of a trade that are written when it is opened. *)
Definition same_position (t t' : Trade.t F) : Prop :=
  Trade.id t' = Trade.id t
  /\ Trade.challenge_id t' = Trade.challenge_id t
  /\ Trade.user_id t' = Trade.user_id t
  /\ Trade.symbol t' = Trade.symbol t
  /\ Trade.type t' = Trade.type t
  /\ Trade.quantity t' = Trade.quantity t
  /\ Trade.entry_price t' = Trade.entry_price t.

(** The columns of a challenge that are written when it is bought. *)
Definition same_terms (c c' : Challenge.t F) : Prop :=
  Challenge.id c' = Challenge.id c
  /\ Challenge.user_id c' = Challenge.user_id c
  /\ Challenge.tier c' = Challenge.tier c
  /\ Challenge.initial_balance c' = Challenge.initial_balance c
  /\ Challenge.daily_start_balance c' = Challenge.daily_start_balance c
  /\ Challenge.payment_method c' = Challenge.payment_method c
  /\ Challenge.amount_paid c' = Challenge.amount_paid c.

(** A status among the three, and a reason whenever it is ['failed']. *)
Definition status_well_formed (c : Challenge.t F) : Prop :=
  (Challenge.status c = "active" \/ Challenge.status c = "passed"
   \/ Challenge.status c = "failed")
  /\ (Challenge.status c = "failed" -> is_Some (Challenge.fail_reason c)).

(** Every trade refers to a challenge of the table, owned by the owner of
    the trade. *)
Definition referential_integrity (s : Store F) : Prop :=
  forall tid t,
    trades s !! tid = Some t ->
    exists c,
      challenges s !! Trade.challenge_id t = Some c
      /\ Challenge.user_id c = Trade.user_id t.

(** A challenge as [create_challenge] funds it: a configured tier, the
    initial balance of the tier, and a day that starts at that balance. *)
Definition as_purchased (c : Challenge.t F) : Prop :=
  exists config,
    TIER_CONFIG !! Challenge.tier c = Some config
    /\ Challenge.initial_balance c
       = of_int (TierConfig.initial_balance config)
    /\ Challenge.daily_start_balance c = Challenge.initial_balance c.

(** The stores the handlers keep to: referential integrity, and challenges
    as purchased with a well-formed status. *)
Definition sound (s : Store F) : Prop :=
  referential_integrity s
  /\ forall cid c,
       challenges s !! cid = Some c -> as_purchased c /\ status_well_formed c.

(** What a trade has added to the balance of challenge [cid]: its recorded
    profit or loss once it is closed, nothing before. *)
Definition contribution (cid : Z) (t : Trade.t F) : F :=
  if bool_decide (Trade.challenge_id t = cid)
     && (Trade.status t =? "closed")%string
  then default (of_int 0) (Trade.profit_loss t)
  else of_int 0.

(** The sum of the contributions of the trades of the table. *)
Definition realized (s : Store F) (cid : Z) : F :=
  foldr (fun t acc => (contribution cid t + acc)%num) (of_int 0)
        (map_to_list (trades s)).*2.

(** Every current balance is the initial balance plus what the closed trades
    of the challenge have realised. *)
Definition ledger_balanced (s : Store F) : Prop :=
  forall cid c,
    challenges s !! cid = Some c ->
    (Challenge.current_balance c
     == Challenge.initial_balance c + realized s cid)%num = true.

(** What a response credits to challenge [cid]: the profit or loss of the
    trade it closed, when that trade belongs to the challenge. *)
Definition credit (cid : Z) (response : Response F) : list F :=
  match response with
  | TradeClosed t _ =>
    if bool_decide (Trade.challenge_id t = cid) then
      match Trade.profit_loss t with
      | Some profit_loss => [profit_loss]
      | None => []
      end
    else []
  | _ => []
  end.

(** The amounts a sequence of requests credits to challenge [cid], in the
    order of the requests. *)
Fixpoint credited (s : Store F) (rs : list (Request F)) (cid : Z) : list F :=
  match rs with
  | [] => []
  | r :: rs =>
    credit cid (snd (handle s r)) ++ credited (fst (handle s r)) rs cid
  end.

End Invariants.

(** ** Facts that hold for every arithmetic *)

Section EngineFacts.
Context {F : Type} {num : Num F} {uni : Unicode}.
Implicit Types (s : Store F) (c : Challenge.t F) (t : Trade.t F).
Implicit Types (config : TierConfig.t) (x : F).

(** The fields of a challenge that the three checks never write. *)
Definition same_account c c' : Prop :=
  Challenge.id c' = Challenge.id c
  /\ Challenge.user_id c' = Challenge.user_id c
  /\ Challenge.tier c' = Challenge.tier c
  /\ Challenge.initial_balance c' = Challenge.initial_balance c
  /\ Challenge.current_balance c' = Challenge.current_balance c
  /\ Challenge.highest_balance c' = Challenge.highest_balance c
  /\ Challenge.daily_start_balance c' = Challenge.daily_start_balance c
  /\ Challenge.profit_percent c' = Challenge.profit_percent c.

(** The three conditions of "Check challenge rules", as the source
    evaluates them on the challenge with its balance updated. *)
Definition daily_loss_hit config c : bool :=
  ((Challenge.daily_start_balance c - Challenge.current_balance c)
   >= (Challenge.daily_start_balance c
       * percent (TierConfig.max_daily_loss_percent config)))%num.

Definition total_loss_hit config c : bool :=
  ((Challenge.initial_balance c - Challenge.current_balance c)
   >= (Challenge.initial_balance c
       * percent (TierConfig.max_total_loss_percent config)))%num.

Definition profit_target_hit config c : bool :=
  (Challenge.profit_percent c
   >= of_int (TierConfig.profit_target_percent config))%num.

Definition daily_loss_reason config : string :=
  "Exceeded " ++ Py.str_int (TierConfig.max_daily_loss_percent config)
  ++ "% daily loss limit".

Definition total_loss_reason config : string :=
  "Exceeded " ++ Py.str_int (TierConfig.max_total_loss_percent config)
  ++ "% total loss limit".

Lemma same_account_refl c : same_account c c.
Proof. repeat split. Qed.

Lemma same_account_trans c1 c2 c3 :
  same_account c1 c2 -> same_account c2 c3 -> same_account c1 c3.
Proof. unfold same_account. intuition congruence. Qed.

Lemma check_daily_loss_account config c :
  same_account c (check_daily_loss config c).
Proof. unfold check_daily_loss. case_match; repeat split. Qed.

Lemma check_total_loss_account config c :
  same_account c (check_total_loss config c).
Proof. unfold check_total_loss. case_match; repeat split. Qed.

Lemma check_profit_target_account config c :
  same_account c (check_profit_target config c).
Proof. unfold check_profit_target. case_match; repeat split. Qed.

Lemma check_rules_account config c : same_account c (check_rules config c).
Proof.
  unfold check_rules.
  eapply same_account_trans; [apply check_daily_loss_account |].
  eapply same_account_trans; [apply check_total_loss_account |].
  apply check_profit_target_account.
Qed.

Lemma same_account_daily config c c' :
  same_account c c' -> daily_loss_hit config c' = daily_loss_hit config c.
Proof.
  unfold daily_loss_hit. intros (_ & _ & _ & _ & -> & _ & -> & _). reflexivity.
Qed.

Lemma same_account_total config c c' :
  same_account c c' -> total_loss_hit config c' = total_loss_hit config c.
Proof.
  unfold total_loss_hit. intros (_ & _ & _ & -> & -> & _). reflexivity.
Qed.

Lemma same_account_target config c c' :
  same_account c c' -> profit_target_hit config c' = profit_target_hit config c.
Proof.
  unfold profit_target_hit. intros (_ & _ & _ & _ & _ & _ & _ & ->).
  reflexivity.
Qed.

(** What each check leaves in [status] and [fail_reason]. *)
Lemma check_daily_loss_spec config c :
  check_daily_loss config c =
  if daily_loss_hit config c then
    Challenge.set_fail_reason (Some (daily_loss_reason config))
      (Challenge.set_status "failed" c)
  else c.
Proof. reflexivity. Qed.

Lemma check_total_loss_spec config c :
  check_total_loss config c =
  if total_loss_hit config c then
    Challenge.set_fail_reason (Some (total_loss_reason config))
      (Challenge.set_status "failed" c)
  else c.
Proof. reflexivity. Qed.

Lemma check_profit_target_spec config c :
  check_profit_target config c =
  if profit_target_hit config c then Challenge.set_status "passed" c else c.
Proof. reflexivity. Qed.

(** [status] and [fail_reason] after the three checks, by the conditions
    that hold on the updated balance. *)
Lemma check_rules_status config c :
  Challenge.status (check_rules config c) =
  if profit_target_hit config c then "passed"
  else if total_loss_hit config c then "failed"
  else if daily_loss_hit config c then "failed"
  else Challenge.status c.
Proof.
  unfold check_rules.
  rewrite check_profit_target_spec.
  rewrite (same_account_target config c)
    by (eapply same_account_trans;
        [apply check_daily_loss_account | apply check_total_loss_account]).
  destruct (profit_target_hit config c); [reflexivity |].
  rewrite check_total_loss_spec.
  rewrite (same_account_total config c) by apply check_daily_loss_account.
  destruct (total_loss_hit config c); [reflexivity |].
  rewrite check_daily_loss_spec.
  destruct (daily_loss_hit config c); reflexivity.
Qed.

Lemma check_rules_fail_reason config c :
  Challenge.fail_reason (check_rules config c) =
  if total_loss_hit config c then Some (total_loss_reason config)
  else if daily_loss_hit config c then Some (daily_loss_reason config)
  else Challenge.fail_reason c.
Proof.
  unfold check_rules.
  rewrite check_profit_target_spec.
  assert (forall c0, Challenge.fail_reason
            (if profit_target_hit config c0
             then Challenge.set_status "passed" c0 else c0)
          = Challenge.fail_reason c0) as ->
    by (intros c0; destruct (profit_target_hit config c0); reflexivity).
  rewrite check_total_loss_spec.
  rewrite (same_account_total config c) by apply check_daily_loss_account.
  destruct (total_loss_hit config c); [reflexivity |].
  rewrite check_daily_loss_spec.
  destruct (daily_loss_hit config c); reflexivity.
Qed.

(** *** Shape of the results of [close_trade] *)

(** A trade is closed only along the one path of the handler that reaches
    [db.session.commit()]. *)
Lemma close_trade_closed s u tid x s' t' c' :
  close_trade s u tid x = (s', TradeClosed t' c') ->
  exists t c c1 config,
    (x <= of_int 0)%num = false
    /\ find_trade s tid u = Some t
    /\ Trade.status t = "open"
    /\ challenges s !! Trade.challenge_id t = Some c
    /\ update_balance (profit_loss_of t x) c = Some c1
    /\ TIER_CONFIG !! Challenge.tier c1 = Some config
    /\ t' = Trade.close x (profit_loss_of t x) t
    /\ c' = check_rules config c1
    /\ s' = mkStore F (users s)
               (<[Trade.challenge_id t := c']> (challenges s))
               (<[tid := t']> (trades s)).
Proof.
  unfold close_trade. intros Hc.
  destruct (x <= of_int 0)%num eqn:Hx; [discriminate |].
  destruct (find_trade s tid u) as [t |] eqn:Ht; [| discriminate].
  destruct (Trade.status t =? "open")%string eqn:Hs; [| discriminate].
  apply String.eqb_eq in Hs. simpl in Hc.
  destruct (challenges s !! Trade.challenge_id t) as [c |] eqn:Hch;
    [| discriminate].
  destruct (update_balance (profit_loss_of t x) c) as [c1 |] eqn:Hu;
    [| discriminate].
  destruct (TIER_CONFIG !! Challenge.tier c1) as [config |] eqn:Hcfg;
    [| discriminate].
  injection Hc as <- <- <-.
  exists t, c, c1, config. repeat split; assumption.
Qed.

(** Conversely, the conditions of that path are enough for the trade to be
    closed. *)
Lemma close_trade_closes s u tid x t c c1 config :
  (x <= of_int 0)%num = false ->
  find_trade s tid u = Some t ->
  Trade.status t = "open" ->
  challenges s !! Trade.challenge_id t = Some c ->
  update_balance (profit_loss_of t x) c = Some c1 ->
  TIER_CONFIG !! Challenge.tier c1 = Some config ->
  close_trade s u tid x =
  (mkStore F (users s)
     (<[Trade.challenge_id t := check_rules config c1]> (challenges s))
     (<[tid := Trade.close x (profit_loss_of t x) t]> (trades s)),
   TradeClosed (Trade.close x (profit_loss_of t x) t) (check_rules config c1)).
Proof.
  intros Hx Ht Hs Hch Hu Hcfg. unfold close_trade.
  rewrite Hx, Ht, Hs. simpl. rewrite Hch, Hu, Hcfg. reflexivity.
Qed.

(** Every error response of [close_trade] hands the store back. *)
Lemma close_trade_error s u tid x s' e :
  close_trade s u tid x = (s', Error e) -> s' = s.
Proof.
  unfold close_trade. intros Hc.
  repeat (case_match; try discriminate); congruence.
Qed.

Lemma close_trade_response s u tid x :
  (exists e, close_trade s u tid x = (s, Error e))
  \/ (exists s' t' c', close_trade s u tid x = (s', TradeClosed t' c')).
Proof.
  unfold close_trade.
  repeat case_match; eauto.
Qed.

(** The balance fields after "Update challenge balance". *)
Lemma update_balance_spec pl c c1 :
  update_balance pl c = Some c1 ->
  (Challenge.initial_balance c == of_int 0)%num = false
  /\ Challenge.current_balance c1 = (Challenge.current_balance c + pl)%num
  /\ Challenge.highest_balance c1
     = py_max (Challenge.highest_balance c) (Challenge.current_balance c + pl)%num
  /\ Challenge.profit_percent c1
     = (num_div (Challenge.current_balance c + pl - Challenge.initial_balance c)
                (Challenge.initial_balance c) * of_int 100)%num
  /\ Challenge.initial_balance c1 = Challenge.initial_balance c
  /\ Challenge.daily_start_balance c1 = Challenge.daily_start_balance c
  /\ Challenge.tier c1 = Challenge.tier c
  /\ Challenge.status c1 = Challenge.status c
  /\ Challenge.fail_reason c1 = Challenge.fail_reason c.
Proof.
  unfold update_balance, py_div. simpl.
  destruct (Challenge.initial_balance c == of_int 0)%num eqn:Hz;
    [discriminate |].
  intros [= <-]. repeat split.
Qed.

Lemma update_balance_defined pl c :
  (Challenge.initial_balance c == of_int 0)%num = false ->
  exists c1, update_balance pl c = Some c1.
Proof.
  intros Hz. unfold update_balance, py_div. simpl. rewrite Hz. eauto.
Qed.

(** What a closed trade leaves in the challenge: the checks ran on the
    challenge with its balance updated, under the configuration of its
    tier, and the result is the row stored. *)
Lemma close_trade_challenge s u tid x s' t' c' config :
  close_trade s u tid x = (s', TradeClosed t' c') ->
  TIER_CONFIG !! Challenge.tier c' = Some config ->
  exists t c c1,
    find_trade s tid u = Some t
    /\ challenges s !! Trade.challenge_id t = Some c
    /\ update_balance (profit_loss_of t x) c = Some c1
    /\ c' = check_rules config c1
    /\ same_account c1 c'
    /\ Trade.challenge_id t' = Trade.challenge_id t
    /\ challenges s' !! Trade.challenge_id t = Some c'.
Proof.
  intros Hc Hcfg.
  destruct (close_trade_closed _ _ _ _ _ _ _ Hc)
    as (t & c & c1 & config0 & _ & Ht & _ & Hch & Hu & Hcfg0 & -> & -> & ->).
  pose proof (check_rules_account config0 c1) as Hacc.
  assert (config0 = config) as ->.
  { destruct Hacc as (_ & _ & Htier & _). rewrite Htier in Hcfg. congruence. }
  exists t, c, c1. repeat split; try assumption; try apply Hacc.
  simpl. apply lookup_insert_eq.
Qed.

(** C1. The profit-target check of [close_trade] runs last and without a
    guard: whenever the profit percentage computed by a settlement reaches
    the target of the tier, the challenge returned and stored has status
    ['passed'], whatever the daily-loss and total-loss checks of the same
    evaluation did to the status before. *)
Theorem profit_target_checked_last s u tid x s' t' c' config :
  close_trade s u tid x = (s', TradeClosed t' c') ->
  TIER_CONFIG !! Challenge.tier c' = Some config ->
  profit_target_hit config c' = true ->
  Challenge.status c' = "passed"
  /\ challenges s' !! Trade.challenge_id t' = Some c'
  /\ forall c0,
       profit_target_hit config c0 = true ->
       Challenge.status
         (check_profit_target config
            (check_total_loss config (check_daily_loss config c0)))
       = "passed".
Proof.
  intros Hc Hcfg Hp.
  destruct (close_trade_challenge _ _ _ _ _ _ _ _ Hc Hcfg)
    as (t & c & c1 & _ & _ & _ & -> & Hacc & Hid & Hst).
  rewrite (same_account_target config c1) in Hp by exact Hacc.
  split; [| split].
  - rewrite check_rules_status, Hp. reflexivity.
  - rewrite Hid. exact Hst.
  - intros c0 H0.
    change (Challenge.status (check_rules config c0) = "passed").
    rewrite check_rules_status, H0. reflexivity.
Qed.

(** C10. The profit-target step writes [status] and nothing else.  So a
    settlement in which a loss check fired (setting ['failed'] and a reason)
    and the profit target was reached ends with status ['passed'] and with
    the reason of the loss check still in [fail_reason]. *)
Theorem profit_target_keeps_fail_reason s u tid x s' t' c' config :
  close_trade s u tid x = (s', TradeClosed t' c') ->
  TIER_CONFIG !! Challenge.tier c' = Some config ->
  daily_loss_hit config c' || total_loss_hit config c' = true ->
  profit_target_hit config c' = true ->
  Challenge.status c' = "passed"
  /\ Challenge.fail_reason c'
     = Some (if total_loss_hit config c' then total_loss_reason config
             else daily_loss_reason config)
  /\ forall c0,
       Challenge.fail_reason (check_profit_target config c0)
       = Challenge.fail_reason c0.
Proof.
  intros Hc Hcfg Hl Hp.
  destruct (close_trade_challenge _ _ _ _ _ _ _ _ Hc Hcfg)
    as (t & c & c1 & _ & _ & _ & -> & Hacc & _ & _).
  rewrite (same_account_target config c1) in Hp by exact Hacc.
  rewrite (same_account_total config c1) in * by exact Hacc.
  rewrite (same_account_daily config c1) in Hl by exact Hacc.
  split; [| split].
  - rewrite check_rules_status, Hp. reflexivity.
  - rewrite check_rules_fail_reason.
    destruct (total_loss_hit config c1); [reflexivity |].
    rewrite orb_false_r in Hl. rewrite Hl. reflexivity.
  - intros c0. rewrite check_profit_target_spec.
    destruct (profit_target_hit config c0); reflexivity.
Qed.

(** *** Lookups by id and owner *)

Lemma find_trade_Some s tid u t :
  find_trade s tid u = Some t <->
  trades s !! tid = Some t /\ Trade.user_id t = u.
Proof.
  unfold find_trade. destruct (trades s !! tid) as [t0 |].
  - destruct (Z.eqb_spec (Trade.user_id t0) u) as [Hu | Hu]; split.
    + intros [= ->]. split; [reflexivity | exact Hu].
    + intros [[= ->] _]. reflexivity.
    + discriminate.
    + intros [[= ->] Hu']. contradiction.
  - split; [discriminate | intros [? _]; discriminate].
Qed.

Lemma find_challenge_Some s cid u c :
  find_challenge s cid u = Some c <->
  challenges s !! cid = Some c /\ Challenge.user_id c = u.
Proof.
  unfold find_challenge.
  destruct (challenges s !! cid) as [c0 |].
  - destruct (Z.eqb_spec (Challenge.user_id c0) u) as [Hu | Hu]; split.
    + intros [= ->]. split; [reflexivity | exact Hu].
    + intros [[= ->] _]. reflexivity.
    + discriminate.
    + intros [[= ->] Hu']. contradiction.
  - split; [discriminate | intros [? _]; discriminate].
Qed.

(** A trade that is not open cannot be closed. *)
Lemma close_trade_not_open s u tid x t :
  (x <= of_int 0)%num = false ->
  find_trade s tid u = Some t ->
  Trade.status t <> "open" ->
  close_trade s u tid x = (s, Error TradeAlreadyClosed).
Proof.
  intros Hx Ht Hs. unfold close_trade. rewrite Hx, Ht.
  apply String.eqb_neq in Hs. rewrite Hs. reflexivity.
Qed.

(** After a trade is closed, its row is found closed under the same id and
    owner. *)
Lemma close_trade_leaves_closed s u tid x s' t' c' :
  close_trade s u tid x = (s', TradeClosed t' c') ->
  find_trade s' tid u = Some t' /\ Trade.status t' = "closed".
Proof.
  intros Hc.
  destruct (close_trade_closed _ _ _ _ _ _ _ Hc)
    as (t & c & c1 & config & _ & Ht & _ & _ & _ & _ & -> & _ & ->).
  apply find_trade_Some in Ht as [_ Hu].
  split; [| reflexivity].
  apply find_trade_Some. simpl. split; [apply lookup_insert_eq | exact Hu].
Qed.

(** C8. [close_trade] answers 'Invalid exit price' when [exit_price <= 0];
    otherwise it answers 'Trade is already closed' for a trade whose status
    is not ['open'].  Once a trade has been closed, closing the same trade
    id again is answered 'Trade is already closed' (with the same or any
    other positive exit price; 'Invalid exit price' for a non-positive one)
    and leaves the whole store, hence the trade and its challenge, as the
    first call left them.  Every error response hands the store back
    unchanged. *)
Theorem close_trade_errors s u tid x :
  ((x <= of_int 0)%num = true ->
   close_trade s u tid x = (s, Error InvalidExitPrice))
  /\ (forall t,
        (x <= of_int 0)%num = false ->
        find_trade s tid u = Some t ->
        Trade.status t <> "open" ->
        close_trade s u tid x = (s, Error TradeAlreadyClosed))
  /\ (forall s' t' c',
        close_trade s u tid x = (s', TradeClosed t' c') ->
        close_trade s' u tid x = (s', Error TradeAlreadyClosed)
        /\ forall x2,
             close_trade s' u tid x2 =
             (s', Error (if (x2 <= of_int 0)%num then InvalidExitPrice
                         else TradeAlreadyClosed)))
  /\ (forall s' e, close_trade s u tid x = (s', Error e) -> s' = s).
Proof.
  split; [| split; [| split]]; [| | | apply close_trade_error].
  - intros Hx. unfold close_trade. rewrite Hx. reflexivity.
  - intros t. apply close_trade_not_open.
  - intros s' t' c' Hc.
    destruct (close_trade_leaves_closed _ _ _ _ _ _ _ Hc) as [Ht' Hs'].
    assert (Trade.status t' <> "open") as Hne by (rewrite Hs'; discriminate).
    split.
    + destruct (close_trade_closed _ _ _ _ _ _ _ Hc) as (? & ? & ? & ? & Hx & _).
      eapply close_trade_not_open; eassumption.
    + intros x2. destruct (x2 <= of_int 0)%num eqn:Hx2.
      * unfold close_trade. rewrite Hx2. reflexivity.
      * eapply close_trade_not_open; eassumption.
Qed.

(** *** [execute_trade] *)

Lemma execute_trade_error s u cid sym ty q p s' e :
  execute_trade s u cid sym ty q p = (s', Error e) -> s' = s.
Proof.
  unfold execute_trade. intros He.
  repeat (case_match; try discriminate); congruence.
Qed.

Lemma execute_trade_challenges s u cid sym ty q p :
  challenges (fst (execute_trade s u cid sym ty q p)) = challenges s.
Proof. unfold execute_trade. repeat case_match; reflexivity. Qed.

(** C9. [execute_trade] rejects, in this order: a side that is neither
    'buy' nor 'sell' and a non-positive quantity or entry price (invalid
    input); a challenge whose status is not ['active'] ('Challenge is not
    active'); a trade value [quantity * entry_price] greater than the
    current balance ('Insufficient balance').  Every error response hands
    the store back unchanged, so no trade row is created, and no response at
    all changes a challenge. *)
Theorem execute_trade_rejections s u cid sym ty q p :
  (Py.in_list (Py.lower ty) ["buy"; "sell"] = false ->
   execute_trade s u cid sym ty q p = (s, Error InvalidTradeType))
  /\ (Py.in_list (Py.lower ty) ["buy"; "sell"] = true ->
      (q <= of_int 0)%num || (p <= of_int 0)%num = true ->
      execute_trade s u cid sym ty q p = (s, Error InvalidQuantityOrPrice))
  /\ (forall c,
        Py.in_list (Py.lower ty) ["buy"; "sell"] = true ->
        (q <= of_int 0)%num || (p <= of_int 0)%num = false ->
        find_challenge s cid u = Some c ->
        Challenge.status c <> "active" ->
        execute_trade s u cid sym ty q p = (s, Error ChallengeNotActive))
  /\ (forall c,
        Py.in_list (Py.lower ty) ["buy"; "sell"] = true ->
        (q <= of_int 0)%num || (p <= of_int 0)%num = false ->
        find_challenge s cid u = Some c ->
        Challenge.status c = "active" ->
        (q * p > Challenge.current_balance c)%num = true ->
        execute_trade s u cid sym ty q p = (s, Error InsufficientBalance))
  /\ (forall s' e, execute_trade s u cid sym ty q p = (s', Error e) -> s' = s)
  /\ challenges (fst (execute_trade s u cid sym ty q p)) = challenges s.
Proof.
  repeat split.
  - intros Hty. unfold execute_trade. rewrite Hty. reflexivity.
  - intros Hty Hqp. unfold execute_trade. rewrite Hty, Hqp. reflexivity.
  - intros c Hty Hqp Hc Hs. unfold execute_trade. rewrite Hty, Hqp, Hc.
    apply String.eqb_neq in Hs. rewrite Hs. reflexivity.
  - intros c Hty Hqp Hc Hs Hv. unfold execute_trade. rewrite Hty, Hqp, Hc.
    apply String.eqb_eq in Hs. rewrite Hs, Hv. reflexivity.
  - apply execute_trade_error.
  - apply execute_trade_challenges.
Qed.

(** *** Settlement of any challenge *)

(** [close_trade] reads the status of the trade and never the status of
    the challenge: an open trade whose challenge has a non-zero initial
    balance and a configured tier is settled. *)
Lemma close_trade_settles s u tid x t c config :
  (x <= of_int 0)%num = false ->
  find_trade s tid u = Some t ->
  Trade.status t = "open" ->
  challenges s !! Trade.challenge_id t = Some c ->
  (Challenge.initial_balance c == of_int 0)%num = false ->
  TIER_CONFIG !! Challenge.tier c = Some config ->
  exists s' t' c' c1,
    close_trade s u tid x = (s', TradeClosed t' c')
    /\ update_balance (profit_loss_of t x) c = Some c1
    /\ c' = check_rules config c1
    /\ t' = Trade.close x (profit_loss_of t x) t
    /\ challenges s' !! Trade.challenge_id t = Some c'
    /\ trades s' !! tid = Some t'.
Proof.
  intros Hx Ht Hs Hch Hz Hcfg.
  destruct (update_balance_defined (profit_loss_of t x) c Hz) as [c1 Hu].
  pose proof (update_balance_spec _ _ _ Hu) as (_ & _ & _ & _ & _ & _ & Htier & _).
  rewrite <- Htier in Hcfg.
  eexists _, _, _, c1. split.
  - eapply close_trade_closes; eassumption.
  - simpl. repeat split; try assumption; apply lookup_insert_eq.
Qed.

(** C2 (amended). A challenge is settled whatever its status, ['passed'] and
    ['failed'] included: closing a still-open trade of the challenge adds
    the profit or loss to [current_balance], recomputes [highest_balance]
    and [profit_percent], and runs the three checks again.  The status
    becomes ['passed'] when the profit target is reached, otherwise
    ['failed'] when a loss limit is reached, and otherwise keeps its value;
    the fail reason becomes the total-loss reason when the total-loss limit
    is reached, otherwise the daily-loss reason when the daily-loss limit is
    reached, and otherwise keeps its value. *)
Theorem settlement_ignores_status s u tid x t c config :
  (x <= of_int 0)%num = false ->
  find_trade s tid u = Some t ->
  Trade.status t = "open" ->
  challenges s !! Trade.challenge_id t = Some c ->
  (Challenge.initial_balance c == of_int 0)%num = false ->
  TIER_CONFIG !! Challenge.tier c = Some config ->
  exists s' t' c',
    close_trade s u tid x = (s', TradeClosed t' c')
    /\ challenges s' !! Trade.challenge_id t = Some c'
    /\ Challenge.current_balance c'
       = (Challenge.current_balance c + profit_loss_of t x)%num
    /\ Challenge.highest_balance c'
       = py_max (Challenge.highest_balance c) (Challenge.current_balance c')
    /\ Challenge.profit_percent c'
       = (num_div (Challenge.current_balance c' - Challenge.initial_balance c)
                  (Challenge.initial_balance c) * of_int 100)%num
    /\ Challenge.status c'
       = (if profit_target_hit config c' then "passed"
          else if total_loss_hit config c' then "failed"
          else if daily_loss_hit config c' then "failed"
          else Challenge.status c)
    /\ Challenge.fail_reason c'
       = (if total_loss_hit config c' then Some (total_loss_reason config)
          else if daily_loss_hit config c' then Some (daily_loss_reason config)
          else Challenge.fail_reason c).
Proof.
  intros Hx Ht Hs Hch Hz Hcfg.
  destruct (close_trade_settles _ _ _ _ _ _ _ Hx Ht Hs Hch Hz Hcfg)
    as (s' & t' & c' & c1 & Hc & Hu & -> & _ & Hst & _).
  exists s', t', (check_rules config c1).
  pose proof (check_rules_account config c1) as Hacc.
  rewrite (same_account_target config c1) by exact Hacc.
  rewrite (same_account_total config c1) by exact Hacc.
  rewrite (same_account_daily config c1) by exact Hacc.
  destruct Hacc as (_ & _ & _ & _ & -> & -> & _ & ->).
  pose proof (update_balance_spec _ _ _ Hu)
    as (_ & Hcur & Hhigh & Hpp & _ & _ & _ & Hstatus & Hreason).
  rewrite <- Hstatus, <- Hreason.
  repeat split; try assumption.
  - rewrite Hhigh, Hcur. reflexivity.
  - rewrite Hpp, Hcur. reflexivity.
  - apply check_rules_status.
  - apply check_rules_fail_reason.
Qed.

(** *** [create_challenge] *)

(** The configured tiers are 'starter', 'pro' and 'elite'. *)
Lemma TIER_CONFIG_lookup name config :
  TIER_CONFIG !! name = Some config <->
  (name = "starter" /\ config = TierConfig.mk 10000 99 5 10 10)
  \/ (name = "pro" /\ config = TierConfig.mk 50000 299 5 10 10)
  \/ (name = "elite" /\ config = TierConfig.mk 100000 599 5 10 10).
Proof.
  unfold TIER_CONFIG.
  rewrite !lookup_insert_Some, lookup_singleton_Some.
  split.
  - intros [[<- <-] | [_ [[<- <-] | [_ [<- <-]]]]]; auto.
  - intros [[-> ->] | [[-> ->] | [-> ->]]].
    + left. split; reflexivity.
    + right. split; [discriminate |]. left. split; reflexivity.
    + right. split; [discriminate |]. right. split; [discriminate |].
      split; reflexivity.
Qed.

Lemma create_challenge_unknown s u tier pm :
  TIER_CONFIG !! Py.lower tier = None ->
  create_challenge s u tier pm = (s, Error InvalidTier).
Proof. intros Hn. unfold create_challenge. rewrite Hn. reflexivity. Qed.

Lemma create_challenge_created s u tier pm s' c :
  create_challenge s u tier pm = (s', ChallengeCreated c) ->
  exists config stored,
    TIER_CONFIG !! Py.lower tier = Some config
    /\ u ∈ users s
    /\ Db.nullable_varchar 20 pm = Some stored
    /\ c = Challenge.mk (fresh (dom (challenges s))) u (Py.lower tier)
             (of_int (TierConfig.initial_balance config))
             (of_int (TierConfig.initial_balance config))
             (of_int (TierConfig.initial_balance config))
             (of_int (TierConfig.initial_balance config))
             "active" None (of_int 0) stored
             (Some (of_int (TierConfig.price config)))
    /\ s' = mkStore F (users s)
               (<[fresh (dom (challenges s)) := c]> (challenges s)) (trades s).
Proof.
  unfold create_challenge. intros Hc.
  destruct (TIER_CONFIG !! Py.lower tier) as [config |]; [| discriminate].
  destruct (bool_decide (u ∈ users s)) eqn:Hu; [| discriminate].
  destruct (Db.nullable_varchar 20 pm) as [stored |]; [| discriminate].
  apply bool_decide_eq_true in Hu.
  injection Hc as <- <-. exists config, stored. repeat split. exact Hu.
Qed.

Lemma create_challenge_creates s u tier pm config stored :
  TIER_CONFIG !! Py.lower tier = Some config ->
  u ∈ users s ->
  Db.nullable_varchar 20 pm = Some stored ->
  exists s' c, create_challenge s u tier pm = (s', ChallengeCreated c).
Proof.
  intros Hcfg Hu Hpm. unfold create_challenge. rewrite Hcfg, Hpm.
  rewrite bool_decide_eq_true_2 by exact Hu. eauto.
Qed.

(** A payment method the column rejects: the commit fails, the handler
    answers 500 and nothing is stored. *)
Lemma create_challenge_rejected s u tier pm config :
  TIER_CONFIG !! Py.lower tier = Some config ->
  Db.nullable_varchar 20 pm = None ->
  create_challenge s u tier pm = (s, Error ServerError).
Proof.
  intros Hcfg Hpm. unfold create_challenge. rewrite Hcfg, Hpm.
  destruct (bool_decide (u ∈ users s)); reflexivity.
Qed.

Lemma fresh_challenge_id s : challenges s !! fresh (dom (challenges s)) = None.
Proof. apply not_elem_of_dom, is_fresh. Qed.

(** C7 (amended). The tier of the request is matched after lower-casing.
    When the lower-cased name is a configured tier, the caller is a
    registered user and the payment method is one the column
    [payment_method] takes (none, or a string of at most 20 characters; the
    database cuts spaces in excess), [create_challenge] stores and returns a
    new challenge whose current, highest and daily-start balances all equal
    the initial balance of the tier, with status ['active'].  When the
    column refuses the payment method, the handler answers 500 and the store
    is unchanged.  When the lower-cased name is not configured, it answers
    'Invalid tier' and the store is unchanged. *)
Theorem create_challenge_postcondition s u tier pm :
  (forall config stored,
     TIER_CONFIG !! Py.lower tier = Some config ->
     u ∈ users s ->
     Db.nullable_varchar 20 pm = Some stored ->
     exists s' c,
       create_challenge s u tier pm = (s', ChallengeCreated c)
       /\ Challenge.initial_balance c
          = of_int (TierConfig.initial_balance config)
       /\ Challenge.current_balance c = Challenge.initial_balance c
       /\ Challenge.highest_balance c = Challenge.initial_balance c
       /\ Challenge.daily_start_balance c = Challenge.initial_balance c
       /\ Challenge.status c = "active"
       /\ Challenge.tier c = Py.lower tier
       /\ Challenge.payment_method c = stored
       /\ challenges s !! Challenge.id c = None
       /\ challenges s' !! Challenge.id c = Some c)
  /\ (forall config,
        TIER_CONFIG !! Py.lower tier = Some config ->
        Db.nullable_varchar 20 pm = None ->
        create_challenge s u tier pm = (s, Error ServerError))
  /\ (TIER_CONFIG !! Py.lower tier = None ->
      create_challenge s u tier pm = (s, Error InvalidTier))
  /\ (forall name,
        is_Some (TIER_CONFIG !! name) <->
        name = "starter" \/ name = "pro" \/ name = "elite").
Proof.
  split; [| split; [| split]].
  - intros config stored Hcfg Hu Hpm.
    destruct (create_challenge_creates s u tier pm config stored Hcfg Hu Hpm)
      as (s' & c & Hc).
    exists s', c. split; [exact Hc |].
    destruct (create_challenge_created _ _ _ _ _ _ Hc)
      as (config0 & stored0 & Hcfg0 & _ & Hpm0 & -> & ->).
    assert (config0 = config) as -> by congruence.
    assert (stored0 = stored) as -> by congruence.
    simpl. repeat split.
    + apply fresh_challenge_id.
    + apply lookup_insert_eq.
  - intros config. apply create_challenge_rejected.
  - apply create_challenge_unknown.
  - intros name. split.
    + intros [config Hcfg]. apply TIER_CONFIG_lookup in Hcfg.
      destruct Hcfg as [[-> _] | [[-> _] | [-> _]]]; auto.
    + intros [-> | [-> | ->]]; eexists; apply TIER_CONFIG_lookup; eauto.
Qed.

End EngineFacts.

(** ** Facts of exact arithmetic *)

Section ExactArithmetic.
Context {uni : Unicode}.
Implicit Types (s : Store Q) (c : Challenge.t Q) (t : Trade.t Q).
Implicit Types (config : TierConfig.t) (x : Q).

Lemma Q_leb (a b : Q) : (a <= b)%num = true <-> (a <= b)%Q.
Proof. apply Qle_bool_iff. Qed.

Lemma Q_leb_false (a b : Q) : (a <= b)%num = false <-> (b < a)%Q.
Proof.
  simpl. rewrite <- not_true_iff_false, Qle_bool_iff. split.
  - apply Qnot_le_lt.
  - apply Qlt_not_le.
Qed.

Lemma Q_ltb (a b : Q) : (a < b)%num = true <-> (a < b)%Q.
Proof. simpl. rewrite negb_true_iff. apply Q_leb_false. Qed.

Lemma Q_eqb_false (a b : Q) : (a == b)%num = false <-> ~ (a == b)%Q.
Proof.
  simpl. rewrite <- not_true_iff_false, Qeq_bool_iff. reflexivity.
Qed.

(** With a positive initial balance and the percentages of [TIER_CONFIG],
    the total-loss limit and the profit target are never reached by the
    same balance. *)
Lemma total_loss_excludes_target config name c c1 pl :
  TIER_CONFIG !! name = Some config ->
  update_balance pl c = Some c1 ->
  (0 < Challenge.initial_balance c)%Q ->
  total_loss_hit config c1 = true ->
  profit_target_hit config c1 = false.
Proof.
  intros Hcfg Hu Hpos Htot.
  assert (TierConfig.max_total_loss_percent config = 10
          /\ TierConfig.profit_target_percent config = 10) as [Hmt Hpt].
  { apply TIER_CONFIG_lookup in Hcfg.
    destruct Hcfg as [[_ ->] | [[_ ->] | [_ ->]]]; split; reflexivity. }
  destruct (update_balance_spec _ _ _ Hu)
    as (_ & Hcur & _ & Hpp & Hinit & _).
  unfold total_loss_hit in Htot. unfold profit_target_hit.
  rewrite Hmt, Hinit, Hcur in Htot. rewrite Hpt, Hpp.
  apply Q_leb in Htot. apply Q_leb_false.
  apply Qnot_le_lt. intros Hp. simpl in Htot, Hp.
  set (i := Challenge.initial_balance c) in *.
  set (b := (Challenge.current_balance c + pl)%Q) in *.
  assert (Hd : ((b - i) / i * i == b - i)%Q) by (field; lra).
  set (d := ((b - i) / i)%Q) in *.
  change (inject_Z 10 / inject_Z 100)%Q with (10 # 100)%Q in Htot.
  change (inject_Z 10) with 10%Q in Hp.
  change (inject_Z 100) with 100%Q in Hp.
  assert (0 <= (d - (1 # 10)) * i)%Q by (apply Qmult_le_0_compat; lra).
  lra.
Qed.

(** *** The daily-loss boundary *)

Lemma daily_loss_boundary_exact s u tid x t c :
  (x <= of_int 0)%num = false ->
  find_trade s tid u = Some t ->
  Trade.status t = "open" ->
  challenges s !! Trade.challenge_id t = Some c ->
  Challenge.tier c = "starter" ->
  (Challenge.initial_balance c == 10000)%Q ->
  (Challenge.daily_start_balance c == 10000)%Q ->
  (Challenge.current_balance c == 10000)%Q ->
  (profit_loss_of t x == -500)%Q ->
  exists s' t' c',
    close_trade s u tid x = (s', TradeClosed t' c')
    /\ challenges s' !! Trade.challenge_id t = Some c'
    /\ Challenge.status c' = "failed"
    /\ Challenge.fail_reason c' = Some "Exceeded 5% daily loss limit".
Proof.
  intros Hx Ht Hs Hch Htier Hi Hd Hcur Hpl.
  assert (Hcfg : TIER_CONFIG !! Challenge.tier c
                 = Some (TierConfig.mk 10000 99 5 10 10))
    by (rewrite Htier; reflexivity).
  assert (Hz : (Challenge.initial_balance c == of_int 0)%num = false).
  { apply Q_eqb_false. rewrite Hi. discriminate. }
  destruct (close_trade_settles _ _ _ _ _ _ _ Hx Ht Hs Hch Hz Hcfg)
    as (s' & t' & c' & c1 & Hc & Hu & -> & _ & Hst & _).
  exists s', t', (check_rules (TierConfig.mk 10000 99 5 10 10) c1).
  destruct (update_balance_spec _ _ _ Hu)
    as (_ & Hc1 & _ & Hpp & Hi1 & Hd1 & _).
  assert (Hp : profit_target_hit (TierConfig.mk 10000 99 5 10 10) c1 = false).
  { unfold profit_target_hit. rewrite Hpp. apply Q_leb_false. simpl.
    rewrite Hcur, Hpl, Hi. reflexivity. }
  assert (Htot : total_loss_hit (TierConfig.mk 10000 99 5 10 10) c1 = false).
  { unfold total_loss_hit. rewrite Hi1, Hc1. apply Q_leb_false. simpl.
    rewrite Hcur, Hpl, Hi. reflexivity. }
  assert (Hday : daily_loss_hit (TierConfig.mk 10000 99 5 10 10) c1 = true).
  { unfold daily_loss_hit. rewrite Hd1, Hc1. apply Q_leb. simpl.
    rewrite Hcur, Hpl, Hd. discriminate. }
  repeat split; try assumption.
  - rewrite check_rules_status, Hp, Htot, Hday. reflexivity.
  - rewrite check_rules_fail_reason, Htot, Hday. reflexivity.
Qed.

End ExactArithmetic.

(** ** The order of the balances in any ordered arithmetic *)

Section OrderFacts.
Context {F : Type} {num : Num F} {ord : NumOrder F}.
Context {uni : Unicode}.

Lemma py_max_not_below_l (a b : F) : (py_max a b < a)%num = false.
Proof.
  unfold py_max. destruct (b > a)%num eqn:Hgt.
  - apply num_ltb_asym, Hgt.
  - apply num_ltb_irrefl.
Qed.

Lemma py_max_not_below_r (a b : F) : (py_max a b < b)%num = false.
Proof.
  unfold py_max. destruct (b > a)%num eqn:Hgt.
  - apply num_ltb_irrefl.
  - exact Hgt.
Qed.

(** X1. After a settlement the highest balance of the challenge is not
    below the highest balance it had, and not below its current balance.  In
    this form the order of the balances holds in binary64 too, whatever the
    values. *)
Theorem settlement_keeps_order (s : Store F) u tid (x : F) s' t' c' :
  close_trade s u tid x = (s', TradeClosed t' c') ->
  exists c,
    challenges s !! Trade.challenge_id t' = Some c
    /\ challenges s' !! Trade.challenge_id t' = Some c'
    /\ (Challenge.highest_balance c' < Challenge.highest_balance c)%num = false
    /\ (Challenge.highest_balance c' < Challenge.current_balance c')%num
       = false.
Proof.
  intros Hc.
  destruct (close_trade_closed _ _ _ _ _ _ _ Hc)
    as (t & c & c1 & config & _ & _ & _ & Hch & Hu & _ & -> & -> & ->).
  exists c. simpl. split; [exact Hch |]. split; [apply lookup_insert_eq |].
  destruct (check_rules_account config c1) as (_ & _ & _ & _ & -> & -> & _).
  destruct (update_balance_spec _ _ _ Hu) as (_ & -> & -> & _).
  split; [apply py_max_not_below_l | apply py_max_not_below_r].
Qed.

End OrderFacts.

#[export] Instance Q_NumOrder : NumOrder Q.
Proof.
  split.
  - intros a. simpl. apply negb_false_iff, Qle_bool_iff, Qle_refl.
  - intros a b Hlt. apply Q_ltb in Hlt. simpl.
    apply negb_false_iff, Qle_bool_iff, Qlt_le_weak, Hlt.
Qed.

(** The comparison of binary64 values, through its specification
    [SFcompare]: swapping the arguments swaps the answer. *)
Lemma SFcompare_antisym (a b : spec_float) :
  SFcompare b a = option_map CompOpp (SFcompare a b).
Proof.
  destruct a as [sa | sa | | sa ma ea], b as [sb | sb | | sb mb eb];
    simpl; try reflexivity;
    try (destruct sa; reflexivity); try (destruct sb; reflexivity);
    try (destruct sa, sb; reflexivity).
  destruct sa, sb; simpl; try reflexivity.
  - rewrite (Z.compare_antisym ea eb).
    destruct (ea ?= eb)%Z; simpl; try reflexivity.
    change (Some (CompOpp (mb ?= ma)%positive)
            = Some (CompOpp (CompOpp (ma ?= mb)%positive))).
    rewrite (Pos.compare_antisym ma mb). reflexivity.
  - rewrite (Z.compare_antisym ea eb).
    destruct (ea ?= eb)%Z; simpl; try reflexivity.
    change (Some (mb ?= ma)%positive = Some (CompOpp (ma ?= mb)%positive)).
    rewrite (Pos.compare_antisym ma mb). reflexivity.
Qed.

Lemma SFltb_asym (a b : spec_float) : SFltb a b = true -> SFltb b a = false.
Proof.
  unfold SFltb. rewrite (SFcompare_antisym a b).
  destruct (SFcompare a b) as [[| |] |]; simpl; congruence.
Qed.

#[export] Instance binary64_NumOrder : NumOrder float.
Proof.
  assert (Hasym : forall a b : float,
             PrimFloat.ltb a b = true -> PrimFloat.ltb b a = false)
    by (intros a b; rewrite !FloatAxioms.ltb_spec; apply SFltb_asym).
  split.
  - intros a. simpl. destruct (PrimFloat.ltb a a) eqn:E; [| reflexivity].
    pose proof (Hasym a a E). congruence.
  - exact Hasym.
Qed.

(** ** The comparisons of binary64

    Facts of [SFcompare], the specification of the comparisons of
    [PrimFloat]: on the values that are numbers (everything but NaN) it is a
    total order, and a comparison with NaN never holds. *)

Ltac SFcompare_cases :=
  repeat match goal with
    | |- context [(?a ?= ?b)%Z] => destruct (Z.compare_spec a b)
    | H : context [(?a ?= ?b)%Z] |- _ => destruct (Z.compare_spec a b)
    | |- context [(?a ?= ?b)%positive] => destruct (Pos.compare_spec a b)
    | H : context [(?a ?= ?b)%positive] |- _ =>
        destruct (Pos.compare_spec a b)
    end;
  simpl in *; try reflexivity; try discriminate; try lia.

Lemma SFeqb_refl (a : spec_float) : SFeqb a a = true <-> a <> S754_nan.
Proof.
  unfold SFeqb.
  destruct a as [sa | sa | | sa ma ea]; simpl.
  - split; [discriminate | reflexivity].
  - destruct sa; (split; [discriminate | reflexivity]).
  - split; [discriminate | congruence].
  - change (Pos.compare_cont Eq ma ma) with (ma ?= ma)%positive.
    rewrite Z.compare_refl, Pos.compare_refl.
    destruct sa; (split; [discriminate | reflexivity]).
Qed.

Lemma SFltb_number (a b : spec_float) :
  SFltb a b = true -> SFeqb a a = true /\ SFeqb b b = true.
Proof.
  intros H. rewrite !SFeqb_refl. unfold SFltb in H.
  destruct a, b; simpl in H; try discriminate; split; discriminate.
Qed.

Lemma SFleb_number (a b : spec_float) :
  SFleb a b = true -> SFeqb a a = true /\ SFeqb b b = true.
Proof.
  intros H. rewrite !SFeqb_refl. unfold SFleb in H.
  destruct a, b; simpl in H; try discriminate; split; discriminate.
Qed.

Lemma SFleb_of_not_ltb (a b : spec_float) :
  SFeqb a a = true -> SFeqb b b = true -> SFltb a b = false ->
  SFleb b a = true.
Proof.
  rewrite !SFeqb_refl. intros Ha Hb. unfold SFltb, SFleb.
  rewrite (SFcompare_antisym a b).
  destruct a, b; try congruence; simpl;
    repeat match goal with |- context [if ?s then _ else _] => destruct s end;
    simpl; try congruence;
    repeat match goal with s : bool |- _ => destruct s end;
    simpl; try congruence;
    change (Pos.compare_cont Eq ?x ?y) with (x ?= y)%positive;
    SFcompare_cases.
Qed.

Lemma SFltb_trans (a b c : spec_float) :
  SFltb a b = true -> SFltb b c = true -> SFltb a c = true.
Proof.
  unfold SFltb.
  destruct a as [sa | sa | | sa ma ea], b as [sb | sb | | sb mb eb],
    c as [sc | sc | | sc mc ec]; simpl; try discriminate;
    repeat match goal with s : bool |- _ => destruct s end;
    simpl; try discriminate; try reflexivity;
    change (Pos.compare_cont Eq ?x ?y) with (x ?= y)%positive;
    intros H1 H2; SFcompare_cases.
Qed.

Lemma SFleb_trans (a b c : spec_float) :
  SFleb a b = true -> SFleb b c = true -> SFleb a c = true.
Proof.
  unfold SFleb.
  destruct a as [sa | sa | | sa ma ea], b as [sb | sb | | sb mb eb],
    c as [sc | sc | | sc mc ec]; simpl; try discriminate;
    repeat match goal with s : bool |- _ => destruct s end;
    simpl; try discriminate; try reflexivity;
    change (Pos.compare_cont Eq ?x ?y) with (x ?= y)%positive;
    intros H1 H2; SFcompare_cases.
Qed.

#[export] Instance Q_NumCompare : NumCompare Q.
Proof.
  split; unfold is_number.
  - intros a b c Hab Hbc. apply Q_ltb in Hab, Hbc. apply Q_ltb.
    eapply Qlt_trans; eassumption.
  - intros a b c Hab Hbc. apply Q_leb in Hab, Hbc. apply Q_leb.
    eapply Qle_trans; eassumption.
  - intros a b _. split; apply Qeq_bool_iff; reflexivity.
  - intros a b _. split; apply Qeq_bool_iff; reflexivity.
  - intros a b _ _ Hlt. apply Q_leb. simpl in Hlt.
    apply negb_false_iff, Qle_bool_iff in Hlt. exact Hlt.
  - intros name config _. apply Qeq_bool_iff. reflexivity.
Qed.

#[export] Instance binary64_NumCompare : NumCompare float.
Proof.
  split; unfold is_number; simpl.
  - intros a b c. rewrite !FloatAxioms.ltb_spec. apply SFltb_trans.
  - intros a b c. rewrite !FloatAxioms.leb_spec. apply SFleb_trans.
  - intros a b. rewrite FloatAxioms.ltb_spec, !FloatAxioms.eqb_spec.
    apply SFltb_number.
  - intros a b. rewrite FloatAxioms.leb_spec, !FloatAxioms.eqb_spec.
    apply SFleb_number.
  - intros a b. rewrite FloatAxioms.ltb_spec, FloatAxioms.leb_spec,
      !FloatAxioms.eqb_spec.
    apply SFleb_of_not_ltb.
  - intros name config Hcfg. apply TIER_CONFIG_lookup in Hcfg.
    destruct Hcfg as [[_ ->] | [[_ ->] | [_ ->]]]; reflexivity.
Qed.

(** ** Signs in binary64

    What the operations of binary64 do to the sign, read off their
    specification.  A value is [below_zero] when its sign bit is set or it
    is NaN: no comparison [t <= x] with a positive [t] holds for it. *)

Definition below_zero (x : spec_float) : Prop :=
  match x with
  | S754_zero s | S754_infinity s | S754_finite s _ _ => s = true
  | S754_nan => True
  end.

Lemma binary_round_aux_sign (s : bool) (m e : Z) (l : location) :
  match binary_round_aux prec emax s m e l with
  | S754_zero s' | S754_infinity s' | S754_finite s' _ _ => s' = s
  | S754_nan => True
  end.
Proof.
  unfold binary_round_aux.
  destruct (shr_fexp prec emax m e l) as [mrs' e'].
  destruct (shr_fexp prec emax _ e' loc_Exact) as [mrs'' e''].
  destruct (shr_m mrs''); [reflexivity | | exact I].
  destruct (e'' <=? emax - prec)%Z; reflexivity.
Qed.

Lemma binary_round_below_zero (m : positive) (e : Z) :
  below_zero (binary_round prec emax true m e).
Proof.
  unfold binary_round.
  destruct (shl_align m e _) as [mz ez].
  pose proof (binary_round_aux_sign true (Z.pos mz) ez loc_Exact) as H.
  unfold below_zero. destruct (binary_round_aux _ _ _ _ _ _); exact H.
Qed.

Lemma SFleb_below_zero (m : positive) (e : Z) (x : spec_float) :
  below_zero x -> SFleb (S754_finite false m e) x = false.
Proof.
  unfold below_zero, SFleb. destruct x as [s | s | | s mx ex]; simpl;
    try intros ->; reflexivity.
Qed.

(** A loss [i - b] that reaches a positive limit [t] makes the gain [b - i]
    negative. *)
Lemma SFsub_loss (mt mi : positive) (et ei : Z) (b : spec_float) :
  SFleb (S754_finite false mt et) (SF64sub (S754_finite false mi ei) b)
  = true ->
  below_zero (SF64sub b (S754_finite false mi ei)).
Proof.
  unfold SF64sub. destruct b as [sb | sb | | sb mb eb]; simpl.
  - intros _. reflexivity.
  - destruct sb; [intros _; reflexivity |].
    unfold SFleb. simpl. discriminate.
  - intros _. exact I.
  - rewrite (Z.min_comm eb ei).
    set (ez := Z.min ei eb).
    set (a := Z.pos (fst (shl_align mi ei ez))).
    set (d := cond_Zopp sb (Z.pos (fst (shl_align mb eb ez)))).
    replace (d - a)%Z with (- (a - d))%Z by lia.
    destruct (a - d)%Z as [| p | p] eqn:Hz; simpl.
    + unfold SFleb. simpl. discriminate.
    + intros _. apply binary_round_below_zero.
    + intros H.
      rewrite (SFleb_below_zero mt et _ (binary_round_below_zero p ez)) in H.
      discriminate.
Qed.

Lemma SFdiv_below_zero (x : spec_float) (m : positive) (e : Z) :
  below_zero x -> below_zero (SF64div x (S754_finite false m e)).
Proof.
  unfold SF64div, below_zero. destruct x as [s | s | | s mx ex]; simpl;
    try (intros ->; reflexivity); try (intros _; exact I).
  intros ->. simpl.
  destruct (SFdiv_core_binary _ _ _ _ _ _) as [[mz ez] lz].
  pose proof (binary_round_aux_sign true mz ez lz) as H.
  destruct (binary_round_aux _ _ _ _ _ _); exact H.
Qed.

Lemma SFmul_below_zero (x : spec_float) (m : positive) (e : Z) :
  below_zero x -> below_zero (SF64mul x (S754_finite false m e)).
Proof.
  unfold SF64mul, below_zero. destruct x as [s | s | | s mx ex]; simpl;
    try (intros ->; reflexivity); try (intros _; exact I).
  intros ->. simpl.
  pose proof (binary_round_aux_sign true (Z.pos (mx * m)) (ex + e) loc_Exact)
    as H.
  destruct (binary_round_aux _ _ _ _ _ _); exact H.
Qed.

(** In binary64: when the loss [i - b] against a positive balance [i]
    reaches a positive limit [t], the profit percentage
    [(b - i) / i * h] is below every positive target [g]. *)
Lemma binary64_loss_excludes_target (t i b h g : float) :
  (exists m e, Prim2SF t = S754_finite false m e) ->
  (exists m e, Prim2SF i = S754_finite false m e) ->
  (exists m e, Prim2SF h = S754_finite false m e) ->
  (exists m e, Prim2SF g = S754_finite false m e) ->
  PrimFloat.leb t (i - b) = true ->
  PrimFloat.leb g ((b - i) / i * h) = false.
Proof.
  intros (mt & et & Ht) (mi & ei & Hi) (mh & eh & Hh) (mg & eg & Hg).
  rewrite !FloatAxioms.leb_spec, FloatAxioms.mul_spec, FloatAxioms.div_spec,
    !FloatAxioms.sub_spec, Ht, Hi, Hh, Hg.
  intros Hloss. apply SFleb_below_zero, SFmul_below_zero, SFdiv_below_zero.
  apply (SFsub_loss mt mi et ei), Hloss.
Qed.

(** ** The checks on a funded challenge, in binary64

    For a challenge whose initial balance is the one of its tier: a loss
    limit that is reached excludes the profit target, and with a day that
    started at the initial balance the total-loss limit includes the
    daily-loss limit.  The limits and the targets of the three tiers are
    computed; the balance is any value, infinities and NaN included. *)
Lemma binary64_hits name config (c c1 : Challenge.t float) (pl : float) :
  TIER_CONFIG !! name = Some config ->
  Challenge.initial_balance c = of_int (TierConfig.initial_balance config) ->
  update_balance pl c = Some c1 ->
  (total_loss_hit config c1 = true -> profit_target_hit config c1 = false)
  /\ (Challenge.daily_start_balance c = Challenge.initial_balance c ->
      (daily_loss_hit config c1 = true -> profit_target_hit config c1 = false)
      /\ (total_loss_hit config c1 = true -> daily_loss_hit config c1 = true)).
Proof.
  intros Hcfg Hi Hu.
  destruct (update_balance_spec _ _ _ Hu)
    as (_ & Hcur & _ & Hpp & Hi1 & Hd1 & _).
  rewrite <- Hcur in Hpp.
  unfold total_loss_hit, daily_loss_hit, profit_target_hit.
  rewrite Hpp, Hi1, Hd1, Hi.
  set (b := Challenge.current_balance c1).
  apply TIER_CONFIG_lookup in Hcfg.
  destruct Hcfg as [[_ ->] | [[_ ->] | [_ ->]]];
    (split; [| intros ->; split]);
    try (apply binary64_loss_excludes_target;
         eexists _, _; vm_compute; reflexivity);
    apply (num_leb_trans (F:=float)); vm_compute; reflexivity.
Qed.

(** ** Settlements on concrete numbers *)

(** C3. The daily-loss limit is inclusive.  For a starter challenge with
    initial, daily-start and current balance 10000, closing an open trade
    whose realised profit or loss is exactly -500 (5% of 10000) ends with
    status ['failed'] and reason "Exceeded 5% daily loss limit": over the
    rationals for every such store and trade, and in binary64 on the store
    [two_positions], where closing trade 0 (50 units bought at 100) at 90
    realises -500. *)
Theorem daily_loss_boundary_inclusive :
  (forall (s : Store Q) u tid x t c,
     (x <= of_int 0)%num = false ->
     find_trade s tid u = Some t ->
     Trade.status t = "open" ->
     challenges s !! Trade.challenge_id t = Some c ->
     Challenge.tier c = "starter" ->
     (Challenge.initial_balance c == 10000)%Q ->
     (Challenge.daily_start_balance c == 10000)%Q ->
     (Challenge.current_balance c == 10000)%Q ->
     (profit_loss_of t x == -500)%Q ->
     exists s' t' c',
       close_trade s u tid x = (s', TradeClosed t' c')
       /\ challenges s' !! Trade.challenge_id t = Some c'
       /\ Challenge.status c' = "failed"
       /\ Challenge.fail_reason c' = Some "Exceeded 5% daily loss limit")
  /\ (exists c s' t' c',
        challenges (two_positions (F:=float)) !! 0 = Some c
        /\ Challenge.tier c = "starter"
        /\ Challenge.initial_balance c = 10000%float
        /\ Challenge.daily_start_balance c = 10000%float
        /\ Challenge.current_balance c = 10000%float
        /\ close_trade two_positions 1 0 90%float = (s', TradeClosed t' c')
        /\ Trade.profit_loss t' = Some (-500)%float
        /\ challenges s' !! 0 = Some c'
        /\ Challenge.status c' = "failed"
        /\ Challenge.fail_reason c' = Some "Exceeded 5% daily loss limit").
Proof.
  split.
  - apply daily_loss_boundary_exact.
  - destruct (challenges (two_positions (F:=float)) !! 0) as [c |] eqn:Ec;
      [| vm_compute in Ec; discriminate Ec].
    destruct (close_trade (two_positions (F:=float)) 1 0 90%float)
      as [s' r] eqn:E.
    destruct r as [c0 | t0 | t' c' | e]; try (vm_compute in E; discriminate E).
    exists c, s', t', c'.
    vm_compute in Ec. injection Ec as <-.
    vm_compute in E. injection E as <- <- <-.
    repeat split; vm_compute; reflexivity.
Qed.

(** C5. The sign of the profit or loss.  Closing an open trade at an exit
    price that passes [exit_price <= 0] succeeds (its challenge having a
    configured tier and a non-zero initial balance) and records
    [(exit_price - entry_price) * quantity] for a 'buy' trade and
    [(entry_price - exit_price) * quantity] for a 'sell' trade.  In
    particular, over the rationals and in binary64: buy at 100, exit 110,
    quantity 10 gives +100; sell at 100, exit 90, quantity 10 gives +100;
    sell at 100, exit 110, quantity 10 gives -100. *)
Theorem profit_loss_sign :
  (forall (F : Type) (num : Num F) (s : Store F) u tid (x : F) t c config,
     (x <= of_int 0)%num = false ->
     find_trade s tid u = Some t ->
     Trade.status t = "open" ->
     challenges s !! Trade.challenge_id t = Some c ->
     (Challenge.initial_balance c == of_int 0)%num = false ->
     TIER_CONFIG !! Challenge.tier c = Some config ->
     exists s' t' c',
       close_trade s u tid x = (s', TradeClosed t' c')
       /\ trades s' !! tid = Some t'
       /\ (Trade.type t = "buy" ->
           Trade.profit_loss t'
           = Some ((x - Trade.entry_price t) * Trade.quantity t)%num)
       /\ (Trade.type t = "sell" ->
           Trade.profit_loss t'
           = Some ((Trade.entry_price t - x) * Trade.quantity t)%num))
  /\ (forall t : Trade.t Q,
        (Trade.entry_price t == 100)%Q ->
        (Trade.quantity t == 10)%Q ->
        (Trade.type t = "buy" -> (profit_loss_of t 110 == 100)%Q)
        /\ (Trade.type t = "sell" -> (profit_loss_of t 90 == 100)%Q)
        /\ (Trade.type t = "sell" -> (profit_loss_of t 110 == -100)%Q))
  /\ (forall t : Trade.t float,
        Trade.entry_price t = 100%float ->
        Trade.quantity t = 10%float ->
        (Trade.type t = "buy" -> profit_loss_of t 110%float = 100%float)
        /\ (Trade.type t = "sell" -> profit_loss_of t 90%float = 100%float)
        /\ (Trade.type t = "sell" -> profit_loss_of t 110%float = (-100)%float)).
Proof.
  split; [| split].
  - intros F num s u tid x t c config Hx Ht Hs Hch Hz Hcfg.
    destruct (close_trade_settles _ _ _ _ _ _ _ Hx Ht Hs Hch Hz Hcfg)
      as (s' & t' & c' & c1 & Hc & _ & _ & -> & _ & Htr).
    exists s', (Trade.close x (profit_loss_of t x) t), c'.
    split; [exact Hc |]. split; [exact Htr |].
    split; intros Hty; simpl; unfold profit_loss_of; rewrite Hty; reflexivity.
  - intros t He Hq. unfold profit_loss_of.
    repeat split; intros ->; simpl; rewrite He, Hq; reflexivity.
  - intros t He Hq. unfold profit_loss_of.
    repeat split; intros ->; simpl; rewrite He, Hq; reflexivity.
Qed.

(** ** The statements on the scenarios *)

(** Both sides are closed terms: run the handlers and compare. *)
Ltac evaluate := vm_compute; reflexivity.

(** [profit_target_checked_last] on [after_reset]: closing the position at 10
    loses 900, more than 5% of the 12000 the day started with, and leaves
    11100, which is 11% above the initial 10000. *)
Lemma profit_target_checked_last_witness :
  exists s' t' c',
    close_trade (F:=Q) after_reset 1 0 10%Q = (s', TradeClosed t' c')
    /\ daily_loss_hit (TierConfig.mk 10000 99 5 10 10) c' = true
    /\ Challenge.status (check_daily_loss (TierConfig.mk 10000 99 5 10 10) c')
       = "failed"
    /\ Challenge.status c' = "passed".
Proof.
  eexists _, _, _. split; [evaluate |].
  split; [evaluate |].
  split; [evaluate |].
  eapply (profit_target_checked_last (F:=Q) after_reset 1 0 10%Q).
  - evaluate.
  - evaluate.
  - evaluate.
Defined.

(** [profit_target_keeps_fail_reason] on the same settlement. *)
Lemma profit_target_keeps_fail_reason_witness :
  exists s' t' c',
    close_trade (F:=Q) after_reset 1 0 10%Q = (s', TradeClosed t' c')
    /\ Challenge.status c' = "passed"
    /\ Challenge.fail_reason c' = Some "Exceeded 5% daily loss limit".
Proof.
  eexists _, _, _. split; [evaluate |].
  edestruct (profit_target_keeps_fail_reason (F:=Q) after_reset 1 0 10%Q)
    as (Hs & Hr & _).
  - evaluate.
  - evaluate.
  - evaluate.
  - evaluate.
  - split; [exact Hs | exact Hr].
Defined.

(** C2, as stated, fails.  On [after_loss] the challenge is ['failed'] (the
    first settlement lost 10%) and trade 1 is still open; closing it at 310
    moves the balance from 9000 to 11100 and the status to ['passed']. *)
Lemma terminal_status_not_preserved :
  exists c t s' t' c',
    challenges (after_loss (F:=Q)) !! 0 = Some c
    /\ Challenge.status c = "failed"
    /\ trades (after_loss (F:=Q)) !! 1 = Some t
    /\ Trade.challenge_id t = 0
    /\ Trade.status t = "open"
    /\ close_trade after_loss 1 1 310%Q = (s', TradeClosed t' c')
    /\ challenges s' !! 0 = Some c'
    /\ Challenge.status c' = "passed"
    /\ Challenge.current_balance c = 9000%Q
    /\ Challenge.current_balance c' = 11100%Q
    /\ Challenge.highest_balance c = 10000%Q
    /\ Challenge.highest_balance c' = 11100%Q
    /\ c' <> c.
Proof.
  eexists _, _, _, _, _.
  repeat (split; [evaluate |]).
  vm_compute. discriminate.
Qed.

(** [settlement_ignores_status] on the same settlement. *)
Lemma settlement_ignores_status_witness :
  exists c s' t' c',
    challenges (after_loss (F:=Q)) !! 0 = Some c
    /\ Challenge.status c = "failed"
    /\ close_trade (F:=Q) after_loss 1 1 310%Q = (s', TradeClosed t' c')
    /\ Challenge.current_balance c' = (Challenge.current_balance c + 2100)%Q
    /\ Challenge.status c' = "passed".
Proof.
  edestruct (settlement_ignores_status (F:=Q) after_loss 1 1 310%Q)
    as (s' & t' & c' & Hc & _ & Hcur & _ & _ & Hst & _).
  - evaluate.
  - evaluate.
  - evaluate.
  - evaluate.
  - evaluate.
  - evaluate.
  - eexists _, s', t', c'.
    split; [evaluate |].
    split; [reflexivity |].
    split; [exact Hc |].
    split; [exact Hcur |].
    rewrite Hst. vm_compute in Hc. injection Hc as _ _ <-.
    vm_compute. reflexivity.
Defined.

(** [daily_loss_boundary_inclusive] on [two_positions] over [Q]: closing
    trade 0 at 90 realises (90 - 100) * 50 = -500. *)
Lemma daily_loss_boundary_inclusive_witness :
  exists t s' t' c',
    find_trade (F:=Q) two_positions 0 1 = Some t
    /\ (profit_loss_of t 90 == -500)%Q
    /\ close_trade (F:=Q) two_positions 1 0 90%Q = (s', TradeClosed t' c')
    /\ Challenge.status c' = "failed"
    /\ Challenge.fail_reason c' = Some "Exceeded 5% daily loss limit".
Proof.
  edestruct (proj1 daily_loss_boundary_inclusive
               (two_positions (num:=Q_Num)) 1 0 90%Q)
    as (s' & t' & c' & Hc & _ & Hst & Hr).
  - evaluate.
  - evaluate.
  - evaluate.
  - evaluate.
  - evaluate.
  - evaluate.
  - evaluate.
  - evaluate.
  - evaluate.
  - eexists _, s', t', c'.
    split; [evaluate |].
    split; [evaluate |].
    split; [exact Hc |]. split; assumption.
Defined.

(** [profit_loss_sign] on [two_positions]: closing trade 1 (10 units bought
    at 100) at 110 realises +100. *)
Lemma profit_loss_sign_witness :
  exists s' t' c',
    close_trade (F:=Q) two_positions 1 1 110%Q = (s', TradeClosed t' c')
    /\ Trade.profit_loss t' = Some ((110 - 100) * 10)%Q.
Proof.
  edestruct (proj1 profit_loss_sign Q Q_Num two_positions 1 1 110%Q)
    as (s' & t' & c' & Hc & _ & Hbuy & _).
  - evaluate.
  - evaluate.
  - evaluate.
  - evaluate.
  - evaluate.
  - evaluate.
  - exists s', t', c'. split; [exact Hc | exact (Hbuy eq_refl)].
Defined.

(** C7, as stated, fails.  'STARTER' is not a key of [TIER_CONFIG], and
    yet a request with that tier creates a challenge: the handler lower-cases
    the name before the lookup. *)
Lemma tier_matched_case_insensitively :
  exists s' c,
    TIER_CONFIG !! "STARTER" = None
    /\ create_challenge (F:=Q) one_user 1 "STARTER" None
       = (s', ChallengeCreated c)
    /\ challenges (one_user (F:=Q)) !! 0 = None
    /\ challenges s' !! 0 = Some c
    /\ Challenge.tier c = "starter"
    /\ Challenge.status c = "active".
Proof.
  eexists _, _. repeat (split; [evaluate |]).
  vm_compute. reflexivity.
Qed.

(** [create_challenge_postcondition] on [one_user], in binary64: an 'Elite'
    challenge; a payment method of 21 characters; a tier name that is not
    configured. *)
Lemma create_challenge_postcondition_witness :
  (exists s' c,
     create_challenge (F:=float) one_user 1 "Elite" (Some "crypto")
     = (s', ChallengeCreated c)
     /\ Challenge.initial_balance c = 100000%float
     /\ Challenge.current_balance c = Challenge.initial_balance c
     /\ Challenge.highest_balance c = Challenge.initial_balance c
     /\ Challenge.daily_start_balance c = Challenge.initial_balance c
     /\ Challenge.status c = "active"
     /\ Challenge.payment_method c = Some "crypto")
  /\ create_challenge (F:=float) one_user 1 "Elite"
       (Some "bank transfer (SEPA).")
     = (one_user, Error ServerError)
  /\ create_challenge (F:=float) one_user 1 "gold" (Some "crypto")
     = (one_user, Error InvalidTier).
Proof.
  pose proof (create_challenge_postcondition (F:=float) one_user 1 "Elite"
                (Some "crypto")) as (Hok & _ & _).
  pose proof (create_challenge_postcondition (F:=float) one_user 1 "Elite"
                (Some "bank transfer (SEPA).")) as (_ & Hlong & _).
  pose proof (create_challenge_postcondition (F:=float) one_user 1 "gold"
                (Some "crypto")) as (_ & _ & Hbad & _).
  split; [| split].
  - edestruct Hok
      as (s' & c & Hc & Hi & Hcur & Hhigh & Hday & Hst & _ & Hpm & _).
    + evaluate.
    + evaluate.
    + evaluate.
    + exists s', c. repeat split; assumption.
  - eapply Hlong; evaluate.
  - apply Hbad. vm_compute. reflexivity.
Defined.

(** [close_trade_errors] on [two_positions]: an exit price of 0, and trade 0
    closed at 80 and then closed again. *)
Lemma close_trade_errors_witness :
  close_trade (F:=Q) two_positions 1 0 0%Q
  = (two_positions, Error InvalidExitPrice)
  /\ exists s' t' c',
       close_trade (F:=Q) two_positions 1 0 80%Q = (s', TradeClosed t' c')
       /\ close_trade s' 1 0 80%Q = (s', Error TradeAlreadyClosed)
       /\ close_trade s' 1 0 95%Q = (s', Error TradeAlreadyClosed).
Proof.
  pose proof (close_trade_errors (F:=Q) two_positions 1 0 0%Q) as (Hbad & _).
  pose proof (close_trade_errors (F:=Q) two_positions 1 0 80%Q)
    as (_ & _ & Hagain & _).
  split.
  - apply Hbad. vm_compute. reflexivity.
  - eexists _, _, _. split; [evaluate |].
    edestruct Hagain as (Hsame & Hany).
    + evaluate.
    + split; [exact Hsame | exact (Hany 95%Q)].
Defined.

(** [execute_trade_rejections] on [two_positions] and [after_loss]: 200
    units at 100 against a balance of 10000; a failed challenge; a quantity
    of 0; a side 'hold'. *)
Lemma execute_trade_rejections_witness :
  execute_trade (F:=Q) two_positions 1 0 "btc" "buy" 200%Q 100%Q
  = (two_positions, Error InsufficientBalance)
  /\ execute_trade (F:=Q) after_loss 1 0 "btc" "buy" 1%Q 100%Q
     = (after_loss, Error ChallengeNotActive)
  /\ execute_trade (F:=Q) two_positions 1 0 "btc" "sell" 0%Q 100%Q
     = (two_positions, Error InvalidQuantityOrPrice)
  /\ execute_trade (F:=Q) two_positions 1 0 "btc" "hold" 1%Q 100%Q
     = (two_positions, Error InvalidTradeType).
Proof.
  pose proof (execute_trade_rejections (F:=Q) two_positions 1 0 "btc" "buy"
                200%Q 100%Q) as (_ & _ & _ & Hbal & _).
  pose proof (execute_trade_rejections (F:=Q) after_loss 1 0 "btc" "buy"
                1%Q 100%Q) as (_ & _ & Hact & _).
  pose proof (execute_trade_rejections (F:=Q) two_positions 1 0 "btc" "sell"
                0%Q 100%Q) as (_ & Hqty & _).
  pose proof (execute_trade_rejections (F:=Q) two_positions 1 0 "btc" "hold"
                1%Q 100%Q) as (Hside & _).
  split; [| split; [| split]].
  - eapply Hbal; vm_compute; reflexivity || discriminate.
  - eapply Hact; vm_compute; reflexivity || discriminate.
  - apply Hqty; vm_compute; reflexivity.
  - apply Hside; vm_compute; reflexivity.
Defined.

(** [settlement_keeps_order] in binary64, on [two_positions]: trade 1 is
    closed at 110.5. *)
Lemma settlement_keeps_order_witness :
  exists c s' t' c',
    challenges (two_positions (F:=float)) !! 0 = Some c
    /\ close_trade (F:=float) two_positions 1 1 110.5%float
       = (s', TradeClosed t' c')
    /\ Challenge.highest_balance c = 10000%float
    /\ Challenge.current_balance c' = 10105%float
    /\ PrimFloat.ltb (Challenge.highest_balance c')
         (Challenge.highest_balance c) = false
    /\ PrimFloat.ltb (Challenge.highest_balance c')
         (Challenge.current_balance c') = false.
Proof.
  edestruct (settlement_keeps_order (F:=float) two_positions 1 1 110.5%float)
    as (c & Hc & _ & Hh & Hcur).
  - evaluate.
  - eexists c, _, _, _.
    split; [exact Hc |].
    split; [evaluate |].
    vm_compute in Hc. injection Hc as <-.
    split; [reflexivity |]. split; [evaluate |].
    split; [exact Hh | exact Hcur].
Defined.

(** ** Strings and the columns that hold them *)

(** Upper-casing an ASCII character gives an ASCII character, and NUL
    only from NUL. *)
Lemma upper_char_ascii (a : ascii) :
  (nat_of_ascii a <? 128)%nat = true ->
  (nat_of_ascii (Py.upper_char a) <? 128)%nat = true
  /\ Ascii.eqb (Py.upper_char a) "000" = Ascii.eqb a "000".
Proof.
  destruct a as [[] [] [] [] [] [] [] []]; vm_compute;
    intros H; try discriminate H; split; reflexivity.
Qed.

Lemma ascii_upper_isascii (s : string) :
  Py.isascii s = true -> Py.isascii (Py.ascii_upper s) = true.
Proof.
  induction s as [| a r IH]; [reflexivity |].
  cbn [Py.isascii Py.ascii_upper Py.map_chars].
  intros Ha. apply andb_true_iff in Ha as [Ha Hr].
  apply andb_true_iff. split; [apply upper_char_ascii, Ha | apply IH, Hr].
Qed.

Lemma ascii_upper_no_nul (s : string) :
  Py.isascii s = true ->
  Db.all_chars (fun a => negb (Ascii.eqb a "000")) s = true ->
  Db.all_chars (fun a => negb (Ascii.eqb a "000")) (Py.ascii_upper s) = true.
Proof.
  induction s as [| a r IH]; [reflexivity |].
  cbn [Py.isascii Py.ascii_upper Py.map_chars Db.all_chars].
  intros Ha Hn. apply andb_true_iff in Ha as [Ha Hr].
  apply andb_true_iff in Hn as [Hn Hnr].
  apply andb_true_iff. split; [| apply IH; assumption].
  rewrite (proj2 (upper_char_ascii a Ha)). exact Hn.
Qed.

Lemma ascii_upper_length (s : string) :
  String.length (Py.ascii_upper s) = String.length s.
Proof.
  induction s as [| a r IH]; [reflexivity |].
  cbn [Py.ascii_upper Py.map_chars String.length].
  f_equal. exact IH.
Qed.

(** An ASCII string has one character for each byte: the first [n]
    characters of a string of at most [n] bytes are the string itself. *)
Lemma split_chars_ascii (n : nat) (s : string) :
  Py.isascii s = true ->
  (String.length s <= n)%nat ->
  Db.split_chars n s = (s, EmptyString).
Proof.
  revert n. induction s as [| a r IH]; intros n Ha Hlen; [reflexivity |].
  cbn [Py.isascii] in Ha. apply andb_true_iff in Ha as [Ha Hr].
  cbn [String.length] in Hlen.
  cbn [Db.split_chars].
  assert (Hc : Db.continues a = false).
  { unfold Db.continues. apply Nat.ltb_lt in Ha.
    apply andb_false_iff. left. apply Nat.leb_gt. exact Ha. }
  rewrite Hc. destruct n as [| m]; [lia |].
  rewrite (IH m Hr) by lia. reflexivity.
Qed.

(** A [character varying(n)] column takes an ASCII string of at most [n]
    characters without NUL as it is. *)
Lemma varchar_ascii (n : nat) (s : string) :
  Py.isascii s = true ->
  Db.all_chars (fun a => negb (Ascii.eqb a "000")) s = true ->
  (String.length s <= n)%nat ->
  Db.varchar n s = Some s.
Proof.
  intros Ha Hn Hlen. unfold Db.varchar.
  rewrite Hn, (split_chars_ascii n s Ha Hlen). reflexivity.
Qed.

Lemma varchar_ascii_upper (n : nat) (s : string) :
  Py.isascii s = true ->
  Db.all_chars (fun a => negb (Ascii.eqb a "000")) s = true ->
  (String.length s <= n)%nat ->
  Db.varchar n (Py.ascii_upper s) = Some (Py.ascii_upper s).
Proof.
  intros Ha Hn Hlen. apply varchar_ascii.
  - apply ascii_upper_isascii, Ha.
  - apply ascii_upper_no_nul; assumption.
  - rewrite ascii_upper_length. exact Hlen.
Qed.

(** ** One request at a time *)

Section StepFacts.
Context {F : Type} {num : Num F} {uni : Unicode}.
Implicit Types (s : Store F) (c : Challenge.t F) (t : Trade.t F).
Implicit Types (r : Request F) (config : TierConfig.t) (x : F).

Lemma create_challenge_error s u tier pm s' e :
  create_challenge s u tier pm = (s', Error e) -> s' = s.
Proof.
  unfold create_challenge. intros Hc.
  repeat (case_match; try discriminate); congruence.
Qed.

(** A trade is opened only along the one path of [execute_trade] that
    reaches [db.session.commit()]. *)
Lemma execute_trade_executed s u cid sym ty q p s' t :
  execute_trade s u cid sym ty q p = (s', TradeExecuted t) ->
  exists c,
    Py.in_list (Py.lower ty) ["buy"; "sell"] = true
    /\ (q <= of_int 0)%num || (p <= of_int 0)%num = false
    /\ find_challenge s cid u = Some c
    /\ Challenge.status c = "active"
    /\ (q * p > Challenge.current_balance c)%num = false
    /\ (exists stored,
          Db.varchar 20 (str_upper sym) = Some stored
          /\ t = Trade.mk (fresh (dom (trades s))) cid u stored
                   (Py.lower ty) q p None None "open")
    /\ s' = mkStore F (users s) (challenges s)
               (<[fresh (dom (trades s)) := t]> (trades s)).
Proof.
  unfold execute_trade. intros He.
  destruct (Py.in_list (Py.lower ty) ["buy"; "sell"]) eqn:Hty;
    [| discriminate].
  destruct ((q <= of_int 0)%num || (p <= of_int 0)%num) eqn:Hqp;
    [discriminate |].
  simpl in He.
  destruct (find_challenge s cid u) as [c |] eqn:Hc; [| discriminate].
  destruct (Challenge.status c =? "active")%string eqn:Hs; [| discriminate].
  apply String.eqb_eq in Hs. simpl in He.
  destruct (q * p > Challenge.current_balance c)%num eqn:Hv; [discriminate |].
  destruct (Db.varchar 20 (str_upper sym)) as [stored |] eqn:Hsym;
    [| discriminate].
  injection He as <- <-. exists c. repeat split; try assumption.
  exists stored. split; reflexivity.
Qed.

Lemma execute_trade_executes s u cid sym ty q p c stored :
  Py.in_list (Py.lower ty) ["buy"; "sell"] = true ->
  (q <= of_int 0)%num || (p <= of_int 0)%num = false ->
  find_challenge s cid u = Some c ->
  Challenge.status c = "active" ->
  (q * p > Challenge.current_balance c)%num = false ->
  Db.varchar 20 (str_upper sym) = Some stored ->
  execute_trade s u cid sym ty q p =
  (mkStore F (users s) (challenges s)
     (<[fresh (dom (trades s)) :=
          Trade.mk (fresh (dom (trades s))) cid u stored
            (Py.lower ty) q p None None "open"]> (trades s)),
   TradeExecuted
     (Trade.mk (fresh (dom (trades s))) cid u stored (Py.lower ty)
        q p None None "open")).
Proof.
  intros Hty Hqp Hc Hs Hv Hsym. unfold execute_trade.
  rewrite Hty, Hqp. simpl. rewrite Hc.
  apply String.eqb_eq in Hs. rewrite Hs. simpl. rewrite Hv, Hsym.
  reflexivity.
Qed.

(** A symbol the column rejects: the commit fails, the handler answers 500
    and nothing is stored. *)
Lemma execute_trade_rejected s u cid sym ty q p c :
  Py.in_list (Py.lower ty) ["buy"; "sell"] = true ->
  (q <= of_int 0)%num || (p <= of_int 0)%num = false ->
  find_challenge s cid u = Some c ->
  Challenge.status c = "active" ->
  (q * p > Challenge.current_balance c)%num = false ->
  Db.varchar 20 (str_upper sym) = None ->
  execute_trade s u cid sym ty q p = (s, Error ServerError).
Proof.
  intros Hty Hqp Hc Hs Hv Hsym. unfold execute_trade.
  rewrite Hty, Hqp. simpl. rewrite Hc.
  apply String.eqb_eq in Hs. rewrite Hs. simpl. rewrite Hv, Hsym.
  reflexivity.
Qed.

Lemma fresh_trade_id s : trades s !! fresh (dom (trades s)) = None.
Proof. apply not_elem_of_dom, is_fresh. Qed.

Lemma execute_trade_response s u cid sym ty q p :
  (exists e, execute_trade s u cid sym ty q p = (s, Error e))
  \/ (exists s' t, execute_trade s u cid sym ty q p = (s', TradeExecuted t)).
Proof. unfold execute_trade. repeat case_match; eauto. Qed.

Lemma create_challenge_response s u tier pm :
  (exists e, create_challenge s u tier pm = (s, Error e))
  \/ (exists s' c, create_challenge s u tier pm = (s', ChallengeCreated c)).
Proof. unfold create_challenge. repeat case_match; eauto. Qed.

(** The columns written at purchase survive the balance update and the
    checks. *)
Lemma update_balance_terms pl c c1 :
  update_balance pl c = Some c1 -> same_terms c c1.
Proof.
  unfold update_balance, py_div. simpl.
  destruct (Challenge.initial_balance c == of_int 0)%num; [discriminate |].
  intros [= <-]. repeat split.
Qed.

Lemma check_rules_terms config c : same_terms c (check_rules config c).
Proof.
  unfold check_rules, check_profit_target, check_total_loss, check_daily_loss.
  repeat case_match; repeat split.
Qed.

Lemma same_terms_trans c1 c2 c3 :
  same_terms c1 c2 -> same_terms c2 c3 -> same_terms c1 c3.
Proof. unfold same_terms. intuition congruence. Qed.

(** What one request does to the store: nothing, or one new challenge under
    a fresh id, or one new open trade under a fresh id, or the settlement of
    one open trade of the caller and of the challenge it refers to. *)
Lemma handle_step s r :
  fst (handle s r) = s
  \/ (exists c,
        challenges s !! Challenge.id c = None
        /\ Challenge.user_id c = request_user r
        /\ as_purchased c
        /\ Challenge.status c = "active"
        /\ Challenge.current_balance c = Challenge.initial_balance c
        /\ fst (handle s r)
           = mkStore F (users s) (<[Challenge.id c := c]> (challenges s))
               (trades s))
  \/ (exists t c,
        trades s !! Trade.id t = None
        /\ Trade.user_id t = request_user r
        /\ Trade.status t = "open"
        /\ challenges s !! Trade.challenge_id t = Some c
        /\ Challenge.user_id c = request_user r
        /\ fst (handle s r)
           = mkStore F (users s) (challenges s)
               (<[Trade.id t := t]> (trades s)))
  \/ (exists tid x t c c1 config,
        trades s !! tid = Some t
        /\ Trade.user_id t = request_user r
        /\ Trade.status t = "open"
        /\ challenges s !! Trade.challenge_id t = Some c
        /\ update_balance (profit_loss_of t x) c = Some c1
        /\ TIER_CONFIG !! Challenge.tier c1 = Some config
        /\ fst (handle s r)
           = mkStore F (users s)
               (<[Trade.challenge_id t := check_rules config c1]>
                  (challenges s))
               (<[tid := Trade.close x (profit_loss_of t x) t]> (trades s))).
Proof.
  destruct r as [u tier pm | u cid sym ty q p | u tid x]; simpl.
  - destruct (create_challenge_response s u tier pm)
      as [[e He] | (s' & c & Hc)].
    + left. rewrite He. reflexivity.
    + right. left. rewrite Hc. simpl.
      destruct (create_challenge_created _ _ _ _ _ _ Hc)
        as (config & stored & Hcfg & _ & _ & Hceq & ->).
      exists c. subst c. simpl.
      split; [apply fresh_challenge_id |].
      split; [reflexivity |]. split; [| repeat split].
      exists config. simpl. repeat split. exact Hcfg.
  - destruct (execute_trade_response s u cid sym ty q p)
      as [[e He] | (s' & t & Ht)].
    + left. rewrite He. reflexivity.
    + right. right. left. rewrite Ht. simpl.
      destruct (execute_trade_executed _ _ _ _ _ _ _ _ _ Ht)
        as (c & _ & _ & Hc & _ & _ & (stored & _ & Hteq) & ->).
      apply find_challenge_Some in Hc as [Hc Hu].
      exists t, c. subst t. simpl. split; [apply fresh_trade_id |].
      repeat split; assumption.
  - destruct (close_trade_response s u tid x)
      as [[e He] | (s' & t' & c' & Hc)].
    + left. rewrite He. reflexivity.
    + right. right. right. rewrite Hc. simpl.
      destruct (close_trade_closed _ _ _ _ _ _ _ Hc)
        as (t & c & c1 & config & _ & Ht & Hs & Hch & Hu & Hcfg & -> & -> & ->).
      apply find_trade_Some in Ht as [Ht Hown].
      exists tid, x, t, c, c1, config. repeat split; assumption.
Qed.

End StepFacts.

(** ** Invariants of the tables over any sequence of requests *)

Section RunFacts.
Context {F : Type} {num : Num F} {uni : Unicode}.
Implicit Types (s : Store F) (c : Challenge.t F) (t : Trade.t F).
Implicit Types (r : Request F) (rs : list (Request F)).
Implicit Types (config : TierConfig.t) (x : F).

Lemma run_step s r rs : run s (r :: rs) = run (fst (handle s r)) rs.
Proof. reflexivity. Qed.

(** The trade under an id after one request: the same row, or the row
    closed by its owner. *)
Lemma handle_trade s r tid t :
  trades s !! tid = Some t ->
  exists t',
    trades (fst (handle s r)) !! tid = Some t'
    /\ (t' = t
        \/ (Trade.status t = "open"
            /\ Trade.user_id t = request_user r
            /\ exists x, t' = Trade.close x (profit_loss_of t x) t)).
Proof.
  intros Ht.
  destruct (handle_step s r)
    as [-> | [(c & _ & _ & _ & _ & _ & ->) | [(t0 & c & Hnew & _ & _ & _ & _ & ->)
       | (tid0 & x & t0 & c & c1 & config & Ht0 & Hu & Hs & _ & _ & _ & ->)]]];
    simpl.
  - eauto.
  - eauto.
  - rewrite lookup_insert_ne by congruence. eauto.
  - destruct (decide (tid0 = tid)) as [-> | Hne].
    + rewrite lookup_insert_eq. assert (t0 = t) as -> by congruence.
      eexists. split; [reflexivity |]. right. eauto.
    + rewrite lookup_insert_ne by exact Hne. eauto.
Qed.

(** X2. A trade row is written twice at most: when it is opened and when it
    is closed.  Over any sequence of requests the row stays in the table; its
    id, challenge, owner, symbol, side, quantity and entry price never
    change; a row that is not ['open'] never changes at all; and an open row
    either is unchanged or has become ['closed'] with its exit price and the
    profit or loss computed from it. *)
Theorem trade_lifecycle s rs tid t :
  trades s !! tid = Some t ->
  exists t',
    trades (run s rs) !! tid = Some t'
    /\ same_position t t'
    /\ (Trade.status t <> "open" -> t' = t)
    /\ (t' = t
        \/ (Trade.status t = "open"
            /\ Trade.status t' = "closed"
            /\ exists x,
                 Trade.exit_price t' = Some x
                 /\ Trade.profit_loss t' = Some (profit_loss_of t x))).
Proof.
  revert s t. induction rs as [| r rs IH]; intros s t Ht.
  - exists t. repeat split; auto.
  - rewrite run_step.
    destruct (handle_trade s r tid t Ht)
      as (t1 & Ht1 & [-> | (Hopen & _ & x & ->)]).
    + apply IH, Ht1.
    + destruct (IH _ _ Ht1) as (t' & Ht' & _ & Hfrozen & _).
      rewrite (Hfrozen ltac:(discriminate)) in Ht'.
      eexists. split; [exact Ht' |]. split; [repeat split |].
      split; [intros Hn; contradiction |].
      right. split; [exact Hopen |]. split; [reflexivity |].
      exists x. split; reflexivity.
Qed.

(** The challenge under an id after one request: the same row, or the row
    settled by a trade of the caller that refers to it. *)
Lemma handle_challenge s r cid c :
  challenges s !! cid = Some c ->
  exists c',
    challenges (fst (handle s r)) !! cid = Some c'
    /\ (c' = c
        \/ exists tid t x c1 config,
             trades s !! tid = Some t
             /\ Trade.challenge_id t = cid
             /\ Trade.user_id t = request_user r
             /\ update_balance (profit_loss_of t x) c = Some c1
             /\ TIER_CONFIG !! Challenge.tier c1 = Some config
             /\ c' = check_rules config c1).
Proof.
  intros Hc.
  destruct (handle_step s r)
    as [-> | [(c0 & Hnew & _ & _ & _ & _ & ->) | [(t0 & c0 & _ & _ & _ & _ & _ & ->)
       | (tid0 & x & t0 & c0 & c1 & config & Ht0 & Hu & _ & Hc0 & Hup & Hcfg
          & ->)]]];
    simpl.
  - eauto.
  - rewrite lookup_insert_ne by congruence. eauto.
  - eauto.
  - destruct (decide (Trade.challenge_id t0 = cid)) as [Heq | Hne].
    + rewrite Heq, lookup_insert_eq. rewrite Heq in Hc0.
      assert (c0 = c) as -> by congruence.
      eexists. split; [reflexivity |]. right.
      exists tid0, t0, x, c1, config. repeat split; assumption.
    + rewrite lookup_insert_ne by exact Hne. eauto.
Qed.

Lemma settlement_terms pl c c1 config :
  update_balance pl c = Some c1 -> same_terms c (check_rules config c1).
Proof.
  intros Hu. eapply same_terms_trans;
    [apply (update_balance_terms _ _ _ Hu) | apply check_rules_terms].
Qed.

(** X3. What is written when a challenge is bought stays: over any sequence
    of requests the row stays in the table, and its id, owner, tier, initial
    balance, daily-start balance, payment method and amount paid never
    change.  (No handler removes a challenge or resets its day.) *)
Theorem challenge_terms_kept s rs cid c :
  challenges s !! cid = Some c ->
  exists c',
    challenges (run s rs) !! cid = Some c' /\ same_terms c c'.
Proof.
  revert s c. induction rs as [| r rs IH]; intros s c Hc.
  - exists c. split; [exact Hc | repeat split].
  - rewrite run_step.
    destruct (handle_challenge s r cid c Hc) as (c1 & Hc1 & Hrel).
    destruct (IH _ _ Hc1) as (c' & Hc' & Hterms).
    exists c'. split; [exact Hc' |].
    destruct Hrel as [-> | (tid & t & x & c2 & config & _ & _ & _ & Hu & _ & ->)];
      [exact Hterms |].
    eapply same_terms_trans; [apply (settlement_terms _ _ _ config Hu) |].
    exact Hterms.
Qed.

End RunFacts.

(** ** The order of the highest and the current balance *)

Section BalanceOrder.
Context {F : Type} {num : Num F} {uni : Unicode}.
Context {ord : NumOrder F} {cmp : NumCompare F}.
Implicit Types (s : Store F) (c : Challenge.t F) (t : Trade.t F).
Implicit Types (r : Request F) (rs : list (Request F)).

(** [b] is [a] or a number greater than [a]: what [max(a, _)] returns. *)
Definition not_lowered (a b : F) : Prop := b = a \/ (a < b)%num = true.

Lemma not_lowered_trans (a b c : F) :
  not_lowered a b -> not_lowered b c -> not_lowered a c.
Proof.
  intros [-> | Hab] [-> | Hbc]; unfold not_lowered; auto.
  right. eapply num_ltb_trans; eassumption.
Qed.

Lemma not_lowered_not_below (a b : F) :
  not_lowered a b -> (b < a)%num = false.
Proof.
  intros [-> | Hab]; [apply num_ltb_irrefl | apply num_ltb_asym, Hab].
Qed.

Lemma not_lowered_number (a b : F) :
  not_lowered a b -> is_number a -> is_number b.
Proof. intros [-> | Hab] Ha; [exact Ha | apply (num_ltb_number _ _ Hab)]. Qed.

Lemma py_max_not_lowered (a b : F) : not_lowered a (py_max a b).
Proof.
  unfold py_max, not_lowered. destruct (b > a)%num eqn:Hgt; auto.
Qed.

Lemma py_max_above (a b : F) :
  is_number (py_max a b) -> is_number b -> (py_max a b >= b)%num = true.
Proof.
  unfold py_max. destruct (b > a)%num eqn:Hgt; intros Hm Hb.
  - apply num_leb_of_not_ltb; [exact Hb | exact Hb | apply num_ltb_irrefl].
  - apply num_leb_of_not_ltb; assumption.
Qed.

(** The balances of a challenge that was just settled. *)
Lemma settled_balances pl c c1 config :
  update_balance pl c = Some c1 ->
  Challenge.highest_balance (check_rules config c1)
  = py_max (Challenge.highest_balance c)
      (Challenge.current_balance (check_rules config c1)).
Proof.
  intros Hu.
  destruct (check_rules_account config c1) as (_ & _ & _ & _ & -> & -> & _).
  destruct (update_balance_spec _ _ _ Hu) as (_ & -> & -> & _). reflexivity.
Qed.

(** One request: the highest balance of a challenge of the store is not
    lowered. *)
Lemma handle_not_lowered s r cid c :
  challenges s !! cid = Some c ->
  exists c',
    challenges (fst (handle s r)) !! cid = Some c'
    /\ not_lowered (Challenge.highest_balance c) (Challenge.highest_balance c').
Proof.
  intros Hc.
  destruct (handle_challenge s r cid c Hc)
    as (c' & Hc'
        & [-> | (tid & t & x & c1 & config & _ & _ & _ & Hu & _ & ->)]).
  - exists c. split; [exact Hc' | left; reflexivity].
  - eexists. split; [exact Hc' |].
    rewrite (settled_balances _ _ _ config Hu). apply py_max_not_lowered.
Qed.

(** A challenge whose highest balance is a number that its current balance
    does not exceed. *)
Definition balances_ordered c : Prop :=
  is_number (Challenge.highest_balance c)
  /\ (Challenge.highest_balance c < Challenge.current_balance c)%num = false.

Lemma handle_balances_ordered s r :
  (forall cid c, challenges s !! cid = Some c -> balances_ordered c) ->
  forall cid c,
    challenges (fst (handle s r)) !! cid = Some c -> balances_ordered c.
Proof.
  intros Hinv cid c'.
  destruct r as [u tier pm | u k sym ty q p | u tid x]; simpl.
  - destruct (create_challenge_response s u tier pm)
      as [[e He] | (s' & c & Hc)].
    + rewrite He. apply Hinv.
    + rewrite Hc. simpl.
      destruct (create_challenge_created _ _ _ _ _ _ Hc)
        as (config & stored & Hcfg & _ & _ & -> & ->).
      simpl. intros Hc'.
      apply lookup_insert_Some in Hc' as [[_ <-] | [_ Hc']];
        [| apply (Hinv _ _ Hc')].
      split; simpl.
      * apply (num_tier_number _ _ Hcfg).
      * apply num_ltb_irrefl.
  - rewrite execute_trade_challenges. apply Hinv.
  - destruct (close_trade_response s u tid x)
      as [[e He] | (s' & t' & c0 & Hc)].
    + rewrite He. apply Hinv.
    + rewrite Hc. simpl.
      destruct (close_trade_closed _ _ _ _ _ _ _ Hc)
        as (t & c & c1 & config & _ & _ & _ & Hch & Hu & _ & -> & -> & ->).
      simpl. intros Hc'.
      apply lookup_insert_Some in Hc' as [[_ <-] | [_ Hc']];
        [| apply (Hinv _ _ Hc')].
      destruct (Hinv _ _ Hch) as [Hnum _].
      unfold balances_ordered.
      rewrite (settled_balances _ _ _ config Hu). split.
      * apply (not_lowered_number (Challenge.highest_balance c));
          [apply py_max_not_lowered | exact Hnum].
      * apply py_max_not_below_r.
Qed.

(** C6 (amended). Over any sequence of requests (settlements, and challenge
    creations and trade openings between them), in every arithmetic with the
    laws of [NumOrder] and [NumCompare], binary64 included:
    - the highest balance of a challenge is never lowered: it keeps its
      value or takes a greater one;
    - after every settlement the current balance of the settled challenge
      is not greater than its highest balance, and the highest balance is
      [>=] the current balance whenever both are numbers;
    - if the highest balance of every challenge is a number that the
      current balance does not exceed (as in the empty tables), this is so
      after the sequence, for the challenges created on the way too. *)
Theorem highest_balance_invariant s rs :
  (forall cid c,
     challenges s !! cid = Some c ->
     exists c',
       challenges (run s rs) !! cid = Some c'
       /\ (Challenge.highest_balance c' = Challenge.highest_balance c
           \/ (Challenge.highest_balance c
               < Challenge.highest_balance c')%num = true)
       /\ (Challenge.highest_balance c'
           < Challenge.highest_balance c)%num = false)
  /\ (forall u tid x s' t' c',
        close_trade (run s rs) u tid x = (s', TradeClosed t' c') ->
        challenges s' !! Trade.challenge_id t' = Some c'
        /\ (Challenge.highest_balance c'
            < Challenge.current_balance c')%num = false
        /\ (is_number (Challenge.highest_balance c') ->
            is_number (Challenge.current_balance c') ->
            (Challenge.highest_balance c'
             >= Challenge.current_balance c')%num = true))
  /\ ((forall cid c, challenges s !! cid = Some c -> balances_ordered c) ->
      forall cid c,
        challenges (run s rs) !! cid = Some c ->
        is_number (Challenge.highest_balance c)
        /\ (Challenge.highest_balance c
            < Challenge.current_balance c)%num = false
        /\ (is_number (Challenge.current_balance c) ->
            (Challenge.highest_balance c
             >= Challenge.current_balance c)%num = true)).
Proof.
  split; [| split].
  - assert (H : forall cid c,
               challenges s !! cid = Some c ->
               exists c',
                 challenges (run s rs) !! cid = Some c'
                 /\ not_lowered (Challenge.highest_balance c)
                      (Challenge.highest_balance c')).
    { revert s. induction rs as [| r rs IH]; intros s cid c Hc.
      - exists c. split; [exact Hc | left; reflexivity].
      - rewrite run_step.
        destruct (handle_not_lowered s r cid c Hc) as (c1 & Hc1 & H1).
        destruct (IH _ cid c1 Hc1) as (c' & Hc' & H').
        exists c'. split; [exact Hc' |].
        eapply not_lowered_trans; eassumption. }
    intros cid c Hc. destruct (H cid c Hc) as (c' & Hc' & Hn).
    exists c'. split; [exact Hc' |].
    split; [exact Hn | apply not_lowered_not_below, Hn].
  - intros u tid x s' t' c' Hc.
    destruct (close_trade_closed _ _ _ _ _ _ _ Hc)
      as (t & c & c1 & config & _ & _ & _ & _ & Hu & _ & -> & -> & ->).
    simpl. split; [apply lookup_insert_eq |].
    rewrite (settled_balances _ _ _ config Hu).
    split; [apply py_max_not_below_r | apply py_max_above].
  - intros Hinv.
    assert (H : forall cid c,
               challenges (run s rs) !! cid = Some c -> balances_ordered c).
    { revert s Hinv. induction rs as [| r rs IH]; intros s Hinv.
      - exact Hinv.
      - rewrite run_step. apply IH. apply handle_balances_ordered, Hinv. }
    intros cid c Hc. destruct (H cid c Hc) as [Hnum Hlt].
    split; [exact Hnum |]. split; [exact Hlt |].
    intros Hcur. apply num_leb_of_not_ltb; assumption.
Qed.

End BalanceOrder.

Section SoundFacts.
Context {F : Type} {num : Num F} {uni : Unicode}.
Implicit Types (s : Store F) (c : Challenge.t F) (t : Trade.t F).
Implicit Types (r : Request F) (rs : list (Request F)).
Implicit Types (config : TierConfig.t) (x : F).

Lemma as_purchased_terms c c' : same_terms c c' -> as_purchased c -> as_purchased c'.
Proof.
  intros (_ & _ & Htier & Hinit & Hday & _) (config & Hcfg & Hi & Hd).
  exists config. rewrite Htier, Hinit, Hday. repeat split; assumption.
Qed.

(** The checks leave a status among the three, and a reason beside every
    ['failed'] they leave. *)
Lemma settlement_status_well_formed pl c c1 config :
  update_balance pl c = Some c1 ->
  status_well_formed c ->
  status_well_formed (check_rules config c1).
Proof.
  intros Hu [Hdom Hreason].
  destruct (update_balance_spec _ _ _ Hu)
    as (_ & _ & _ & _ & _ & _ & _ & Hst & Hfr).
  unfold status_well_formed.
  rewrite check_rules_status, check_rules_fail_reason, Hst, Hfr.
  destruct (profit_target_hit config c1), (total_loss_hit config c1),
    (daily_loss_hit config c1); split; auto; try discriminate; eauto.
Qed.

Lemma handle_referential_integrity s r :
  referential_integrity s -> referential_integrity (fst (handle s r)).
Proof.
  intros Hri.
  destruct (handle_step s r)
    as [-> | [(c0 & Hnew & _ & _ & _ & _ & ->) | [(t0 & c0 & Hnew & Hu & _ & Hc0
       & Hcu & ->)
       | (tid0 & x & t0 & c0 & c1 & config & Ht0 & Hu & _ & Hc0 & Hup & Hcfg
          & ->)]]];
    [exact Hri | | |]; intros tid t; simpl.
  - intros Ht. destruct (Hri tid t Ht) as (c & Hc & Hown).
    exists c. split; [| exact Hown].
    rewrite lookup_insert_ne by congruence. exact Hc.
  - intros Ht. apply lookup_insert_Some in Ht as [[_ <-] | [_ Ht]].
    + exists c0. split; [exact Hc0 | congruence].
    + apply (Hri tid t Ht).
  - pose proof (settlement_terms _ _ _ config Hup) as (_ & Hown1 & _).
    destruct (Hri tid0 t0 Ht0) as (c2 & Hc2 & Hown0).
    assert (c2 = c0) as -> by congruence.
    assert (Hsettled : forall t1,
               Trade.challenge_id t1 = Trade.challenge_id t0 ->
               Trade.user_id t1 = Trade.user_id t0 ->
               exists c,
                 <[Trade.challenge_id t0 := check_rules config c1]>
                   (challenges s) !! Trade.challenge_id t1 = Some c
                 /\ Challenge.user_id c = Trade.user_id t1).
    { intros t1 Hcid Huid. rewrite Hcid, lookup_insert_eq.
      eexists. split; [reflexivity |]. congruence. }
    intros Ht. apply lookup_insert_Some in Ht as [[_ <-] | [_ Ht]].
    + apply Hsettled; reflexivity.
    + destruct (Hri tid t Ht) as (c & Hc & Hown).
      destruct (decide (Trade.challenge_id t = Trade.challenge_id t0))
        as [Heq | Hne].
      * apply Hsettled; [exact Heq |].
        rewrite Heq in Hc. congruence.
      * exists c. split; [| exact Hown].
        rewrite lookup_insert_ne by congruence. exact Hc.
Qed.

Lemma handle_sound s r : sound s -> sound (fst (handle s r)).
Proof.
  intros [Hri Hch]. split; [apply handle_referential_integrity, Hri |].
  intros cid c' Hc'.
  destruct (challenges s !! cid) as [c |] eqn:Hc.
  - destruct (handle_challenge s r cid c Hc) as (c2 & Hc2 & Hrel).
    assert (c2 = c') as -> by congruence.
    destruct (Hch cid c Hc) as [Hp Hwf].
    destruct Hrel as [-> | (tid & t & x & c1 & config & _ & _ & _ & Hu & _ & ->)];
      [split; assumption |].
    split.
    + eapply as_purchased_terms; [apply (settlement_terms _ _ _ config Hu) |].
      exact Hp.
    + apply (settlement_status_well_formed _ _ _ _ Hu Hwf).
  - destruct (handle_step s r)
      as [Heq | [(c0 & Hnew & _ & Hp & Hact & _ & Heq) | [(t0 & c0 & _ & _ & _ & _
         & _ & Heq)
         | (tid0 & x & t0 & c0 & c1 & config & _ & _ & _ & Hc0 & _ & _ & Heq)]]];
      rewrite Heq in Hc'; simpl in Hc'.
    + congruence.
    + apply lookup_insert_Some in Hc' as [[_ <-] | [_ Hc']]; [| congruence].
      split; [exact Hp |]. split; [auto |]. rewrite Hact. discriminate.
    + congruence.
    + apply lookup_insert_Some in Hc' as [[<- _] | [_ Hc']]; congruence.
Qed.

(** X4. The handlers keep the tables sound.  Starting from tables that are
    (the empty tables are), after any sequence of requests every trade
    refers to a challenge of the table with the same owner, every challenge
    has a configured tier, the initial balance of that tier and a
    daily-start balance equal to it, its status is one of ['active'],
    ['passed'], ['failed'], and a ['failed'] challenge has a fail reason. *)
Theorem handlers_keep_sound s rs :
  sound s -> sound (run s rs).
Proof.
  revert s. induction rs as [| r rs IH]; intros s Hs; [exact Hs |].
  rewrite run_step. apply IH, handle_sound, Hs.
Qed.

Lemma empty_tables_sound (us : gset Z) : sound (mkStore F us ∅ ∅).
Proof.
  split.
  - intros tid t Ht. simpl in Ht. rewrite lookup_empty in Ht. discriminate.
  - intros cid c Hc. simpl in Hc. rewrite lookup_empty in Hc. discriminate.
Qed.

(** One request of another caller leaves the rows of [u] alone. *)
Lemma handle_isolated s r u :
  referential_integrity s ->
  request_user r <> u ->
  (forall cid c,
     challenges s !! cid = Some c -> Challenge.user_id c = u ->
     challenges (fst (handle s r)) !! cid = Some c)
  /\ (forall tid t,
        trades s !! tid = Some t -> Trade.user_id t = u ->
        trades (fst (handle s r)) !! tid = Some t).
Proof.
  intros Hri Hother. split.
  - intros cid c Hc Hown.
    destruct (handle_challenge s r cid c Hc)
      as (c' & Hc' & [-> | (tid & t & x & c1 & config & Ht & Hcid & Hu & _)]);
      [exact Hc' |].
    destruct (Hri tid t Ht) as (c2 & Hc2 & Hown2).
    rewrite Hcid in Hc2. congruence.
  - intros tid t Ht Hown.
    destruct (handle_trade s r tid t Ht)
      as (t' & Ht' & [-> | (_ & Hu & _)]); [exact Ht' | congruence].
Qed.

(** X5. No caller reaches the rows of another.  On tables with referential
    integrity, a sequence of requests none of which is made by user [u]
    leaves every challenge and every trade of [u] exactly as it was. *)
Theorem other_callers_cannot_interfere s rs u :
  referential_integrity s ->
  Forall (fun r => request_user r <> u) rs ->
  (forall cid c,
     challenges s !! cid = Some c -> Challenge.user_id c = u ->
     challenges (run s rs) !! cid = Some c)
  /\ (forall tid t,
        trades s !! tid = Some t -> Trade.user_id t = u ->
        trades (run s rs) !! tid = Some t).
Proof.
  intros Hri Hrs. revert s Hri.
  induction Hrs as [| r rs Hr _ IH]; intros s Hri; [split; auto |].
  rewrite run_step.
  destruct (handle_isolated s r u Hri Hr) as [Hc Ht].
  destruct (IH _ (handle_referential_integrity s r Hri)) as [Hc' Ht'].
  split.
  - intros cid c H1 H2. apply Hc'; [apply Hc |]; assumption.
  - intros tid t H1 H2. apply Ht'; [apply Ht |]; assumption.
Qed.

(** X6. A settlement writes two rows and nothing else: the trade it closes
    and the challenge that trade refers to.  Users, every other trade and
    every other challenge are as before. *)
Theorem close_trade_frame s u tid x s' t' c' :
  close_trade s u tid x = (s', TradeClosed t' c') ->
  users s' = users s
  /\ trades s' !! tid = Some t'
  /\ challenges s' !! Trade.challenge_id t' = Some c'
  /\ (forall k, k <> tid -> trades s' !! k = trades s !! k)
  /\ (forall k, k <> Trade.challenge_id t' ->
                challenges s' !! k = challenges s !! k)
  /\ dom (trades s') = dom (trades s)
  /\ dom (challenges s') = dom (challenges s).
Proof.
  intros Hc.
  destruct (close_trade_closed _ _ _ _ _ _ _ Hc)
    as (t & c & c1 & config & _ & Ht & _ & Hch & _ & _ & -> & -> & ->).
  apply find_trade_Some in Ht as [Ht _]. simpl.
  split; [reflexivity |].
  split; [apply lookup_insert_eq |].
  split; [apply lookup_insert_eq |].
  split; [intros k Hk; apply lookup_insert_ne; congruence |].
  split; [intros k Hk; apply lookup_insert_ne; congruence |].
  split.
  - rewrite dom_insert_L. apply elem_of_dom_2 in Ht.
    apply subseteq_union_1_L, singleton_subseteq_l, Ht.
  - rewrite dom_insert_L. apply elem_of_dom_2 in Hch.
    apply subseteq_union_1_L, singleton_subseteq_l, Hch.
Qed.

(** X7. Opening a trade reserves nothing.  When the checks of
    [execute_trade] pass and the column [symbol] takes the upper-cased
    symbol, it stores one new open trade under an id that was free, with the
    side lower-cased and the symbol as the column holds it, and leaves every
    challenge as it was; so the same request is accepted again on the
    resulting tables, under another id.  When the column refuses the
    upper-cased symbol, the handler answers 500 and stores nothing.  A
    symbol of at most 20 ASCII characters, none of them NUL, is stored with
    'a'..'z' moved to 'A'..'Z'. *)
Theorem execute_trade_opens s u cid sym ty q p c :
  Py.in_list (Py.lower ty) ["buy"; "sell"] = true ->
  (q <= of_int 0)%num || (p <= of_int 0)%num = false ->
  find_challenge s cid u = Some c ->
  Challenge.status c = "active" ->
  (q * p > Challenge.current_balance c)%num = false ->
  (forall stored,
     Db.varchar 20 (str_upper sym) = Some stored ->
     exists s' t,
       execute_trade s u cid sym ty q p = (s', TradeExecuted t)
       /\ trades s !! Trade.id t = None
       /\ trades s' !! Trade.id t = Some t
       /\ find_trade s' (Trade.id t) u = Some t
       /\ t = Trade.mk (Trade.id t) cid u stored (Py.lower ty) q p
                None None "open"
       /\ challenges s' = challenges s
       /\ exists s'' t2,
            execute_trade s' u cid sym ty q p = (s'', TradeExecuted t2)
            /\ Trade.id t2 <> Trade.id t)
  /\ (Db.varchar 20 (str_upper sym) = None ->
      execute_trade s u cid sym ty q p = (s, Error ServerError))
  /\ (Py.isascii sym = true ->
      Db.all_chars (fun a => negb (Ascii.eqb a "000")) sym = true ->
      (String.length sym <= 20)%nat ->
      Db.varchar 20 (str_upper sym) = Some (Py.ascii_upper sym)).
Proof.
  intros Hty Hqp Hc Hs Hv. split; [| split].
  - intros stored Hsym.
    pose proof (execute_trade_executes s u cid sym ty q p c stored
                  Hty Hqp Hc Hs Hv Hsym) as He.
    eexists _, _. split; [exact He |]. simpl.
    split; [apply fresh_trade_id |].
    split; [apply lookup_insert_eq |].
    split; [apply find_trade_Some; simpl; split;
            [apply lookup_insert_eq | reflexivity] |].
    split; [reflexivity |]. split; [reflexivity |].
    eexists _, _. split.
    + apply (execute_trade_executes _ u cid sym ty q p c stored Hty Hqp);
        assumption.
    + simpl. intros Heq.
      pose proof (fresh_trade_id
                    (mkStore F (users s) (challenges s)
                       (<[fresh (dom (trades s)) :=
                            Trade.mk (fresh (dom (trades s))) cid u
                              stored (Py.lower ty) q p None None
                              "open"]> (trades s)))) as Hf.
      simpl in Hf. rewrite Heq, lookup_insert_eq in Hf. discriminate.
  - apply (execute_trade_rejected s u cid sym ty q p c); assumption.
  - intros Hascii Hnul Hlen. rewrite (str_upper_ascii _ Hascii).
    apply varchar_ascii_upper; assumption.
Qed.

End SoundFacts.

(** ** Outcomes of a settlement by the balance it leaves *)

Section Thresholds.
Context {uni : Unicode}.
Implicit Types (s : Store Q) (c : Challenge.t Q) (t : Trade.t Q).

(** The three conditions of the checks, for a positive initial balance [i],
    a day that started at [d] and a balance [b], as bounds on [b]. *)
Lemma target_reached_iff (i b : Q) :
  (0 < i)%Q ->
  (inject_Z 10 <= (b - i) / i * inject_Z 100)%Q <-> ((11 # 10) * i <= b)%Q.
Proof.
  intros Hi.
  assert (Hd : ((b - i) / i * i == b - i)%Q) by (field; lra).
  set (d := ((b - i) / i)%Q) in *.
  change (inject_Z 10) with 10%Q. change (inject_Z 100) with 100%Q.
  split; intros H.
  - assert (0 <= (d - (1 # 10)) * i)%Q by (apply Qmult_le_0_compat; lra).
    lra.
  - destruct (Qlt_le_dec (d * 100) 10) as [Hlt | Hle]; [| exact Hle].
    assert (0 < ((1 # 10) - d) * i)%Q by (apply Qmult_lt_0_compat; lra).
    lra.
Qed.

Lemma loss_limit_iff (d b : Q) (p : Z) :
  (d * percent p <= d - b)%Q <-> (b <= d - d * (inject_Z p / 100))%Q.
Proof.
  change (percent p) with (inject_Z p / inject_Z 100)%Q.
  change (inject_Z 100) with 100%Q. split; intros H; lra.
Qed.

Lemma purchased_config c :
  as_purchased c ->
  exists config,
    TIER_CONFIG !! Challenge.tier c = Some config
    /\ TierConfig.max_daily_loss_percent config = 5
    /\ TierConfig.max_total_loss_percent config = 10
    /\ TierConfig.profit_target_percent config = 10
    /\ (0 < Challenge.initial_balance c)%Q
    /\ Challenge.daily_start_balance c = Challenge.initial_balance c.
Proof.
  intros (config & Hcfg & Hi & Hd). exists config.
  split; [exact Hcfg |]. rewrite Hi.
  apply TIER_CONFIG_lookup in Hcfg.
  destruct Hcfg as [[_ ->] | [[_ ->] | [_ ->]]]; simpl;
    repeat split; try reflexivity; rewrite Hd, Hi; reflexivity.
Qed.

(** The conditions of the checks after a settlement of a challenge as
    purchased, as bounds on the balance the settlement leaves. *)
Lemma hits_by_balance pl c c1 config :
  as_purchased c ->
  update_balance pl c = Some c1 ->
  TIER_CONFIG !! Challenge.tier c1 = Some config ->
  let i := Challenge.initial_balance c in
  let b := Challenge.current_balance c1 in
  (profit_target_hit config c1 = true <-> ((11 # 10) * i <= b)%Q)
  /\ (total_loss_hit config c1 = true <-> (b <= (9 # 10) * i)%Q)
  /\ (daily_loss_hit config c1 = true <-> (b <= (95 # 100) * i)%Q)
  /\ total_loss_reason config = "Exceeded 10% total loss limit"
  /\ daily_loss_reason config = "Exceeded 5% daily loss limit".
Proof.
  intros Hp Hu Hcfg.
  destruct (purchased_config c Hp)
    as (config0 & Hcfg0 & Hday & Htot & Htar & Hpos & Hd).
  destruct (update_balance_spec _ _ _ Hu)
    as (_ & Hcur & _ & Hpp & Hi1 & Hd1 & Htier & _).
  rewrite Htier in Hcfg. assert (config0 = config) as -> by congruence.
  unfold profit_target_hit, total_loss_hit, daily_loss_hit,
    total_loss_reason, daily_loss_reason.
  rewrite <- Hcur in Hpp.
  rewrite Hday, Htot, Htar, Hpp, Hi1, Hd1, Hd. simpl.
  set (i := Challenge.initial_balance c) in *.
  set (b := Challenge.current_balance c1) in *.
  rewrite !Qle_bool_iff.
  split; [apply target_reached_iff, Hpos |].
  split; [rewrite (loss_limit_iff i b 10);
          change (inject_Z 10 / 100)%Q with (10 # 100)%Q; split; intros; lra |].
  split; [rewrite (loss_limit_iff i b 5);
          change (inject_Z 5 / 100)%Q with (5 # 100)%Q; split; intros; lra |].
  split; reflexivity.
Qed.

(** Over the rationals the outcome of a settlement is read off the balance
    [b] it leaves on a challenge as purchased with initial balance [i]. *)
Lemma settlement_outcome_exact s u tid x s' t' c' c :
  close_trade s u tid x = (s', TradeClosed t' c') ->
  challenges s !! Trade.challenge_id t' = Some c ->
  as_purchased c ->
  let i := Challenge.initial_balance c in
  let b := Challenge.current_balance c' in
  (exists pl,
     Trade.profit_loss t' = Some pl
     /\ b = (Challenge.current_balance c + pl)%Q)
  /\ (((11 # 10) * i <= b)%Q ->
      Challenge.status c' = "passed"
      /\ Challenge.fail_reason c' = Challenge.fail_reason c)
  /\ ((b <= (9 # 10) * i)%Q ->
      Challenge.status c' = "failed"
      /\ Challenge.fail_reason c' = Some "Exceeded 10% total loss limit")
  /\ (((9 # 10) * i < b)%Q -> (b <= (95 # 100) * i)%Q ->
      Challenge.status c' = "failed"
      /\ Challenge.fail_reason c' = Some "Exceeded 5% daily loss limit")
  /\ (((95 # 100) * i < b)%Q -> (b < (11 # 10) * i)%Q ->
      Challenge.status c' = Challenge.status c
      /\ Challenge.fail_reason c' = Challenge.fail_reason c).
Proof.
  intros Hc Hch Hp i b.
  destruct (close_trade_closed _ _ _ _ _ _ _ Hc)
    as (t & c0 & c1 & config & _ & _ & _ & Hc0 & Hu & Hcfg & Ht' & Hc' & _).
  assert (c0 = c) as -> by (rewrite Ht' in Hch; simpl in Hch; congruence).
  destruct (hits_by_balance _ _ _ _ Hp Hu Hcfg)
    as (Htar & Htot & Hday & Hrt & Hrd).
  destruct (update_balance_spec _ _ _ Hu)
    as (_ & Hcur & _ & _ & _ & _ & _ & Hst & Hfr).
  assert (Hb : b = Challenge.current_balance c1).
  { unfold b. rewrite Hc'.
    destruct (check_rules_account config c1) as (_ & _ & _ & _ & -> & _).
    reflexivity. }
  pose proof (purchased_config c Hp) as (_ & _ & _ & _ & _ & Hpos & _).
  fold i in Hpos, Htar, Htot, Hday. rewrite <- Hb in Htar, Htot, Hday.
  rewrite Hc', check_rules_status, check_rules_fail_reason, Hrt, Hrd, Hst, Hfr.
  split; [exists (profit_loss_of t x); rewrite Ht', Hb, Hcur; split; reflexivity |].
  destruct (profit_target_hit config c1) eqn:E1,
    (total_loss_hit config c1) eqn:E2, (daily_loss_hit config c1) eqn:E3;
    repeat match goal with
      | H : true = true <-> _ |- _ => pose proof (proj1 H eq_refl); clear H
      | H : false = true <-> ?P |- _ =>
          assert (~ P) by (intros HP; apply H in HP; discriminate); clear H
      end;
    repeat split; intros; try reflexivity; exfalso; lra.
Qed.

End Thresholds.

(** ** The outcome of a settlement on a funded challenge *)

Section Outcome.
Context {F : Type} {num : Num F}.
Implicit Types (s : Store F) (c : Challenge.t F) (t : Trade.t F).
Implicit Types (config : TierConfig.t) (x : F).

(** What the arithmetic has to give on a challenge as purchased: the
    total-loss limit includes the daily-loss limit, and a loss limit that is
    reached excludes the profit target. *)
Hypothesis funded_hits :
  forall c c1 (pl : F) config,
    as_purchased c ->
    update_balance pl c = Some c1 ->
    TIER_CONFIG !! Challenge.tier c1 = Some config ->
    (total_loss_hit config c1 = true -> daily_loss_hit config c1 = true)
    /\ (daily_loss_hit config c1 = true -> profit_target_hit config c1 = false).

Lemma funded_reasons c config :
  as_purchased c ->
  TIER_CONFIG !! Challenge.tier c = Some config ->
  total_loss_reason config = "Exceeded 10% total loss limit"
  /\ daily_loss_reason config = "Exceeded 5% daily loss limit".
Proof.
  intros _ Hcfg. apply TIER_CONFIG_lookup in Hcfg.
  destruct Hcfg as [[_ ->] | [[_ ->] | [_ ->]]]; split; reflexivity.
Qed.

Lemma settlement_outcome s u tid x s' t' c' c :
  close_trade s u tid x = (s', TradeClosed t' c') ->
  challenges s !! Trade.challenge_id t' = Some c ->
  as_purchased c ->
  exists config,
    TIER_CONFIG !! Challenge.tier c' = Some config
    /\ (exists pl,
          Trade.profit_loss t' = Some pl
          /\ Challenge.current_balance c'
             = (Challenge.current_balance c + pl)%num)
    /\ (profit_target_hit config c' = true ->
        Challenge.status c' = "passed"
        /\ Challenge.fail_reason c' = Challenge.fail_reason c
        /\ total_loss_hit config c' = false
        /\ daily_loss_hit config c' = false)
    /\ (total_loss_hit config c' = true ->
        Challenge.status c' = "failed"
        /\ Challenge.fail_reason c' = Some "Exceeded 10% total loss limit"
        /\ daily_loss_hit config c' = true)
    /\ (daily_loss_hit config c' = true ->
        total_loss_hit config c' = false ->
        Challenge.status c' = "failed"
        /\ Challenge.fail_reason c' = Some "Exceeded 5% daily loss limit")
    /\ (daily_loss_hit config c' = false ->
        profit_target_hit config c' = false ->
        Challenge.status c' = Challenge.status c
        /\ Challenge.fail_reason c' = Challenge.fail_reason c).
Proof.
  intros Hc Hch Hp.
  destruct (close_trade_closed _ _ _ _ _ _ _ Hc)
    as (t & c0 & c1 & config & _ & _ & _ & Hc0 & Hu & Hcfg & Ht' & Hc' & _).
  assert (c0 = c) as -> by (rewrite Ht' in Hch; simpl in Hch; congruence).
  destruct (funded_hits c c1 _ config Hp Hu Hcfg) as [Htd Hdt].
  destruct (update_balance_spec _ _ _ Hu)
    as (_ & Hcur & _ & _ & _ & _ & Htier & Hst & Hfr).
  pose proof (check_rules_account config c1) as Hacc.
  assert (Hcfg' : TIER_CONFIG !! Challenge.tier c = Some config)
    by (rewrite <- Htier; exact Hcfg).
  destruct (funded_reasons c config Hp Hcfg') as [Hrt Hrd].
  exists config. subst c'.
  rewrite (same_account_target config c1) by exact Hacc.
  rewrite (same_account_total config c1) by exact Hacc.
  rewrite (same_account_daily config c1) by exact Hacc.
  rewrite check_rules_status, check_rules_fail_reason, Hrt, Hrd, Hst, Hfr.
  destruct Hacc as (_ & _ & -> & _ & -> & _).
  split; [exact Hcfg |].
  split; [exists (profit_loss_of t x); rewrite Ht', Hcur; split; reflexivity |].
  destruct (profit_target_hit config c1) eqn:E1,
    (total_loss_hit config c1) eqn:E2, (daily_loss_hit config c1) eqn:E3;
    try (specialize (Htd eq_refl)); try (specialize (Hdt eq_refl));
    try discriminate; repeat split; intros; try reflexivity; discriminate.
Qed.

(** The total-loss check in [close_trade], for any challenge. *)
Lemma total_loss_overwrites s u tid x s' t' c' config :
  close_trade s u tid x = (s', TradeClosed t' c') ->
  TIER_CONFIG !! Challenge.tier c' = Some config ->
  total_loss_hit config c' = true ->
  Challenge.fail_reason c'
  = Some ("Exceeded "
          ++ Py.str_int (TierConfig.max_total_loss_percent config)
          ++ "% total loss limit")
  /\ Challenge.status c'
     = (if profit_target_hit config c' then "passed" else "failed")
  /\ forall c0,
       total_loss_hit config c0 = true ->
       Challenge.status (check_total_loss config (check_daily_loss config c0))
       = "failed"
       /\ Challenge.fail_reason
            (check_total_loss config (check_daily_loss config c0))
          = Some (total_loss_reason config).
Proof.
  intros Hc Hcfg Htot.
  destruct (close_trade_challenge _ _ _ _ _ _ _ _ Hc Hcfg)
    as (t & c & c1 & _ & _ & Hu & -> & Hacc & _ & _).
  rewrite (same_account_total config c1) in Htot by exact Hacc.
  rewrite (same_account_target config c1) by exact Hacc.
  split; [| split].
  - rewrite check_rules_fail_reason, Htot. reflexivity.
  - rewrite check_rules_status, Htot.
    destruct (profit_target_hit config c1); reflexivity.
  - intros c0 H0.
    rewrite check_total_loss_spec.
    rewrite (same_account_total config c0) by apply check_daily_loss_account.
    rewrite H0. split; reflexivity.
Qed.

(** With the initial balance of the tier the status is ['failed']. *)
Lemma total_loss_fails s u tid x s' t' c' config :
  (forall name c c1 (pl : F),
     TIER_CONFIG !! name = Some config ->
     Challenge.initial_balance c
     = of_int (TierConfig.initial_balance config) ->
     update_balance pl c = Some c1 ->
     total_loss_hit config c1 = true -> profit_target_hit config c1 = false) ->
  close_trade s u tid x = (s', TradeClosed t' c') ->
  TIER_CONFIG !! Challenge.tier c' = Some config ->
  Challenge.initial_balance c' = of_int (TierConfig.initial_balance config) ->
  total_loss_hit config c' = true ->
  Challenge.status c' = "failed".
Proof.
  intros Hex Hc Hcfg Hi Htot.
  destruct (close_trade_challenge _ _ _ _ _ _ _ _ Hc Hcfg)
    as (t & c & c1 & _ & _ & Hu & -> & Hacc & _ & _).
  rewrite (same_account_total config c1) in Htot by exact Hacc.
  rewrite check_rules_status, Htot.
  destruct Hacc as (_ & _ & _ & Hinit & _). rewrite Hinit in Hi.
  destruct (update_balance_spec _ _ _ Hu) as (_ & _ & _ & _ & Hi1 & _).
  rewrite Hi1 in Hi.
  rewrite (Hex _ c c1 _ Hcfg Hi Hu Htot). reflexivity.
Qed.

End Outcome.

Lemma Q_funded_hits {uni : Unicode} (c c1 : Challenge.t Q) (pl : Q) config :
  as_purchased c ->
  update_balance pl c = Some c1 ->
  TIER_CONFIG !! Challenge.tier c1 = Some config ->
  (total_loss_hit config c1 = true -> daily_loss_hit config c1 = true)
  /\ (daily_loss_hit config c1 = true -> profit_target_hit config c1 = false).
Proof.
  intros Hp Hu Hcfg.
  destruct (hits_by_balance _ _ _ _ Hp Hu Hcfg) as (Htar & Htot & Hday & _).
  destruct (purchased_config c Hp) as (_ & _ & _ & _ & _ & Hpos & _).
  cbv zeta in Htar, Htot, Hday.
  split.
  - intros H. apply Htot in H. apply Hday. lra.
  - intros H. apply Hday in H.
    destruct (profit_target_hit config c1); [| reflexivity].
    pose proof (proj1 Htar eq_refl). lra.
Qed.

Lemma binary64_funded_hits (c c1 : Challenge.t float) (pl : float) config :
  as_purchased c ->
  update_balance pl c = Some c1 ->
  TIER_CONFIG !! Challenge.tier c1 = Some config ->
  (total_loss_hit config c1 = true -> daily_loss_hit config c1 = true)
  /\ (daily_loss_hit config c1 = true -> profit_target_hit config c1 = false).
Proof.
  intros (config0 & Hcfg0 & Hi & Hd) Hu Hcfg.
  destruct (update_balance_spec _ _ _ Hu)
    as (_ & _ & _ & _ & _ & _ & Htier & _).
  rewrite Htier in Hcfg. assert (config0 = config) as -> by congruence.
  destruct (binary64_hits _ _ _ _ _ Hcfg Hi Hu) as (_ & H).
  destruct (H Hd) as [Hdt Htd]. split; assumption.
Qed.

(** C4. In [close_trade] the total-loss check comes after the daily-loss
    check and before the profit-target check.  In every arithmetic: whenever
    the total loss reaches the limit of the tier, the total-loss check sets
    status ['failed'] and the reason "Exceeded N% total loss limit" (N the
    tier's [max_total_loss_percent]), also when the daily-loss check wrote
    its own reason just before; the settled challenge ends with that reason,
    and with status ['failed'] unless the profit-target check that follows
    fires.  Over the rationals with a positive initial balance, and in
    binary64 with the initial balance of the tier (any current balance,
    infinities and NaN included), the profit target cannot be reached by
    the same balance, and the status is ['failed']. *)
Theorem total_loss_checked_after_daily_loss :
  (forall (F : Type) (num : Num F) (s : Store F) u tid (x : F) s' t' c' config,
     close_trade s u tid x = (s', TradeClosed t' c') ->
     TIER_CONFIG !! Challenge.tier c' = Some config ->
     total_loss_hit config c' = true ->
     Challenge.fail_reason c'
     = Some ("Exceeded "
             ++ Py.str_int (TierConfig.max_total_loss_percent config)
             ++ "% total loss limit")
     /\ Challenge.status c'
        = (if profit_target_hit config c' then "passed" else "failed")
     /\ forall c0 : Challenge.t F,
          total_loss_hit config c0 = true ->
          Challenge.status
            (check_total_loss config (check_daily_loss config c0))
          = "failed"
          /\ Challenge.fail_reason
               (check_total_loss config (check_daily_loss config c0))
             = Some (total_loss_reason config))
  /\ (forall (s : Store Q) u tid (x : Q) s' t' c' config,
        close_trade s u tid x = (s', TradeClosed t' c') ->
        TIER_CONFIG !! Challenge.tier c' = Some config ->
        (0 < Challenge.initial_balance c')%Q ->
        total_loss_hit config c' = true ->
        Challenge.status c' = "failed")
  /\ (forall (s : Store float) u tid (x : float) s' t' c' config,
        close_trade s u tid x = (s', TradeClosed t' c') ->
        TIER_CONFIG !! Challenge.tier c' = Some config ->
        Challenge.initial_balance c'
        = of_int (TierConfig.initial_balance config) ->
        total_loss_hit config c' = true ->
        Challenge.status c' = "failed").
Proof.
  split; [| split].
  - intros F num s u tid x s' t' c' config.
    apply total_loss_overwrites.
  - intros s u tid x s' t' c' config Hc Hcfg Hpos Htot.
    destruct (close_trade_challenge _ _ _ _ _ _ _ _ Hc Hcfg)
      as (t & c & c1 & _ & _ & Hu & -> & Hacc & _ & _).
    rewrite (same_account_total config c1) in Htot by exact Hacc.
    rewrite check_rules_status, Htot.
    destruct Hacc as (_ & _ & Htier & Hinit & _).
    rewrite Htier in Hcfg. rewrite Hinit in Hpos.
    destruct (update_balance_spec _ _ _ Hu) as (_ & _ & _ & _ & Hi & _).
    rewrite Hi in Hpos.
    rewrite (total_loss_excludes_target _ _ _ _ _ Hcfg Hu Hpos Htot).
    reflexivity.
  - intros s u tid x s' t' c' config Hc Hcfg Hi Htot.
    apply (total_loss_fails s u tid x s' t' c' config); try assumption.
    intros name c c1 pl Hn Hic Hu.
    apply (binary64_hits name config c c1 pl Hn Hic Hu).
Qed.

(** X8. What a settlement decides on a challenge as purchased (initial
    balance [i], the day started at [i]).  In binary64, with the tests of
    the code on the balance the settlement leaves, whatever that balance,
    infinities and NaN included: a profit target that is reached gives
    ['passed'], leaves the fail reason alone and excludes both loss limits;
    a total-loss limit that is reached gives ['failed'] with the 10%
    total-loss reason and includes the daily-loss limit; a daily-loss limit
    reached without the total-loss limit gives ['failed'] with the 5%
    daily-loss reason; otherwise status and fail reason stay.  So on such a
    challenge no settlement both writes a fail reason and passes.  Over the
    rationals the same, with the tests as bounds on the balance [b]:
    [b >= 1.1 i], [b <= 0.9 i], [0.9 i < b <= 0.95 i], and between. *)
Theorem settlement_outcome_by_balance :
  (forall (s : Store float) u tid (x : float) s' t' c' c,
     close_trade s u tid x = (s', TradeClosed t' c') ->
     challenges s !! Trade.challenge_id t' = Some c ->
     as_purchased c ->
     exists config,
       TIER_CONFIG !! Challenge.tier c' = Some config
       /\ (exists pl,
             Trade.profit_loss t' = Some pl
             /\ Challenge.current_balance c'
                = (Challenge.current_balance c + pl)%num)
       /\ (profit_target_hit config c' = true ->
           Challenge.status c' = "passed"
           /\ Challenge.fail_reason c' = Challenge.fail_reason c
           /\ total_loss_hit config c' = false
           /\ daily_loss_hit config c' = false)
       /\ (total_loss_hit config c' = true ->
           Challenge.status c' = "failed"
           /\ Challenge.fail_reason c' = Some "Exceeded 10% total loss limit"
           /\ daily_loss_hit config c' = true)
       /\ (daily_loss_hit config c' = true ->
           total_loss_hit config c' = false ->
           Challenge.status c' = "failed"
           /\ Challenge.fail_reason c' = Some "Exceeded 5% daily loss limit")
       /\ (daily_loss_hit config c' = false ->
           profit_target_hit config c' = false ->
           Challenge.status c' = Challenge.status c
           /\ Challenge.fail_reason c' = Challenge.fail_reason c))
  /\ (forall (s : Store Q) u tid (x : Q) s' t' c' c,
        close_trade s u tid x = (s', TradeClosed t' c') ->
        challenges s !! Trade.challenge_id t' = Some c ->
        as_purchased c ->
        let i := Challenge.initial_balance c in
        let b := Challenge.current_balance c' in
        (exists pl,
           Trade.profit_loss t' = Some pl
           /\ b = (Challenge.current_balance c + pl)%Q)
        /\ (((11 # 10) * i <= b)%Q ->
            Challenge.status c' = "passed"
            /\ Challenge.fail_reason c' = Challenge.fail_reason c)
        /\ ((b <= (9 # 10) * i)%Q ->
            Challenge.status c' = "failed"
            /\ Challenge.fail_reason c'
               = Some "Exceeded 10% total loss limit")
        /\ (((9 # 10) * i < b)%Q -> (b <= (95 # 100) * i)%Q ->
            Challenge.status c' = "failed"
            /\ Challenge.fail_reason c' = Some "Exceeded 5% daily loss limit")
        /\ (((95 # 100) * i < b)%Q -> (b < (11 # 10) * i)%Q ->
            Challenge.status c' = Challenge.status c
            /\ Challenge.fail_reason c' = Challenge.fail_reason c)).
Proof.
  split.
  - intros s u tid x s' t' c' c.
    apply settlement_outcome. intros c0 c1 pl config.
    apply binary64_funded_hits.
  - intros s u tid x s' t' c' c. apply settlement_outcome_exact.
Qed.

(** ** Settlements on sound tables *)

Section Closable.
Context {F : Type} {num : Num F} {uni : Unicode}.
Hypothesis funded :
  forall name config,
    TIER_CONFIG !! name = Some config ->
    (of_int (TierConfig.initial_balance config) == of_int 0)%num = false.

Lemma sound_close (s : Store F) u tid (x : F) t :
  sound s ->
  find_trade s tid u = Some t ->
  Trade.status t = "open" ->
  (x <= of_int 0)%num = false ->
  exists s' t' c', close_trade s u tid x = (s', TradeClosed t' c').
Proof.
  intros [Hri Hch] Ht Hs Hx.
  pose proof Ht as Ht0. apply find_trade_Some in Ht0 as [Ht0 _].
  destruct (Hri tid t Ht0) as (c & Hc & _).
  destruct (Hch _ c Hc) as [(config & Hcfg & Hi & _) _].
  assert (Hz : (Challenge.initial_balance c == of_int 0)%num = false)
    by (rewrite Hi; apply (funded _ _ Hcfg)).
  destruct (close_trade_settles _ _ _ _ _ _ _ Hx Ht Hs Hc Hz Hcfg)
    as (s' & t' & c' & _ & He & _).
  eauto.
Qed.

Lemma sound_no_server_error (s : Store F) u tid (x : F) :
  sound s -> snd (close_trade s u tid x) <> Error ServerError.
Proof.
  intros Hs.
  destruct (x <= of_int 0)%num eqn:Hx.
  { unfold close_trade. rewrite Hx. discriminate. }
  destruct (find_trade s tid u) as [t |] eqn:Ht.
  2: { unfold close_trade. rewrite Hx, Ht. discriminate. }
  destruct (String.eqb_spec (Trade.status t) "open") as [Hopen | Hclosed].
  - destruct (sound_close s u tid x t Hs Ht Hopen Hx) as (s' & t' & c' & ->).
    discriminate.
  - rewrite (close_trade_not_open _ _ _ _ _ Hx Ht Hclosed). discriminate.
Qed.

End Closable.

Lemma Q_funded name config :
  TIER_CONFIG !! name = Some config ->
  (of_int (Num:=Q_Num) (TierConfig.initial_balance config) == of_int 0)%num
  = false.
Proof.
  intros Hcfg. apply TIER_CONFIG_lookup in Hcfg.
  destruct Hcfg as [[_ ->] | [[_ ->] | [_ ->]]]; reflexivity.
Qed.

Lemma binary64_funded name config :
  TIER_CONFIG !! name = Some config ->
  (of_int (Num:=binary64_Num) (TierConfig.initial_balance config)
   == of_int 0)%num = false.
Proof.
  intros Hcfg. apply TIER_CONFIG_lookup in Hcfg.
  destruct Hcfg as [[_ ->] | [[_ ->] | [_ ->]]]; reflexivity.
Qed.

(** X9. On sound tables an open position can always be closed: for the
    owner of an open trade and an exit price that passes [exit_price <= 0],
    [close_trade] settles the trade; and once the exit price of the request
    has been read as a number, [close_trade] never answers 500, whoever calls
    it with whatever id and price.  Proved over the rationals and in
    binary64. *)
Theorem open_trade_can_be_closed :
  (forall (s : Store Q) u tid (x : Q) t,
     sound s ->
     find_trade s tid u = Some t ->
     Trade.status t = "open" ->
     (x <= of_int 0)%num = false ->
     exists s' t' c', close_trade s u tid x = (s', TradeClosed t' c'))
  /\ (forall (s : Store Q) u tid (x : Q),
        sound s -> snd (close_trade s u tid x) <> Error ServerError)
  /\ (forall (s : Store float) u tid (x : float) t,
        sound s ->
        find_trade s tid u = Some t ->
        Trade.status t = "open" ->
        (x <= of_int 0)%num = false ->
        exists s' t' c', close_trade s u tid x = (s', TradeClosed t' c'))
  /\ (forall (s : Store float) u tid (x : float),
        sound s -> snd (close_trade s u tid x) <> Error ServerError).
Proof.
  split; [| split; [| split]].
  - intros s u tid x t. apply sound_close, Q_funded.
  - intros s u tid x. apply sound_no_server_error, Q_funded.
  - intros s u tid x t. apply sound_close, binary64_funded.
  - intros s u tid x. apply sound_no_server_error, binary64_funded.
Qed.

(** ** The read-only handlers *)

Section QueryFacts.
Context {F : Type} {num : Num F} {uni : Unicode}.
Variable challenge_created_date : Challenge.t F -> Z.
Variable trade_created_date : Trade.t F -> Z.
Variable int_of_param : string -> option Z.
Variable full_name : Z -> option string.
Variable round2 : F -> F.
Implicit Types (s : Store F) (c : Challenge.t F) (t : Trade.t F).

Lemma rows_elem_of {A : Type} (m : gmap Z A) (x : A) :
  x ∈ (map_to_list m).*2 <-> exists k, m !! k = Some x.
Proof.
  rewrite list_elem_of_fmap. split.
  - intros ([k y] & -> & Hin). exists k. apply elem_of_map_to_list, Hin.
  - intros [k Hk]. exists (k, x). split; [reflexivity |].
    apply elem_of_map_to_list, Hk.
Qed.

Lemma py_nonempty_empty : py_nonempty (Some "") = None.
Proof. reflexivity. Qed.

#[local] Instance newest_challenge_first_total :
  Total (newest_challenge_first challenge_created_date).
Proof. intros a b. unfold newest_challenge_first. lia. Qed.

#[local] Instance newest_trade_first_total :
  Total (newest_trade_first trade_created_date).
Proof. intros a b. unfold newest_trade_first. lia. Qed.

(** X10. [get_challenge] answers to the owner only, and the owner reads
    back what the other handlers wrote: the challenge just created, under
    its id, and (on tables with referential integrity) the challenge just
    settled.  Any other caller gets 'Challenge not found', as for an id
    that does not exist. *)
Theorem get_challenge_reads_back s u :
  (forall cid c,
     get_challenge s u cid = inl c <->
     challenges s !! cid = Some c /\ Challenge.user_id c = u)
  /\ (forall cid,
        (forall c, challenges s !! cid = Some c -> Challenge.user_id c <> u) ->
        get_challenge s u cid = inr ChallengeNotFound)
  /\ (forall tier pm s' c,
        create_challenge s u tier pm = (s', ChallengeCreated c) ->
        get_challenge s' u (Challenge.id c) = inl c)
  /\ (forall tid x s' t' c',
        referential_integrity s ->
        close_trade s u tid x = (s', TradeClosed t' c') ->
        get_challenge s' u (Trade.challenge_id t') = inl c').
Proof.
  assert (Hiff : forall (s0 : Store F) cid c,
             get_challenge s0 u cid = inl c <->
             challenges s0 !! cid = Some c /\ Challenge.user_id c = u).
  { intros s0 cid c. unfold get_challenge. rewrite <- find_challenge_Some.
    destruct (find_challenge s0 cid u); split; congruence. }
  split; [apply Hiff |]. split; [| split].
  - intros cid Hother. unfold get_challenge.
    destruct (find_challenge s cid u) as [c |] eqn:Hc; [| reflexivity].
    apply find_challenge_Some in Hc as [Hc Hu]. destruct (Hother c Hc Hu).
  - intros tier pm s' c Hc. apply Hiff.
    destruct (create_challenge_created _ _ _ _ _ _ Hc)
      as (config & stored & _ & _ & _ & Hceq & ->).
    subst c. simpl. split; [apply lookup_insert_eq | reflexivity].
  - intros tid x s' t' c' Hri Hc. apply Hiff.
    destruct (close_trade_closed _ _ _ _ _ _ _ Hc)
      as (t & c & c1 & config & _ & Ht & _ & Hch & Hu & _ & -> & -> & ->).
    simpl. split; [apply lookup_insert_eq |].
    apply find_trade_Some in Ht as [Ht Hown].
    destruct (Hri tid t Ht) as (c2 & Hc2 & Hown2).
    assert (c2 = c) as -> by congruence.
    pose proof (settlement_terms _ _ _ config Hu) as (_ & -> & _).
    congruence.
Qed.

(** X11. [get_challenges] lists exactly the challenges of the caller, and
    among them those whose status is the [status] parameter when it is
    present and not empty; an empty [status] filters nothing.  The list is
    ordered by creation date, newest first. *)
Theorem get_challenges_lists_own s u status :
  (forall c,
     c ∈ get_challenges challenge_created_date s u status <->
     (exists cid, challenges s !! cid = Some c)
     /\ Challenge.user_id c = u
     /\ (forall st, py_nonempty status = Some st -> Challenge.status c = st))
  /\ Sorted (newest_challenge_first challenge_created_date)
       (get_challenges challenge_created_date s u status)
  /\ get_challenges challenge_created_date s u (Some "")
     = get_challenges challenge_created_date s u None.
Proof.
  split; [| split].
  - intros c. unfold get_challenges. rewrite merge_sort_Permutation.
    destruct (py_nonempty status) as [st |].
    + rewrite !list_elem_of_filter, rows_elem_of. split.
      * intros (Hst & Hu & Hc). repeat split; try assumption.
        intros st' [= <-]. exact Hst.
      * intros (Hc & Hu & Hst). repeat split; auto.
    + rewrite list_elem_of_filter, rows_elem_of. split.
      * intros (Hu & Hc). repeat split; try assumption. discriminate.
      * intros (Hc & Hu & _). split; assumption.
  - unfold get_challenges. apply Sorted_merge_sort, _.
  - reflexivity.
Qed.

(** X12. [get_trades] answers 500 exactly when [challenge_id] is present,
    not empty and rejected by the database.  Otherwise it lists exactly the
    trades of the caller that belong to that challenge (when [challenge_id]
    is given) and have that status (when [status] is given), newest
    first. *)
Theorem get_trades_lists_own s u challenge_id status :
  match
    get_trades trade_created_date int_of_param s u challenge_id status
  with
  | inr e =>
    e = ServerError
    /\ exists p, py_nonempty challenge_id = Some p /\ int_of_param p = None
  | inl l =>
    (forall p, py_nonempty challenge_id = Some p -> is_Some (int_of_param p))
    /\ (forall t,
          t ∈ l <->
          (exists tid, trades s !! tid = Some t)
          /\ Trade.user_id t = u
          /\ (forall p,
                py_nonempty challenge_id = Some p ->
                int_of_param p = Some (Trade.challenge_id t))
          /\ (forall st, py_nonempty status = Some st -> Trade.status t = st))
    /\ Sorted (newest_trade_first trade_created_date) l
  end.
Proof.
  unfold get_trades.
  assert (Hst : forall (l : list (Trade.t F)) t,
             (t ∈ match py_nonempty status with
                  | Some st => filter (fun t => Trade.status t = st) l
                  | None => l
                  end) <->
             t ∈ l
             /\ (forall st, py_nonempty status = Some st -> Trade.status t = st)).
  { intros l t. destruct (py_nonempty status) as [st |].
    - rewrite list_elem_of_filter. split.
      + intros [H1 H2]. split; [exact H2 |]. intros st' [= <-]. exact H1.
      + intros [H1 H2]. split; [apply H2; reflexivity | exact H1].
    - split; [intros H; split; [exact H | discriminate] | intros [H _]; exact H]. }
  destruct (py_nonempty challenge_id) as [p |].
  - destruct (int_of_param p) as [cid |] eqn:Hp.
    + split; [intros p' [= <-]; rewrite Hp; eauto |].
      split; [| apply Sorted_merge_sort, _].
      intros t. rewrite merge_sort_Permutation, Hst.
      rewrite !list_elem_of_filter, rows_elem_of. split.
      * intros ((Hc & Hu & Ht) & Hs). repeat split; try assumption.
        intros p' [= <-]. congruence.
      * intros (Ht & Hu & Hc & Hs). repeat split; try assumption.
        specialize (Hc p eq_refl). congruence.
    + split; [reflexivity | eauto].
  - split; [discriminate |]. split; [| apply Sorted_merge_sort, _].
    intros t. rewrite merge_sort_Permutation, Hst.
    rewrite list_elem_of_filter, rows_elem_of. split.
    + intros ((Hu & Ht) & Hs). repeat split; try assumption. discriminate.
    + intros (Ht & Hu & _ & Hs). repeat split; assumption.
Qed.

Lemma trader_name_nonempty u : trader_name full_name u <> "".
Proof.
  unfold trader_name, py_nonempty.
  destruct (full_name u) as [[| a r] |]; discriminate.
Qed.

(** X13. [get_leaderboard] shows at most 100 entries, ranked 1, 2, 3, ...
    in the order of the list; every entry is an ['active'] challenge of the
    table, with its current balance, its tier, its rounded profit percentage,
    and the full name of its owner or 'Anonymous' (never an empty name).
    When no more than 100 challenges are active, each of them is shown. *)
Theorem leaderboard_ranks_active s :
  let board := get_leaderboard full_name round2 s in
  (length board <= 100)%nat
  /\ (forall i e,
        board !! i = Some e ->
        LeaderboardEntry.rank e = Z.of_nat i + 1
        /\ LeaderboardEntry.trader e <> ""
        /\ exists cid c,
             challenges s !! cid = Some c
             /\ Challenge.status c = "active"
             /\ e = LeaderboardEntry.mk (Z.of_nat i + 1)
                      (trader_name full_name (Challenge.user_id c))
                      (round2 (Challenge.profit_percent c))
                      (Challenge.current_balance c) (Challenge.tier c))
  /\ ((length (filter (fun c => Challenge.status c = "active")
                 (map_to_list (challenges s)).*2) <= 100)%nat ->
      forall cid c,
        challenges s !! cid = Some c ->
        Challenge.status c = "active" ->
        exists i,
          board !! i
          = Some (LeaderboardEntry.mk (Z.of_nat i + 1)
                    (trader_name full_name (Challenge.user_id c))
                    (round2 (Challenge.profit_percent c))
                    (Challenge.current_balance c) (Challenge.tier c))).
Proof.
  intros board. unfold board, get_leaderboard.
  set (l := filter (fun c => Challenge.status c = "active")
              (map_to_list (challenges s)).*2).
  set (cs := take 100 (merge_sort best_first l)).
  assert (Hin : forall c, c ∈ l <->
                  Challenge.status c = "active"
                  /\ exists cid, challenges s !! cid = Some c).
  { intros c. unfold l. rewrite list_elem_of_filter, rows_elem_of. tauto. }
  split; [| split].
  - rewrite length_imap. unfold cs. rewrite length_take. lia.
  - intros i e He. rewrite list_lookup_imap in He.
    destruct (cs !! i) as [c |] eqn:Hc; [| discriminate].
    injection He as <-. simpl.
    split; [reflexivity |]. split; [apply trader_name_nonempty |].
    assert (c ∈ l) as Hl.
    { apply list_elem_of_lookup_2 in Hc. unfold cs in Hc.
      apply subseteq_take in Hc. rewrite merge_sort_Permutation in Hc.
      exact Hc. }
    apply Hin in Hl as [Hact [cid Hcid]]. exists cid, c. auto.
  - intros Hlen cid c Hc Hact.
    assert (c ∈ cs) as Hcs.
    { unfold cs. rewrite take_ge.
      - rewrite merge_sort_Permutation. apply Hin. eauto.
      - rewrite merge_sort_Permutation. exact Hlen. }
    apply list_elem_of_lookup_1 in Hcs as [i Hi]. exists i.
    rewrite list_lookup_imap, Hi. reflexivity.
Qed.

End QueryFacts.

(** ** The order of the leaderboard *)

Section LeaderboardOrder.
Context {F : Type} {num : Num F} {ord : NumOrder F} {cmp : NumCompare F}.
Variable full_name : Z -> option string.
Variable round2 : F -> F.

(** The order of [float8] is total and transitive. *)
Lemma float8_le_total (a b : F) :
  float8_le a b = true \/ float8_le b a = true.
Proof.
  unfold float8_le.
  destruct (b == b)%num eqn:Hb; [| left; reflexivity].
  destruct (a == a)%num eqn:Ha; [| right; reflexivity].
  destruct (b < a)%num eqn:Hlt.
  - right. apply num_leb_of_not_ltb; [exact Ha | exact Hb |].
    apply num_ltb_asym, Hlt.
  - left. apply num_leb_of_not_ltb; assumption.
Qed.

Lemma float8_le_trans (a b c : F) :
  float8_le a b = true -> float8_le b c = true -> float8_le a c = true.
Proof.
  unfold float8_le.
  destruct (c == c)%num eqn:Hc; [| reflexivity].
  destruct (b == b)%num eqn:Hb; [| discriminate].
  destruct (a == a)%num eqn:Ha; [| discriminate].
  apply num_leb_trans.
Qed.

(** Below a number there are only numbers, in the order of the
    arithmetic. *)
Lemma float8_le_number (a b : F) :
  float8_le a b = true -> is_number b -> (a <= b)%num = true.
Proof.
  unfold float8_le, is_number. intros H Hb. rewrite Hb in H.
  destruct (a == a)%num; [exact H | discriminate].
Qed.

#[local] Instance best_first_total : Total (best_first (F:=F)).
Proof. intros a b. unfold best_first. apply float8_le_total. Qed.

#[local] Instance best_first_trans : Transitive (best_first (F:=F)).
Proof.
  intros a b c. unfold best_first. intros H1 H2.
  eapply float8_le_trans; eassumption.
Qed.

(** X14. The leaderboard is in descending order of profit, in every
    arithmetic with the laws of [NumOrder] and [NumCompare], binary64
    included, in the order the database sorts with (NaN first): with a
    rounding that keeps that order, an entry never shows a higher profit
    percentage than an entry ranked before it; when the earlier entry shows
    a number, the later one shows a number that is [<=] it. *)
Theorem leaderboard_descending (s : Store F) i j ei ej :
  (forall a b : F,
     float8_le a b = true -> float8_le (round2 a) (round2 b) = true) ->
  (i < j)%nat ->
  get_leaderboard full_name round2 s !! i = Some ei ->
  get_leaderboard full_name round2 s !! j = Some ej ->
  (LeaderboardEntry.rank ei < LeaderboardEntry.rank ej)%Z
  /\ float8_le (LeaderboardEntry.profit_percent ej)
       (LeaderboardEntry.profit_percent ei) = true
  /\ (is_number (LeaderboardEntry.profit_percent ei) ->
      (LeaderboardEntry.profit_percent ej
       <= LeaderboardEntry.profit_percent ei)%num = true).
Proof.
  intros Hmono Hij. unfold get_leaderboard.
  set (cs := take 100 _).
  rewrite !list_lookup_imap.
  destruct (cs !! i) as [ci |] eqn:Hi; [| discriminate].
  destruct (cs !! j) as [cj |] eqn:Hj; [| discriminate].
  intros [= <-] [= <-]. simpl. split; [lia |].
  assert (Hle : float8_le (round2 (Challenge.profit_percent cj))
                  (round2 (Challenge.profit_percent ci)) = true).
  { apply Hmono.
    assert (Hsorted : StronglySorted best_first cs).
    { unfold cs. eapply StronglySorted_app_1_l.
      rewrite take_drop. apply StronglySorted_merge_sort; apply _. }
    rewrite <- (take_drop_middle cs j cj Hj) in Hsorted.
    assert (ci ∈ take j cs) as Hin.
    { apply list_elem_of_lookup. exists i.
      rewrite lookup_take_lt by exact Hij. exact Hi. }
    exact (StronglySorted_app_1_elem_of _ _ _ ci cj Hsorted Hin
             ltac:(left)). }
  split; [exact Hle | apply float8_le_number, Hle].
Qed.

End LeaderboardOrder.

(** ** The ledger *)

Section Ledger.
Context {uni : Unicode}.
Implicit Types (s : Store Q) (c : Challenge.t Q) (t : Trade.t Q).
Implicit Types (m : gmap Z (Trade.t Q)).

(** The sum that [realized] takes, over any list of trades. *)
Lemma realized_sum_perm cid (l l' : list (Trade.t Q)) :
  l ≡ₚ l' ->
  (foldr (fun t acc => (contribution cid t + acc)%num) (of_int 0) l
   == foldr (fun t acc => (contribution cid t + acc)%num) (of_int 0) l')%Q.
Proof.
  induction 1 as [| t l l' _ IH | t1 t2 l | l1 l2 l3 _ IH1 _ IH2]; simpl.
  - reflexivity.
  - rewrite IH. reflexivity.
  - ring.
  - rewrite IH1. exact IH2.
Qed.

Lemma realized_insert_new cid m k t :
  m !! k = None ->
  (foldr (fun t acc => (contribution cid t + acc)%num) (of_int 0)
     (map_to_list (<[k := t]> m)).*2
   == contribution cid t
      + foldr (fun t acc => (contribution cid t + acc)%num) (of_int 0)
          (map_to_list m).*2)%Q.
Proof.
  intros Hk.
  rewrite (realized_sum_perm cid _ (t :: (map_to_list m).*2)); [reflexivity |].
  change (t :: (map_to_list m).*2) with (((k, t) :: map_to_list m).*2).
  apply fmap_Permutation, map_to_list_insert, Hk.
Qed.

Lemma realized_insert_old cid m k t t' :
  m !! k = Some t ->
  (foldr (fun t acc => (contribution cid t + acc)%num) (of_int 0)
     (map_to_list (<[k := t']> m)).*2
   + contribution cid t
   == foldr (fun t acc => (contribution cid t + acc)%num) (of_int 0)
        (map_to_list m).*2
      + contribution cid t')%Q.
Proof.
  intros Hk.
  rewrite <- (insert_delete_eq m k t').
  rewrite <- (insert_id m k t Hk) at 2.
  rewrite <- (insert_delete_eq m k t).
  rewrite !realized_insert_new by apply lookup_delete_eq.
  ring.
Qed.

Lemma realized_none cid (l : list (Trade.t Q)) :
  (forall t, t ∈ l -> Trade.challenge_id t <> cid) ->
  (foldr (fun t acc => (contribution cid t + acc)%num) (of_int 0) l == 0)%Q.
Proof.
  induction l as [| t l IH]; intros Hl; simpl; [reflexivity |].
  rewrite IH by (intros t0 H0; apply Hl; right; exact H0).
  unfold contribution.
  rewrite bool_decide_eq_false_2 by (apply Hl; left). reflexivity.
Qed.

Lemma contribution_open cid t : Trade.status t = "open" -> contribution cid t = 0%Q.
Proof.
  intros Hs. unfold contribution. rewrite Hs, andb_false_r. reflexivity.
Qed.

Lemma contribution_closed x pl t :
  contribution (Trade.challenge_id t) (Trade.close x pl t) = pl.
Proof.
  unfold contribution. simpl. rewrite bool_decide_eq_true_2 by reflexivity.
  reflexivity.
Qed.

Lemma contribution_other cid t :
  Trade.challenge_id t <> cid -> contribution cid t = 0%Q.
Proof.
  intros Hne. unfold contribution.
  rewrite bool_decide_eq_false_2 by exact Hne. reflexivity.
Qed.

Lemma ledger_eq (a b : Q) : (a == b)%num = true <-> (a == b)%Q.
Proof. apply Qeq_bool_iff. Qed.

Lemma handle_ledger s (r : Request Q) :
  referential_integrity s -> ledger_balanced s ->
  ledger_balanced (fst (handle s r)).
Proof.
  intros Hri Hbal.
  destruct (handle_step s r)
    as [-> | [(c0 & Hnew & _ & _ & _ & Hcur & ->)
       | [(t0 & c0 & Hnew & _ & Hopen & _ & _ & ->)
       | (tid0 & x & t0 & c0 & c1 & config & Ht0 & _ & Hopen & Hc0 & Hup & _
          & ->)]]];
    [exact Hbal | | |]; intros cid c Hc; apply ledger_eq;
    unfold realized; simpl in *.
  - apply lookup_insert_Some in Hc as [[<- <-] | [_ Hc]].
    + rewrite realized_none, Hcur; [ring |].
      intros t Ht Heq. apply rows_elem_of in Ht as [tid Ht].
      destruct (Hri tid t Ht) as (c & Hc & _). congruence.
    + apply ledger_eq, (Hbal cid c Hc).
  - rewrite realized_insert_new by exact Hnew.
    rewrite (contribution_open cid t0 Hopen).
    pose proof (proj1 (ledger_eq _ _) (Hbal cid c Hc)) as H. unfold realized in H.
    simpl in H |- *. lra.
  - pose proof (realized_insert_old cid (trades s) tid0 t0
                  (Trade.close x (profit_loss_of t0 x) t0) Ht0) as Hsum.
    rewrite (contribution_open cid t0 Hopen) in Hsum.
    destruct (decide (Trade.challenge_id t0 = cid)) as [<- | Hne].
    + rewrite lookup_insert_eq in Hc. injection Hc as <-.
      rewrite contribution_closed in Hsum.
      destruct (check_rules_account config c1) as (_ & _ & _ & -> & -> & _).
      destruct (update_balance_spec _ _ _ Hup) as (_ & -> & _ & _ & -> & _).
      pose proof (proj1 (ledger_eq _ _) (Hbal _ c0 Hc0)) as H.
      unfold realized in H. simpl in H, Hsum |- *. lra.
    + rewrite lookup_insert_ne in Hc by exact Hne.
      rewrite contribution_other in Hsum by (simpl; exact Hne).
      pose proof (proj1 (ledger_eq _ _) (Hbal cid c Hc)) as H.
      unfold realized in H. simpl in H, Hsum |- *. lra.
Qed.

(** Over the rationals the ledger balances in closed form: on tables with
    referential integrity where every current balance equals the initial
    balance plus the profit and loss recorded on the closed trades of the
    challenge, the same holds after any sequence of requests. *)
Lemma ledger_balanced_exact s (rs : list (Request Q)) :
  referential_integrity s ->
  ledger_balanced s ->
  ledger_balanced (run s rs).
Proof.
  revert s. induction rs as [| r rs IH]; intros s Hri Hbal; [exact Hbal |].
  rewrite run_step. apply IH.
  - apply handle_referential_integrity, Hri.
  - apply handle_ledger; assumption.
Qed.

End Ledger.

Section Credits.
Context {F : Type} {num : Num F} {uni : Unicode}.
Implicit Types (s : Store F) (c : Challenge.t F) (t : Trade.t F).
Implicit Types (r : Request F) (rs : list (Request F)).

(** A row that is not open stays as it is. *)
Lemma run_closed_trade s rs tid t :
  trades s !! tid = Some t ->
  Trade.status t <> "open" ->
  trades (run s rs) !! tid = Some t.
Proof.
  revert s. induction rs as [| r rs IH]; intros s Ht Hs; [exact Ht |].
  rewrite run_step. apply IH; [| exact Hs].
  destruct (handle_trade s r tid t Ht) as (t' & Ht' & [-> | (Hopen & _)]);
    [exact Ht' | contradiction].
Qed.

(** One request: the balance of a challenge moves by what the response
    credits to it, and what is credited is recorded on a closed trade of the
    challenge. *)
Lemma handle_credit s r cid c :
  challenges s !! cid = Some c ->
  exists c',
    challenges (fst (handle s r)) !! cid = Some c'
    /\ Challenge.current_balance c'
       = fold_left num_add (credit cid (snd (handle s r)))
           (Challenge.current_balance c)
    /\ Forall
         (fun pl =>
            exists tid t,
              trades (fst (handle s r)) !! tid = Some t
              /\ Trade.challenge_id t = cid
              /\ Trade.status t = "closed"
              /\ Trade.profit_loss t = Some pl)
         (credit cid (snd (handle s r))).
Proof.
  intros Hc.
  destruct r as [u tier pm | u k sym ty q p | u tid x]; simpl.
  - destruct (create_challenge_response s u tier pm)
      as [[e He] | (s' & c0 & Hcr)].
    + rewrite He. simpl. exists c. repeat split; [exact Hc | constructor].
    + rewrite Hcr. simpl.
      destruct (create_challenge_created _ _ _ _ _ _ Hcr)
        as (config & stored & _ & _ & _ & -> & ->).
      simpl. exists c. split; [| split; [reflexivity | constructor]].
      rewrite lookup_insert_ne; [exact Hc |].
      intros Heq. pose proof (fresh_challenge_id s) as Hf.
      rewrite Heq in Hf. congruence.
  - destruct (execute_trade_response s u k sym ty q p)
      as [[e He] | (s' & t & He)].
    + rewrite He. simpl. exists c. repeat split; [exact Hc | constructor].
    + pose proof (execute_trade_challenges s u k sym ty q p) as Hch.
      rewrite He in Hch |- *. simpl in Hch |- *. rewrite Hch.
      exists c. repeat split; [exact Hc | constructor].
  - destruct (close_trade_response s u tid x)
      as [[e He] | (s' & t' & c' & Hcl)].
    + rewrite He. simpl. exists c. repeat split; [exact Hc | constructor].
    + rewrite Hcl. simpl.
      destruct (close_trade_closed _ _ _ _ _ _ _ Hcl)
        as (t & c0 & c1 & config & _ & _ & _ & Hc0 & Hu & _ & -> & -> & ->).
      simpl.
      destruct (bool_decide_reflect (Trade.challenge_id t = cid))
        as [Heq | Hne].
      * rewrite Heq in Hc0 |- *. assert (c0 = c) as -> by congruence.
        rewrite lookup_insert_eq. eexists. split; [reflexivity |].
        split.
        -- destruct (check_rules_account config c1)
             as (_ & _ & _ & _ & -> & _).
           destruct (update_balance_spec _ _ _ Hu) as (_ & -> & _).
           reflexivity.
        -- constructor; [| constructor].
           exists tid, (Trade.close x (profit_loss_of t x) t).
           split; [apply lookup_insert_eq |]. repeat split. exact Heq.
      * rewrite lookup_insert_ne by exact Hne.
        exists c. repeat split; [exact Hc | constructor].
Qed.

End Credits.

(** X15. The balance of a challenge is its ledger, added up in the order
    of the settlements.  In every arithmetic, so bit for bit in binary64:
    after any sequence of requests the current balance of a challenge is
    the balance it had with the profits and losses of the settlements of its
    trades added one after the other, in the order of the requests; every
    amount added is the profit or loss recorded on a closed trade of the
    challenge; no other request moves the balance.  Over the rationals,
    where the order of the additions does not matter, the balance is the
    initial balance plus the sum over the closed trades of the table. *)
Theorem ledger_stays_balanced :
  (forall (F : Type) (num : Num F) (uni : Unicode) (s : Store F)
          (rs : list (Request F)) cid c,
     challenges s !! cid = Some c ->
     exists c',
       challenges (run s rs) !! cid = Some c'
       /\ Challenge.current_balance c'
          = fold_left num_add (credited s rs cid)
              (Challenge.current_balance c)
       /\ Forall
            (fun pl =>
               exists tid t,
                 trades (run s rs) !! tid = Some t
                 /\ Trade.challenge_id t = cid
                 /\ Trade.status t = "closed"
                 /\ Trade.profit_loss t = Some pl)
            (credited s rs cid))
  /\ (forall (uni : Unicode) (s : Store Q) (rs : list (Request Q)),
        referential_integrity s ->
        ledger_balanced s ->
        ledger_balanced (run s rs)).
Proof.
  split.
  - intros F num uni s rs. revert s.
    induction rs as [| r rs IH]; intros s cid c Hc.
    + exists c. repeat split; [exact Hc | constructor].
    + rewrite run_step. cbn [credited].
      destruct (handle_credit s r cid c Hc) as (c1 & Hc1 & Hcur & Hrec).
      destruct (IH _ cid c1 Hc1) as (c' & Hc' & Hcur' & Hrec').
      exists c'. split; [exact Hc' |]. split.
      * rewrite fold_left_app, <- Hcur. exact Hcur'.
      * apply Forall_app. split; [| exact Hrec'].
        eapply Forall_impl; [exact Hrec |].
        intros pl (tid & t & Ht & Hcid & Hst & Hpl).
        exists tid, t. split; [| repeat split; assumption].
        apply run_closed_trade; [exact Ht |]. rewrite Hst. discriminate.
  - intros uni s rs. apply ledger_balanced_exact.
Qed.

(** ** Challenges that are no longer active *)

Section Inactive.
Context {F : Type} {num : Num F} {uni : Unicode}.
Implicit Types (s : Store F) (c : Challenge.t F).

Lemma handle_inactive s (r : Request F) cid c :
  challenges s !! cid = Some c ->
  Challenge.status c <> "active" ->
  exists c',
    challenges (fst (handle s r)) !! cid = Some c'
    /\ Challenge.status c' <> "active".
Proof.
  intros Hc Hst.
  destruct (handle_challenge s r cid c Hc)
    as (c' & Hc' & [-> | (tid & t & x & c1 & config & _ & _ & _ & Hu & _ & ->)]);
    [eauto |].
  eexists. split; [exact Hc' |].
  destruct (update_balance_spec _ _ _ Hu)
    as (_ & _ & _ & _ & _ & _ & _ & Hs1 & _).
  rewrite check_rules_status, Hs1.
  destruct (profit_target_hit config c1), (total_loss_hit config c1),
    (daily_loss_hit config c1); try discriminate; exact Hst.
Qed.

(** X16. No way back to ['active'].  A challenge whose status is not
    ['active'] stays so over any sequence of requests (a settlement can still
    move it between ['failed'] and ['passed']), and [execute_trade] never
    opens a trade on it again: it answers with an error and leaves the tables
    as they are. *)
Theorem inactive_is_final s (rs : list (Request F)) cid c :
  challenges s !! cid = Some c ->
  Challenge.status c <> "active" ->
  exists c',
    challenges (run s rs) !! cid = Some c'
    /\ Challenge.status c' <> "active"
    /\ forall u sym ty (q p : F),
         exists e,
           execute_trade (run s rs) u cid sym ty q p = (run s rs, Error e).
Proof.
  intros Hc Hst.
  assert (Hrun : exists c',
             challenges (run s rs) !! cid = Some c'
             /\ Challenge.status c' <> "active").
  { revert s c Hc Hst. induction rs as [| r rs IH]; intros s c Hc Hst.
    - eauto.
    - rewrite run_step.
      destruct (handle_inactive s r cid c Hc Hst) as (c1 & Hc1 & Hst1).
      apply (IH _ _ Hc1 Hst1). }
  destruct Hrun as (c' & Hc' & Hst'). exists c'.
  split; [exact Hc' |]. split; [exact Hst' |].
  intros u sym ty q p.
  destruct (execute_trade_response (run s rs) u cid sym ty q p)
    as [He | (s' & t & He)]; [exact He |].
  destruct (execute_trade_executed _ _ _ _ _ _ _ _ _ He)
    as (c2 & _ & _ & Hf & Hact & _).
  apply find_challenge_Some in Hf as [Hf _]. congruence.
Qed.

End Inactive.

(** ** The further statements on the scenarios *)

Lemma two_traders_sound : sound (two_traders (F:=Q)).
Proof.
  unfold two_traders. rewrite !run_step.
  do 5 apply handle_sound. apply empty_tables_sound.
Qed.

(** [trade_lifecycle] on [two_traders]: user 1 closes trade 0 at 110 and
    tries again at 120. *)
Lemma trade_lifecycle_witness :
  exists t t',
    trades (two_traders (F:=Q)) !! 0 = Some t
    /\ trades (run (F:=Q) two_traders
                 [CloseTrade 1 0 110%Q; CloseTrade 1 0 120%Q]) !! 0 = Some t'
    /\ Trade.status t = "open"
    /\ same_position t t'
    /\ Trade.status t' = "closed"
    /\ Trade.exit_price t' = Some 110%Q.
Proof.
  edestruct (trade_lifecycle (F:=Q) two_traders
               [CloseTrade 1 0 110%Q; CloseTrade 1 0 120%Q] 0)
    as (t' & Ht' & Hpos & _ & _).
  - evaluate.
  - eexists _, t'. split; [evaluate |]. split; [exact Ht' |].
    split; [reflexivity |]. split; [exact Hpos |].
    vm_compute in Ht'. injection Ht' as <-. split; reflexivity.
Defined.

(** [challenge_terms_kept] on [two_traders], over the same requests. *)
Lemma challenge_terms_kept_witness :
  exists c c',
    challenges (two_traders (F:=Q)) !! 0 = Some c
    /\ challenges (run (F:=Q) two_traders
                     [CloseTrade 1 0 110%Q; CloseTrade 1 0 120%Q]) !! 0
       = Some c'
    /\ same_terms c c'
    /\ Challenge.current_balance c = 10000%Q
    /\ Challenge.current_balance c' = 10100%Q.
Proof.
  edestruct (challenge_terms_kept (F:=Q) two_traders
               [CloseTrade 1 0 110%Q; CloseTrade 1 0 120%Q] 0)
    as (c' & Hc' & Hterms).
  - evaluate.
  - eexists _, c'. split; [evaluate |]. split; [exact Hc' |].
    split; [exact Hterms |]. split; [reflexivity |].
    vm_compute in Hc'. injection Hc' as <-. reflexivity.
Defined.

(** [handlers_keep_sound] on the empty tables of [two_users] and the
    requests that build [two_traders]. *)
Lemma handlers_keep_sound_witness :
  sound (two_users (F:=Q)) /\ sound (two_traders (F:=Q)).
Proof.
  pose proof (empty_tables_sound (F:=Q) {[ 1; 2 ]}) as Hempty.
  split; [exact Hempty |].
  exact (handlers_keep_sound two_users _ Hempty).
Defined.

(** [other_callers_cannot_interfere] on [two_traders]: user 2 tries to close
    the trade of user 1, to trade on the challenge of user 1, and trades on
    its own challenge. *)
Lemma other_callers_cannot_interfere_witness :
  exists c t,
    challenges (two_traders (F:=Q)) !! 0 = Some c
    /\ trades (two_traders (F:=Q)) !! 0 = Some t
    /\ challenges
         (run (F:=Q) two_traders
            [CloseTrade 2 0 50%Q; ExecuteTrade 2 0 "btc" "buy" 1%Q 1%Q;
             ExecuteTrade 2 1 "btc" "buy" 1%Q 1%Q]) !! 0 = Some c
    /\ trades
         (run (F:=Q) two_traders
            [CloseTrade 2 0 50%Q; ExecuteTrade 2 0 "btc" "buy" 1%Q 1%Q;
             ExecuteTrade 2 1 "btc" "buy" 1%Q 1%Q]) !! 0 = Some t
    /\ size (trades (two_traders (F:=Q))) = 2%nat
    /\ size (trades
               (run (F:=Q) two_traders
                  [CloseTrade 2 0 50%Q; ExecuteTrade 2 0 "btc" "buy" 1%Q 1%Q;
                   ExecuteTrade 2 1 "btc" "buy" 1%Q 1%Q])) = 3%nat.
Proof.
  edestruct (other_callers_cannot_interfere (F:=Q) two_traders
               [CloseTrade 2 0 50%Q; ExecuteTrade 2 0 "btc" "buy" 1%Q 1%Q;
                ExecuteTrade 2 1 "btc" "buy" 1%Q 1%Q] 1)
    as [Hc Ht].
  - apply two_traders_sound.
  - repeat constructor; discriminate.
  - eexists _, _.
    split; [evaluate |]. split; [evaluate |].
    split; [apply Hc; evaluate |]. split; [apply Ht; evaluate |].
    split; evaluate.
Defined.

(** [close_trade_frame] on [two_traders]: user 1 closes trade 0 at 110. *)
Lemma close_trade_frame_witness :
  exists s' t' c',
    close_trade (F:=Q) two_traders 1 0 110%Q = (s', TradeClosed t' c')
    /\ trades s' !! 1 = trades (two_traders (F:=Q)) !! 1
    /\ challenges s' !! 1 = challenges (two_traders (F:=Q)) !! 1.
Proof.
  eexists _, _, _. split; [evaluate |].
  edestruct (close_trade_frame (F:=Q) two_traders 1 0 110%Q)
    as (_ & _ & _ & Htr & Hch & _).
  - evaluate.
  - split; [apply Htr | apply Hch]; discriminate.
Defined.

(** [execute_trade_opens] on [two_traders], in binary64: user 1 opens 60
    units of 'btc' at 100, a value of 6000 against a balance of 10000, and
    then once more; a symbol of 21 characters is answered 500. *)
Lemma execute_trade_opens_witness :
  (exists s' t s'' t2,
     execute_trade (F:=float) two_traders 1 0 "btc" "Buy" 60%float 100%float
     = (s', TradeExecuted t)
     /\ execute_trade s' 1 0 "btc" "Buy" 60%float 100%float
        = (s'', TradeExecuted t2)
     /\ Trade.id t = 2
     /\ Trade.symbol t = "BTC"
     /\ Trade.id t2 <> Trade.id t
     /\ challenges s'' = challenges (two_traders (F:=float)))
  /\ execute_trade (F:=float) two_traders 1 0 "btc-usd-perpetual-2x." "Buy"
       60%float 100%float
     = (two_traders, Error ServerError).
Proof.
  split.
  - edestruct (execute_trade_opens (F:=float) two_traders 1 0 "btc" "Buy"
                 60%float 100%float) as (Hopen & _ & _).
    + evaluate.
    + evaluate.
    + evaluate.
    + evaluate.
    + evaluate.
    + destruct (Hopen "BTC" ltac:(evaluate))
        as (s' & t & He & _ & _ & _ & _ & _ & s'' & t2 & He2 & Hne).
      exists s', t, s'', t2. split; [exact He |]. split; [exact He2 |].
      vm_compute in He. injection He as <- <-.
      split; [reflexivity |]. split; [reflexivity |].
      split; [exact Hne |].
      vm_compute in He2. injection He2 as <- _. reflexivity.
  - edestruct (execute_trade_opens (F:=float) two_traders 1 0
                 "btc-usd-perpetual-2x." "Buy" 60%float 100%float)
      as (_ & Hrej & _).
    + evaluate.
    + evaluate.
    + evaluate.
    + evaluate.
    + evaluate.
    + apply Hrej. evaluate.
Defined.

(** [settlement_outcome_by_balance] on [two_positions], in binary64:
    closing trade 0 at 90 leaves 9500, a loss of 500 that reaches the daily
    limit and not the total limit. *)
Lemma settlement_outcome_by_balance_witness :
  exists s' t' c',
    close_trade (F:=float) two_positions 1 0 90%float
    = (s', TradeClosed t' c')
    /\ Challenge.current_balance c' = 9500%float
    /\ Challenge.status c' = "failed"
    /\ Challenge.fail_reason c' = Some "Exceeded 5% daily loss limit".
Proof.
  eexists _, _, _. split; [evaluate |]. split; [reflexivity |].
  edestruct (proj1 settlement_outcome_by_balance
               (two_positions (F:=float)) 1 0 90%float)
    as (config & Hcfg & _ & _ & _ & Hdaily & _).
  - evaluate.
  - evaluate.
  - exists (TierConfig.mk 10000 99 5 10 10). repeat split.
  - vm_compute in Hcfg. injection Hcfg as <-.
    apply Hdaily; vm_compute; reflexivity.
Defined.

(** [open_trade_can_be_closed] on [two_traders]: user 1 closes trade 0. *)
Lemma open_trade_can_be_closed_witness :
  exists s' t' c',
    close_trade (F:=Q) two_traders 1 0 1%Q = (s', TradeClosed t' c').
Proof.
  edestruct (proj1 open_trade_can_be_closed (two_traders (num:=Q_Num)) 1 0 1%Q)
    as (s' & t' & c' & Hc).
  - apply two_traders_sound.
  - evaluate.
  - evaluate.
  - evaluate.
  - eauto.
Defined.

(** [leaderboard_descending] on [two_traders], in binary64, with names for
    nobody and a rounding that keeps the value. *)
Lemma leaderboard_descending_witness :
  exists e1 e2,
    get_leaderboard (F:=float) (fun _ => None) (fun a => a) two_traders
      !! 0%nat = Some e1
    /\ get_leaderboard (F:=float) (fun _ => None) (fun a => a) two_traders
         !! 1%nat = Some e2
    /\ LeaderboardEntry.tier e1 = "pro"
    /\ LeaderboardEntry.tier e2 = "starter"
    /\ (LeaderboardEntry.profit_percent e2
        <= LeaderboardEntry.profit_percent e1)%num = true.
Proof.
  eexists _, _. split; [evaluate |]. split; [evaluate |].
  split; [reflexivity |]. split; [reflexivity |].
  edestruct (leaderboard_descending (F:=float) (fun _ => None) (fun a => a)
               two_traders 0%nat 1%nat) as (_ & _ & Hle).
  - intros a b Hab. exact Hab.
  - lia.
  - evaluate.
  - evaluate.
  - apply Hle. vm_compute. reflexivity.
Defined.

(** [ledger_stays_balanced] on [two_positions], in binary64: trade 0 is
    closed at 90 and trade 1 at 110; the challenge is credited -500 and then
    100, and stands at 9600. *)
Lemma ledger_stays_balanced_witness :
  exists c',
    challenges
      (run (F:=float) two_positions
         [CloseTrade 1 0 90%float; CloseTrade 1 1 110%float]) !! 0 = Some c'
    /\ credited (F:=float) two_positions
         [CloseTrade 1 0 90%float; CloseTrade 1 1 110%float] 0
       = [(-500)%float; 100%float]
    /\ Challenge.current_balance c' = 9600%float.
Proof.
  edestruct (proj1 ledger_stays_balanced float binary64_Num ascii_Unicode
               two_positions
               [CloseTrade 1 0 90%float; CloseTrade 1 1 110%float] 0)
    as (c' & Hc' & Hcur & _).
  - evaluate.
  - exists c'. split; [exact Hc' |]. split; [evaluate |].
    rewrite Hcur. evaluate.
Defined.

(** [inactive_is_final] on [after_loss]: the failed challenge is settled once
    more and passes; no trade can be opened on it. *)
Lemma inactive_is_final_witness :
  exists c',
    challenges (run (F:=Q) after_loss [CloseTrade 1 1 310%Q]) !! 0 = Some c'
    /\ Challenge.status c' = "passed"
    /\ exists e,
         execute_trade (run (F:=Q) after_loss [CloseTrade 1 1 310%Q])
           1 0 "btc" "buy" 1%Q 1%Q
         = (run after_loss [CloseTrade 1 1 310%Q], Error e).
Proof.
  edestruct (inactive_is_final (F:=Q) after_loss [CloseTrade 1 1 310%Q] 0)
    as (c' & Hc' & _ & Hno).
  - evaluate.
  - vm_compute. discriminate.
  - exists c'. split; [exact Hc' |]. split; [| apply Hno].
    vm_compute in Hc'. injection Hc' as <-. reflexivity.
Defined.

(** [total_loss_checked_after_daily_loss] on [two_positions], in binary64:
    closing trade 0 at 80 loses 1000, which reaches both the daily limit
    (500) and the total limit (1000). *)
Lemma total_loss_checked_after_daily_loss_witness :
  exists s' t' c',
    close_trade (F:=float) two_positions 1 0 80%float
    = (s', TradeClosed t' c')
    /\ daily_loss_hit (TierConfig.mk 10000 99 5 10 10) c' = true
    /\ Challenge.fail_reason c' = Some "Exceeded 10% total loss limit"
    /\ Challenge.status c' = "failed".
Proof.
  eexists _, _, _. split; [evaluate |].
  split; [evaluate |]. split.
  - edestruct (proj1 total_loss_checked_after_daily_loss float binary64_Num
                 two_positions 1 0 80%float) as (Hr & _).
    + evaluate.
    + evaluate.
    + evaluate.
    + exact Hr.
  - eapply (proj2 (proj2 total_loss_checked_after_daily_loss)
              two_positions 1 0 80%float).
    + evaluate.
    + evaluate.
    + evaluate.
    + evaluate.
Defined.

(** C6, as stated, fails in binary64.  An exit price of NaN passes the test
    [exit_price <= 0] and leaves a current balance of NaN under a highest
    balance of 10000.  With finite numbers only: the two positions of
    [large_positions] closed at 2^1000 credit an infinite profit and then an
    infinite loss, which leaves NaN under a highest balance of infinity.
    Either way [highest_balance >= current_balance] is false. *)
Lemma highest_balance_not_above_nan :
  (exists s' t' c',
     close_trade (F:=float) two_positions 1 0 nan = (s', TradeClosed t' c')
     /\ Challenge.highest_balance c' = 10000%float
     /\ (Challenge.highest_balance c' >= Challenge.current_balance c')%num
        = false)
  /\ (exists c',
        challenges
          (run large_positions
             [CloseTrade 1 0 0x1p+1000%float; CloseTrade 1 1 0x1p+1000%float])
          !! 0 = Some c'
        /\ Challenge.highest_balance c' = infinity
        /\ (Challenge.highest_balance c' >= Challenge.current_balance c')%num
           = false).
Proof.
  split.
  - eexists _, _, _. repeat (split; [evaluate |]). evaluate.
  - eexists. repeat (split; [evaluate |]). evaluate.
Qed.

(** [highest_balance_invariant] in binary64, on [two_positions]: the two
    trades are closed at 80 and at 310, and the highest balance goes from
    10000 to 11100; a trade closed at NaN leaves a current balance that is
    not greater than the highest balance. *)
Lemma highest_balance_invariant_witness :
  (exists c c',
     challenges (two_positions (F:=float)) !! 0 = Some c
     /\ challenges
          (run (F:=float) two_positions
             [CloseTrade 1 0 80%float; CloseTrade 1 1 310%float]) !! 0
        = Some c'
     /\ Challenge.highest_balance c = 10000%float
     /\ Challenge.highest_balance c' = 11100%float
     /\ (Challenge.highest_balance c'
         < Challenge.highest_balance c)%num = false)
  /\ (exists s' t' c',
        close_trade (F:=float) two_positions 1 0 nan = (s', TradeClosed t' c')
        /\ (Challenge.highest_balance c'
            < Challenge.current_balance c')%num = false).
Proof.
  split.
  - edestruct (proj1 (highest_balance_invariant (F:=float) two_positions
                        [CloseTrade 1 0 80%float; CloseTrade 1 1 310%float])
                 0) as (c' & Hc' & _ & Hlow).
    + evaluate.
    + eexists _, c'. split; [evaluate |]. split; [exact Hc' |].
      split; [reflexivity |]. split; [| exact Hlow].
      vm_compute in Hc'. injection Hc' as <-. reflexivity.
  - eexists _, _, _. split; [evaluate |].
    edestruct (proj1 (proj2 (highest_balance_invariant (F:=float)
                               two_positions [])) 1 0 nan) as (_ & Hlt & _).
    + evaluate.
    + exact Hlt.
Defined.
